(** * subnet-lab: the subnet arithmetic and validation engine

    A shallow embedding of [src/lib/subnet-utils.ts] and the properties its
    specification states about it.  The TypeScript functions are total
    on strings apart from the exceptions they throw; exceptions are modelled
    by the [result] type, JavaScript numbers by [number] and the regular
    expressions of the source by a small derivative matcher. *)

From Stdlib Require Import ZArith List String Ascii Bool Lia.
Import ListNotations.

Local Open Scope string_scope.
Local Open Scope Z_scope.

(** ** Exceptions

    The source signals every failure with [throw new Error(message)].  An
    error is identified here by its kind; the message each kind stands for is
    given next to the [Err] that models the [throw]. *)

Inductive error : Type :=
| InvalidAddress
| InvalidMask
| InvalidCidr
| OutOfRange
| InvalidFormat
| AddressSpaceExhausted.

Inductive result (A : Type) : Type :=
| Ok (a : A)
| Err (e : error).

Arguments Ok {A} a.
Arguments Err {A} e.

Definition bind {A B : Type} (m : result A) (k : A -> result B) : result B :=
  match m with
  | Ok a => k a
  | Err e => Err e
  end.

Notation "x <- m ;; k" := (bind m (fun x => k))
  (at level 61, m at next level, right associativity).

(** [try { body } catch (error) { throw new Error(prefix + error.message) }]:
    the handler only prefixes the message, so the kind of the failure is the
    kind of the failure raised in the body. *)
Definition try_rethrow {A : Type} (body : result A) : result A :=
  match body with
  | Ok a => Ok a
  | Err e => Err e
  end.

(** ** JavaScript runtime *)

Module JS.

(** Numbers.  The values that reach the code are integers (results of
    [parseInt], [Number] on digit groups, octet arithmetic, powers of two up
    to 2^32) and [NaN]; all of them are exact as doubles.  [-0] is [Num 0]:
    the code compares it and subtracts from it, which does not tell the two
    zeros apart. *)
Inductive number : Type :=
| NaN
| Num (z : Z).

Definition isNaN (n : number) : bool :=
  match n with NaN => true | Num _ => false end.

(** [a < b], [a > b], [a >= b], [a <= b], [a === b]: false when an operand is
    [NaN]. *)
Definition cmp (f : Z -> Z -> bool) (a b : number) : bool :=
  match a, b with
  | Num x, Num y => f x y
  | _, _ => false
  end.
Definition ltb := cmp Z.ltb.
Definition gtb := cmp Z.gtb.
Definition leb := cmp Z.leb.
Definition geb := cmp Z.geb.
Definition strict_eq := cmp Z.eqb.

Definition arith (f : Z -> Z -> Z) (a b : number) : number :=
  match a, b with
  | Num x, Num y => Num (f x y)
  | _, _ => NaN
  end.
Definition num_sub := arith Z.sub.
Definition num_add := arith Z.add.

(** [ToInt32]: [NaN] becomes 0, an integer wraps to the signed 32-bit range. *)
Definition ToInt32 (n : number) : Z :=
  match n with
  | NaN => 0
  | Num z => (z + 2 ^ 31) mod 2 ^ 32 - 2 ^ 31
  end.

Definition bitand (a b : number) : number := Num (Z.land (ToInt32 a) (ToInt32 b)).
Definition bitor (a b : number) : number := Num (Z.lor (ToInt32 a) (ToInt32 b)).

(** Strings are sequences of code units; the model has the code units below
    256.  The white space among them: *)
Definition is_ws (c : ascii) : bool :=
  let n := nat_of_ascii c in
  (Nat.eqb n 9 || Nat.eqb n 10 || Nat.eqb n 11 || Nat.eqb n 12 || Nat.eqb n 13
   || Nat.eqb n 32 || Nat.eqb n 160)%bool.

Fixpoint trim_start (s : string) : string :=
  match s with
  | String c t => if is_ws c then trim_start t else s
  | EmptyString => s
  end.

Fixpoint rev_string (s acc : string) : string :=
  match s with
  | String c t => rev_string t (String c acc)
  | EmptyString => acc
  end.

Definition trim (s : string) : string :=
  rev_string (trim_start (rev_string (trim_start s) "")) "".

(** The value of a digit character in a radix up to ten (the source uses the
    radices 2 and 10 only). *)
Definition digit_val (c : ascii) : Z := Z.of_nat (nat_of_ascii c) - 48.

Definition is_digit (radix : Z) (c : ascii) : bool :=
  (0 <=? digit_val c) && (digit_val c <? radix).

Definition digit_char (d : Z) : ascii := ascii_of_nat (48 + Z.to_nat d).

Fixpoint digit_prefix (radix : Z) (s : string) : string :=
  match s with
  | String c t => if is_digit radix c then String c (digit_prefix radix t) else ""
  | EmptyString => ""
  end.

Fixpoint all_digits (radix : Z) (s : string) : bool :=
  match s with
  | String c t => is_digit radix c && all_digits radix t
  | EmptyString => true
  end.

Fixpoint digits_val (radix acc : Z) (s : string) : Z :=
  match s with
  | String c t => digits_val radix (acc * radix + digit_val c) t
  | EmptyString => acc
  end.

Definition strip_sign (s : string) : Z * string :=
  match s with
  | String "-" t => (-1, t)
  | String "+" t => (1, t)
  | _ => (1, s)
  end.

(** [parseInt(s, radix)] for a radix from 2 to 10: skip leading white space,
    read an optional sign, then the longest prefix of digits; [NaN] when that
    prefix is empty.  What follows the digits is ignored. *)
Definition parseInt (s : string) (radix : Z) : number :=
  let (sign, body) := strip_sign (trim_start s) in
  match digit_prefix radix body with
  | EmptyString => NaN
  | ds => Num (sign * digits_val radix 0 ds)
  end.

(** [Number(s)] on the strings the code can observe: white space is trimmed,
    the empty string is 0, an optionally signed run of decimal digits is its
    value.  The other numeric literals (hexadecimal, exponent, [Infinity])
    are not modelled and read as [NaN]; a string that holds one fails
    [validateIP], and the only caller that passes unvalidated text to
    [Number] is the first [bitwiseAnd] of [calculateSubnet], whose result is
    dropped when the mask is rejected. *)
Definition Number (s : string) : number :=
  let t := trim s in
  match t with
  | EmptyString => Num 0
  | _ =>
      let (sign, body) := strip_sign t in
      match body with
      | EmptyString => NaN
      | _ => if all_digits 10 body then Num (sign * digits_val 10 0 body) else NaN
      end
  end.

(** Digits of a non-negative integer, most significant first. *)
Fixpoint digits_of (fuel : nat) (radix n : Z) (acc : string) : string :=
  match fuel with
  | O => acc
  | S f =>
      let acc' := String (digit_char (n mod radix)) acc in
      if n <? radix then acc' else digits_of f radix (n / radix) acc'
  end.

Definition nat_string (radix n : Z) : string :=
  digits_of (S (Z.to_nat (Z.log2 n))) radix n "".

(** [n.toString(radix)]. *)
Definition toString_radix (radix : Z) (n : number) : string :=
  match n with
  | NaN => "NaN"
  | Num z => if z <? 0 then String "-" (nat_string radix (- z)) else nat_string radix z
  end.

Definition toString : number -> string := toString_radix 10.

Fixpoint repeat_char (c : ascii) (n : nat) : string :=
  match n with
  | O => ""
  | S k => String c (repeat_char c k)
  end.

(** [s.padStart(len, c)] with a one-character filler. *)
Definition padStart (len : nat) (c : ascii) (s : string) : string :=
  repeat_char c (len - String.length s) ++ s.

(** [s.startsWith(p)]. *)
Definition startsWith (p s : string) : bool := String.prefix p s.

(** [s.substring(n)]. *)
Fixpoint substring_from (n : nat) (s : string) : string :=
  match n, s with
  | S k, String _ t => substring_from k t
  | _, _ => s
  end.

(** [s.split(sep)] with a one-character separator: never empty. *)
Fixpoint split (sep : ascii) (s : string) : list string :=
  match s with
  | EmptyString => [""]
  | String c t =>
      if Ascii.eqb c sep then "" :: split sep t
      else match split sep t with
           | g :: gs => String c g :: gs
           | [] => [String c ""]
           end
  end.

(** [a.join(sep)] on an array of strings. *)
Definition join (sep : string) (l : list string) : string := String.concat sep l.

(** [s.replace(/c/g, '')] for a one-character pattern. *)
Fixpoint remove_char (c : ascii) (s : string) : string :=
  match s with
  | EmptyString => ""
  | String d t => if Ascii.eqb d c then remove_char c t else String d (remove_char c t)
  end.

(** [(s.match(/c/g) || []).length] for a one-character pattern. *)
Fixpoint count_char (c : ascii) (s : string) : Z :=
  match s with
  | EmptyString => 0
  | String d t => (if Ascii.eqb d c then 1 else 0) + count_char c t
  end.

(** [a[i]]: [undefined] out of range, which the bitwise operators and the
    comparisons read as [NaN]. *)
Definition index (l : list number) (i : nat) : number := nth i l NaN.

(** [a[i] = v] for an index inside the array (the source never writes
    outside: the arrays it updates have four elements and [i] is 3 to 0). *)
Fixpoint store (l : list number) (i : nat) (v : number) : list number :=
  match l, i with
  | [], _ => []
  | _ :: t, O => v :: t
  | x :: t, S k => x :: store t k v
  end.

(** [a.every(p)]. *)
Definition every {A : Type} (p : A -> bool) (l : list A) : bool := forallb p l.

(** [a.slice(from, to)]. *)
Definition slice {A : Type} (from to : nat) (l : list A) : list A :=
  firstn (to - from) (skipn from l).

End JS.

(** ** Regular expressions

    Every pattern the source tests is anchored at both ends, so a test is a
    membership test in the language of the pattern. *)

Module Regex.

Inductive regex : Type :=
| Void
| Eps
| Class (p : ascii -> bool)
| Cat (r1 r2 : regex)
| Alt (r1 r2 : regex)
| Star (r : regex).

Fixpoint nullable (r : regex) : bool :=
  match r with
  | Void => false
  | Eps => true
  | Class _ => false
  | Cat r1 r2 => nullable r1 && nullable r2
  | Alt r1 r2 => nullable r1 || nullable r2
  | Star _ => true
  end.

Fixpoint deriv (c : ascii) (r : regex) : regex :=
  match r with
  | Void => Void
  | Eps => Void
  | Class p => if p c then Eps else Void
  | Cat r1 r2 =>
      if nullable r1 then Alt (Cat (deriv c r1) r2) (deriv c r2)
      else Cat (deriv c r1) r2
  | Alt r1 r2 => Alt (deriv c r1) (deriv c r2)
  | Star r1 => Cat (deriv c r1) (Star r1)
  end.

(** [/^r$/.test(s)]. *)
Fixpoint test (r : regex) (s : string) : bool :=
  match s with
  | EmptyString => nullable r
  | String c t => test (deriv c r) t
  end.

(** [r{n}], [r{0,n}], [r{lo,hi}], [r?], [r+] and a literal character. *)
Fixpoint Times (n : nat) (r : regex) : regex :=
  match n with
  | O => Eps
  | S k => Cat r (Times k r)
  end.

Fixpoint UpTo (n : nat) (r : regex) : regex :=
  match n with
  | O => Eps
  | S k => Alt Eps (Cat r (UpTo k r))
  end.

Definition Rep (lo hi : nat) (r : regex) : regex := Cat (Times lo r) (UpTo (hi - lo) r).
Definition Opt (r : regex) : regex := Alt Eps r.
Definition Plus (r : regex) : regex := Cat r (Star r).
Definition Chr (c : ascii) : regex := Class (Ascii.eqb c).

(** [\d] and [[01]]. *)
Definition digit : regex := Class (JS.is_digit 10).
Definition bit : regex := Class (JS.is_digit 2).

(** The language of a pattern. *)
Fixpoint Lang (r : regex) (s : string) : Prop :=
  match r with
  | Void => False
  | Eps => s = ""
  | Class p => exists c, s = String c "" /\ p c = true
  | Cat r1 r2 => exists s1 s2, s = s1 ++ s2 /\ Lang r1 s1 /\ Lang r2 s2
  | Alt r1 r2 => Lang r1 s \/ Lang r2 s
  | Star r1 => exists ss, s = String.concat "" ss /\ Forall (Lang r1) ss
  end.

End Regex.

Import JS Regex.

(** ** The program: [src/lib/subnet-utils.ts] *)

Record SubnetInfo : Type := {
  networkAddress : string;
  broadcastAddress : string;
  firstHost : string;
  lastHost : string;
  totalHosts : Z;
  usableHosts : Z;
  subnetMask : string;
  wildcardMask : string;
  binaryIP : string;
  binaryMask : string
}.

(** [/^(\d{1,3})\.(\d{1,3})\.(\d{1,3})\.(\d{1,3})$/] *)
Definition ipRegex : regex :=
  Cat (Rep 1 3 digit) (Cat (Chr ".")
  (Cat (Rep 1 3 digit) (Cat (Chr ".")
  (Cat (Rep 1 3 digit) (Cat (Chr ".")
  (Rep 1 3 digit)))))).

(** [ip.match(ipRegex)]: [null], or the array of the whole match followed by
    the four captured groups.  A group holds digits only and the groups are
    separated by the three dots of the pattern, so the groups of a match are
    the pieces of the string between its dots ([ipRegex_groups] below). *)
Definition ip_match (ip : string) : option (list string) :=
  if test ipRegex ip then Some (ip :: split "." ip) else None.

Definition validateIP (ip : string) : bool :=
  match ip_match ip with
  | None => false
  | Some m =>
      let octets := map Number (slice 1 5 m) in
      every (fun octet => geb octet (Num 0) && leb octet (Num 255)) octets
  end.

(** Throws [Error('Endereço IP inválido')] on a string [validateIP] rejects. *)
Definition ipToBinary (ip : string) : result string :=
  if negb (validateIP ip) then Err InvalidAddress
  else
    Ok (join "." (map (fun octet => padStart 8 "0" (toString_radix 2 (parseInt octet 10)))
                      (split "." ip))).

(** [/^[01]+$/], [/^1*0*$/] *)
Definition onlyBinaryRegex : regex := Plus bit.
Definition leadingOnesRegex : regex := Cat (Star (Chr "1")) (Star (Chr "0")).

(** The call of [ipToBinary] is guarded by [validateIP], so it cannot throw;
    the [Err] branch is never taken ([ipToBinary_valid] below). *)
Definition validateSubnetMask (mask : string) : bool :=
  if startsWith "/" mask then
    let cidr := parseInt (substring_from 1 mask) 10 in
    negb (isNaN cidr) && geb cidr (Num 0) && leb cidr (Num 32)
  else if validateIP mask then
    match ipToBinary mask with
    | Ok b =>
        let binary := remove_char "." b in
        let hasOnlyBinary := test onlyBinaryRegex binary in
        let hasLeadingOnes := test leadingOnesRegex binary in
        hasOnlyBinary && hasLeadingOnes && Nat.eqb (String.length binary) 32
    | Err _ => false
    end
  else false.

(** [/^([01]{8}\.?){4}$/] *)
Definition binaryRegex : regex := Times 4 (Cat (Times 8 bit) (Opt (Chr "."))).

(** Throws [Error('Formato binário inválido. ...')] when the pattern does not
    match.  The body of the [try] cannot throw. *)
Definition binaryToIp (binary : string) : result string :=
  if negb (test binaryRegex binary) then Err InvalidFormat
  else
    try_rethrow
      (Ok (join "." (map (fun octet => toString (parseInt octet 2)) (split "." binary)))).

(** The loop [for (let i = 0; i < 4; i++)] of [cidrToMask], [n] rounds left. *)
Fixpoint cidrToMask_loop (n : nat) (i : Z) (cidr : Z) (mask : list number) : list number :=
  match n with
  | O => mask
  | S k =>
      let bits := Z.min 8 (Z.max 0 (cidr - i * 8)) in
      cidrToMask_loop k (i + 1) cidr
        (mask ++ [Num (if bits =? 0 then 0 else 256 - 2 ^ (8 - bits))])
  end.

(** Throws [Error('CIDR deve estar entre 0 e 32')]. *)
Definition cidrToMask (cidr : number) : result string :=
  if isNaN cidr || ltb cidr (Num 0) || gtb cidr (Num 32) then Err OutOfRange
  else
    match cidr with
    | NaN => Err OutOfRange
    | Num c => Ok (join "." (map toString (cidrToMask_loop 4 0 c [])))
    end.

(** Throws [Error('Máscara de sub-rede inválida')]. *)
Definition maskToCidr (mask : string) : result Z :=
  if negb (validateSubnetMask mask) then Err InvalidMask
  else
    try_rethrow
      (b <- ipToBinary mask ;;
       Ok (count_char "1" (remove_char "." b))).

(** Throws [Error('Máscara de sub-rede inválida')]. *)
Definition getWildcardMask (subnetMask : string) : result string :=
  if negb (validateSubnetMask subnetMask) then Err InvalidMask
  else
    try_rethrow
      (Ok (join "." (map (fun octet => toString (num_sub (Num 255) (parseInt octet 10)))
                         (split "." subnetMask)))).

(** [octets1.map((octet, index) => f(octet, octets2[index]))] *)
Fixpoint map_indexed (f : number -> number -> string) (octets1 octets2 : list number)
    (index : nat) : list string :=
  match octets1 with
  | [] => []
  | octet :: rest => f octet (JS.index octets2 index) :: map_indexed f rest octets2 (S index)
  end.

(** No validation of the operands. *)
Definition bitwiseAnd (ip1 ip2 : string) : string :=
  let octets1 := map Number (split "." ip1) in
  let octets2 := map Number (split "." ip2) in
  join "." (map_indexed (fun a b => toString (bitand a b)) octets1 octets2 0).

(** Throws [Error('Um ou mais endereços IP são inválidos')]. *)
Definition bitwiseOr (ip1 ip2 : string) : result string :=
  if negb (validateIP ip1) || negb (validateIP ip2) then Err InvalidAddress
  else
    try_rethrow
      (let octets1 := map Number (split "." ip1) in
       let octets2 := map Number (split "." ip2) in
       Ok (join "." (map_indexed (fun a b => toString (bitor a b)) octets1 octets2 0))).

(** The loop [for (let i = 3; i >= 0; i--)] of [incrementIp]; [n] is [i + 1].
    Throws [Error('Estouro: endereço IP máximo atingido (255.255.255.255)')]
    when the carry leaves the first octet. *)
Fixpoint incrementIp_loop (n : nat) (octets : list number) : result string :=
  match n with
  | O => Ok (join "." (map toString octets))
  | S i =>
      if ltb (index octets i) (Num 255) then
        Ok (join "." (map toString (store octets i (num_add (index octets i) (Num 1)))))
      else
        let octets := store octets i (Num 0) in
        if Nat.eqb i 0 then Err AddressSpaceExhausted
        else incrementIp_loop i octets
  end.

(** Throws [Error('Endereço IP inválido')] on an invalid string. *)
Definition incrementIp (ip : string) : result string :=
  if negb (validateIP ip) then Err InvalidAddress
  else try_rethrow (incrementIp_loop 4 (map Number (split "." ip))).

(** The loop [for (let i = 3; i >= 0; i--)] of [decrementIp]; [n] is [i + 1]. *)
Fixpoint decrementIp_loop (n : nat) (octets : list number) : result string :=
  match n with
  | O => Ok (join "." (map toString octets))
  | S i =>
      if gtb (index octets i) (Num 0) then
        Ok (join "." (map toString (store octets i (num_sub (index octets i) (Num 1)))))
      else decrementIp_loop i (store octets i (Num 255))
  end.

(** Throws [Error('Endereço IP inválido')] on an invalid string and
    [Error('Estouro: endereço IP mínimo atingido (0.0.0.0)')] when every octet
    is zero. *)
Definition decrementIp (ip : string) : result string :=
  if negb (validateIP ip) then Err InvalidAddress
  else
    try_rethrow
      (let octets := map Number (split "." ip) in
       if every (fun octet => strict_eq octet (Num 0)) octets then Err AddressSpaceExhausted
       else decrementIp_loop 4 octets).

(** Throws [Error('Endereço IP inválido')] first, then
    [Error('Valor CIDR inválido. Deve estar entre 0 e 32')] for a CIDR
    suffix out of range; the mask is validated by [getWildcardMask]
    ([Error('Máscara de sub-rede inválida')]) before the explicit test.
    The first network and broadcast addresses are computed and dropped; the
    [try] block computes them again. *)
Definition calculateSubnet (ipAddress subnetMask : string) : result SubnetInfo :=
  if negb (validateIP ipAddress) then Err InvalidAddress
  else
    mask <- (if startsWith "/" subnetMask then
               try_rethrow
                 (let cidr := parseInt (substring_from 1 subnetMask) 10 in
                  if isNaN cidr || ltb cidr (Num 0) || gtb cidr (Num 32)
                  then Err InvalidCidr
                  else cidrToMask cidr)
             else Ok subnetMask) ;;
    let networkAddress := bitwiseAnd ipAddress mask in
    wildcardMask <- getWildcardMask mask ;;
    broadcastAddress <- bitwiseOr networkAddress wildcardMask ;;
    if negb (validateSubnetMask mask) then Err InvalidMask
    else
      try_rethrow
        (binaryIP <- ipToBinary ipAddress ;;
         binaryMask <- ipToBinary mask ;;
         let networkAddress := bitwiseAnd ipAddress mask in
         wildcard <- getWildcardMask mask ;;
         broadcastAddress <- bitwiseOr networkAddress wildcard ;;
         firstHost <- incrementIp networkAddress ;;
         lastHost <- decrementIp broadcastAddress ;;
         cidr <- maskToCidr mask ;;
         let firstHost := if cidr >=? 31 then networkAddress else firstHost in
         let lastHost := if cidr >=? 31 then broadcastAddress else lastHost in
         let totalHosts := 2 ^ (32 - cidr) in
         let usableHosts := Z.max 0 (totalHosts - 2) in
         let usableHosts := if cidr >=? 31 then totalHosts else usableHosts in
         Ok {| networkAddress := networkAddress;
               broadcastAddress := broadcastAddress;
               firstHost := firstHost;
               lastHost := lastHost;
               totalHosts := totalHosts;
               usableHosts := usableHosts;
               subnetMask := mask;
               wildcardMask := wildcard;
               binaryIP := binaryIP;
               binaryMask := binaryMask |}).

(** ** The history of calculations: [src/hooks/useHistoricoCalculos.ts]

    The hook keeps the list of the last calculations in a React state.  The
    update function passed to [setHistory] is pure apart from the fresh
    identifier ([crypto.randomUUID()]) and the clock ([Date.now()]), which are
    arguments here. *)

Module History.

Record CalculationHistoryItem : Type := {
  id : string;
  timestamp : Z;
  ipAddress : string;
  subnetMask : string;
  result : SubnetInfo
}.

Definition HISTORY_LIMIT : nat := 5.

(** [addToHistory(ipAddress, subnetMask, result)] applied to the previous
    list: the entries for the same address and mask are removed, the new item
    is put in front and the list is cut at the limit. *)
Definition addToHistory (uuid : string) (now : Z) (ipAddress subnetMask : string)
    (result : SubnetInfo) (prev : list CalculationHistoryItem)
    : list CalculationHistoryItem :=
  let newItem := {| id := uuid; timestamp := now; ipAddress := ipAddress;
                    subnetMask := subnetMask; result := result |} in
  let filtered :=
    filter (fun item => negb (String.eqb item.(History.ipAddress) ipAddress
                              && String.eqb item.(History.subnetMask) subnetMask))
           prev in
  slice 0 HISTORY_LIMIT (newItem :: filtered).

(** [clearHistory()]: the state becomes the empty list. *)
Definition clearHistory (prev : list CalculationHistoryItem) : list CalculationHistoryItem :=
  [].

End History.

(** ** The form: [src/components/CalculadoraSubrede.tsx]

    [handleCalculate] decides, from the two text fields, which message to
    show or which calculation to run.  The model keeps that decision; the
    state updates around it (touched flags, the busy flag, scrolling to the
    results) are left out. *)

Module Form.

Inductive toast : Type :=
| RequiredIP          (* "Campo obrigatório": no address *)
| RequiredMask        (* "Campo obrigatório": no mask *)
| InvalidIPFormat     (* "Endereço IP inválido" *)
| InvalidMaskFormat   (* "Máscara de sub-rede inválida" *)
| CalculationError (e : error).  (* "Erro no cálculo" *)

Inductive outcome : Type :=
| Toast (t : toast)
| Calculated (ip mask : string) (r : SubnetInfo).

Definition isValidIP (ipAddress : string) : bool :=
  String.eqb ipAddress "" || validateIP (trim ipAddress).

Definition isValidMask (subnetMask : string) : bool :=
  String.eqb subnetMask "" || validateSubnetMask (trim subnetMask).

(** [Calculated ip mask r]: [setResults(r)] and [addToHistory(ip, mask, r)]. *)
Definition handleCalculate (ipAddress subnetMask : string) : outcome :=
  if String.eqb (trim ipAddress) "" then Toast RequiredIP
  else if String.eqb (trim subnetMask) "" then Toast RequiredMask
  else if negb (isValidIP ipAddress) then Toast InvalidIPFormat
  else if negb (isValidMask subnetMask) then Toast InvalidMaskFormat
  else
    match calculateSubnet (trim ipAddress) (trim subnetMask) with
    | Ok r => Calculated (trim ipAddress) (trim subnetMask) r
    | Err e => Toast (CalculationError e)
    end.

End Form.

(** The result for 10.0.0.1/8, used to instantiate statements. *)
Definition example_result : SubnetInfo :=
  {| networkAddress := "10.0.0.0"; broadcastAddress := "10.255.255.255";
     firstHost := "10.0.0.1"; lastHost := "10.255.255.254";
     totalHosts := 16777216; usableHosts := 16777214;
     subnetMask := "255.0.0.0"; wildcardMask := "0.255.255.255";
     binaryIP := "00001010.00000000.00000000.00000001";
     binaryMask := "11111111.00000000.00000000.00000000" |}.

Definition example_item (uuid : string) (now : Z) : History.CalculationHistoryItem :=
  {| History.id := uuid; History.timestamp := now; History.ipAddress := "10.0.0.1";
     History.subnetMask := "/8"; History.result := example_result |}.

(** A history entry is identified by its address and mask. *)
Definition history_key (item : History.CalculationHistoryItem) : string * string :=
  (item.(History.ipAddress), item.(History.subnetMask)).

(** ** Vocabulary of the specification *)

(** A group of one to three decimal digits, and its numeric value. *)
Definition digit_group (g : string) : bool :=
  all_digits 10 g && Nat.leb 1 (String.length g) && Nat.leb (String.length g) 3.

Definition group_value (g : string) : Z := digits_val 10 0 g.

(** An octet as a valid address spells it. *)
Definition octet_ok (g : string) : Prop :=
  digit_group g = true /\ 0 <= group_value g <= 255.

(** Four groups joined by dots. *)
Definition dotted (g1 g2 g3 g4 : string) : string :=
  g1 ++ "." ++ g2 ++ "." ++ g3 ++ "." ++ g4.

(** The octets an address string denotes, its value as a 32-bit integer and
    its bits, most significant first. *)
Definition ip_octets (s : string) : list Z := map group_value (split "." s).

Definition ip_value (s : string) : Z :=
  fold_left (fun acc o => acc * 256 + o) (ip_octets s) 0.

Definition octet_bits (o : Z) : list bool := map (Z.testbit o) [7; 6; 5; 4; 3; 2; 1; 0].

Definition ip_bits (s : string) : list bool := flat_map octet_bits (ip_octets s).

(** A list of bits written with the characters 0 and 1. *)
Definition bit_char (b : bool) : ascii := if b then "1"%char else "0"%char.

Fixpoint bits_string (l : list bool) : string :=
  match l with
  | [] => ""
  | b :: t => String (bit_char b) (bits_string t)
  end.

(** 32 bits of which the first [n] are set and the others are clear. *)
Definition prefix_bits (n : nat) : list bool := repeat true n ++ repeat false (32 - n).

(** A group written without a leading zero, an address string all of whose
    groups are, and the string that spells the same octets that way. *)
Definition no_leading_zero (g : string) : bool :=
  match g with
  | String "0" (String _ _) => false
  | _ => true
  end.

(** A group without a leading zero is printed back by [toString]. *)
Definition prints_back (g : string) : bool :=
  implb (no_leading_zero g) (String.eqb (toString (Num (group_value g))) g).

Definition canonical_ip (s : string) : bool :=
  validateIP s && forallb no_leading_zero (split "." s).

Definition canonical_form (s : string) : string :=
  join "." (map (fun g => toString (Num (group_value g))) (split "." s)).

(** What may follow a group in the pattern of [binaryToIp]: [\.?]. *)
Definition dot_or_none (d : string) : Prop := d = "" \/ d = ".".

(** The dotted string of four numeric octets: [[w, x, y, z].join('.')]. *)
Definition octets_string (w x y z : Z) : string :=
  join "." (map toString [Num w; Num x; Num y; Num z]).

(** A group of exactly eight binary digits, and its value. *)
Definition bit_group (g : string) : bool :=
  all_digits 2 g && Nat.eqb (String.length g) 8.

Definition bits_value (g : string) : Z := digits_val 2 0 g.

(** Texts that read as an integer.  [reads_integer t n]: [t] is, after any
    leading white space, an optional sign and a run of decimal digits of
    signed value [n], followed by anything that does not start with a digit.
    [integer_text t n]: the whole of [t] is an optional sign and a run of
    decimal digits of signed value [n]. *)
Fixpoint all_ws (s : string) : bool :=
  match s with
  | EmptyString => true
  | String c t => is_ws c && all_ws t
  end.

Definition starts_with_digit (s : string) : bool :=
  match s with
  | String c _ => is_digit 10 c
  | EmptyString => false
  end.

Definition sign_value (sign : string) : Z := if String.eqb sign "-" then -1 else 1.

Definition reads_integer (t : string) (n : Z) : Prop :=
  exists ws sign ds rest,
    t = ws ++ sign ++ ds ++ rest
    /\ all_ws ws = true
    /\ (sign = "" \/ sign = "+" \/ sign = "-")
    /\ ds <> "" /\ all_digits 10 ds = true
    /\ starts_with_digit rest = false
    /\ n = sign_value sign * group_value ds.


(** The prefix length a mask text asks for: the integer read after the
    slash, or the number of leading ones of a valid dotted mask. *)
Definition given_prefix (sm : string) (cidr : Z) : Prop :=
  (exists t, sm = String "/" t /\ reads_integer t cidr)
  \/ (validateIP sm = true /\ ip_bits sm = prefix_bits (Z.to_nat cidr)).

(** ** Strings *)

Section Strings.

Lemma append_nil_r (s : string) : s ++ "" = s.
Proof. induction s; simpl; congruence. Qed.

Lemma append_assoc (a b c : string) : (a ++ b) ++ c = a ++ (b ++ c).
Proof. induction a; simpl; congruence. Qed.

Lemma length_append (a b : string) :
  String.length (a ++ b) = (String.length a + String.length b)%nat.
Proof. induction a; simpl; congruence. Qed.

Lemma append_eq_nil (a b : string) : a ++ b = "" -> a = "" /\ b = "".
Proof. destruct a; simpl; [auto | discriminate]. Qed.

Lemma concat_nil_cons (x : string) (l : list string) :
  String.concat "" (x :: l) = x ++ String.concat "" l.
Proof. destruct l; simpl; [now rewrite append_nil_r | reflexivity]. Qed.

End Strings.

(** ** The matcher decides the language of a pattern *)

Section Matcher.

Lemma nullable_Lang (r : regex) : nullable r = true <-> Lang r "".
Proof.
  induction r; simpl.
  - split; [discriminate | tauto].
  - tauto.
  - split; [discriminate | intros (c & Hc & _); discriminate].
  - rewrite andb_true_iff, IHr1, IHr2. split.
    + intros [H1 H2]. now exists "", "".
    + intros (s1 & s2 & E & H1 & H2).
      symmetry in E. apply append_eq_nil in E as [-> ->]. auto.
  - now rewrite orb_true_iff, IHr1, IHr2.
  - split; [intros _ | reflexivity]. exists []. auto.
Qed.

Lemma Lang_Star_cons (r : regex) (c : ascii) (s : string) :
  Lang (Star r) (String c s) <->
  exists s1 s2, s = s1 ++ s2 /\ Lang r (String c s1) /\ Lang (Star r) s2.
Proof.
  split.
  - intros (ss & E & F). revert E. induction F as [|x l Hx F IH]; [discriminate|].
    rewrite concat_nil_cons. destruct x as [|d x]; simpl.
    + exact IH.
    + intros E. injection E as <- ->. exists x, (String.concat "" l).
      repeat split; auto. now exists l.
  - intros (s1 & s2 & -> & H1 & ss & -> & F).
    exists (String c s1 :: ss). split; [now rewrite concat_nil_cons | now constructor].
Qed.

Lemma Lang_Cat_cons (r1 r2 : regex) (c : ascii) (s : string) :
  Lang (Cat r1 r2) (String c s) <->
  (exists s1 s2, s = s1 ++ s2 /\ Lang r1 (String c s1) /\ Lang r2 s2)
  \/ (Lang r1 "" /\ Lang r2 (String c s)).
Proof.
  simpl. split.
  - intros (s1 & s2 & E & H1 & H2). destruct s1 as [|d s1]; simpl in E.
    + right. subst s2. auto.
    + injection E as <- ->. left. now exists s1, s2.
  - intros [(s1 & s2 & -> & H1 & H2) | [H1 H2]].
    + now exists (String c s1), s2.
    + now exists "", (String c s).
Qed.

Lemma deriv_Lang (r : regex) : forall c s, Lang (deriv c r) s <-> Lang r (String c s).
Proof.
  induction r; intros c s.
  - simpl; tauto.
  - simpl. split; [tauto | discriminate].
  - simpl. destruct (p c) eqn:E; simpl.
    + split; [intros ->; now exists c | intros (d & H & _); congruence].
    + split; [tauto | intros (d & H & Hd); congruence].
  - rewrite Lang_Cat_cons. simpl deriv. destruct (nullable r1) eqn:N.
    + simpl. rewrite IHr2. split.
      * intros [(s1 & s2 & -> & H1 & H2) | H].
        -- left. exists s1, s2. now rewrite <- IHr1.
        -- right. split; [now apply nullable_Lang | exact H].
      * intros [(s1 & s2 & -> & H1 & H2) | [_ H]]; [left | now right].
        exists s1, s2. now rewrite IHr1.
    + simpl. split.
      * intros (s1 & s2 & -> & H1 & H2). left. exists s1, s2. now rewrite <- IHr1.
      * intros [(s1 & s2 & -> & H1 & H2) | [H _]].
        -- exists s1, s2. now rewrite IHr1.
        -- apply nullable_Lang in H. congruence.
  - simpl. now rewrite IHr1, IHr2.
  - rewrite Lang_Star_cons. simpl deriv. simpl Lang at 1. split.
    + intros (s1 & s2 & -> & H1 & H2). exists s1, s2. now rewrite <- IHr.
    + intros (s1 & s2 & -> & H1 & H2). exists s1, s2. now rewrite IHr.
Qed.

Lemma test_Lang (s : string) : forall r, test r s = true <-> Lang r s.
Proof.
  induction s as [|c s IH]; intros r; simpl.
  - apply nullable_Lang.
  - now rewrite IH, deriv_Lang.
Qed.

End Matcher.

(** ** Digits, groups and the numbers they spell *)

Section Digits.

Lemma rev_string_app (s : string) : forall a b,
  rev_string (rev_string s a) b = rev_string a (s ++ b).
Proof.
  induction s as [|c s IH]; intros a b; simpl; [reflexivity|].
  now rewrite IH.
Qed.

Lemma rev_string_all_digits (r : Z) (s : string) : forall a,
  all_digits r s = true -> all_digits r a = true -> all_digits r (rev_string s a) = true.
Proof.
  induction s as [|c s IH]; intros a Hs Ha; simpl in *; [assumption|].
  apply andb_true_iff in Hs as [Hc Hs]. apply IH; [assumption|].
  simpl. now rewrite Hc.
Qed.

Lemma digit_val_range (r : Z) (c : ascii) :
  is_digit r c = true -> 0 <= digit_val c < r.
Proof. unfold is_digit. intros H. apply andb_true_iff in H as [H1 H2]. lia. Qed.

Lemma digit_not_ws (c : ascii) : is_digit 10 c = true -> is_ws c = false.
Proof.
  intros H. apply digit_val_range in H. unfold digit_val in H. unfold is_ws.
  repeat rewrite orb_false_iff. repeat split; apply Nat.eqb_neq; lia.
Qed.

Lemma digit_weaken (c : ascii) : is_digit 2 c = true -> is_digit 10 c = true.
Proof.
  intros H. apply digit_val_range in H. unfold is_digit.
  apply andb_true_iff. split; [apply Z.leb_le | apply Z.ltb_lt]; lia.
Qed.

Lemma all_digits_weaken (s : string) : all_digits 2 s = true -> all_digits 10 s = true.
Proof.
  induction s as [|c s IH]; simpl; [auto|]. intros H.
  apply andb_true_iff in H as [Hc Hs]. now rewrite (digit_weaken _ Hc), IH.
Qed.

Lemma digit_char_val (c : ascii) : is_digit 10 c = true -> digit_char (digit_val c) = c.
Proof.
  intros H. apply digit_val_range in H. unfold digit_char, digit_val in *.
  replace (48 + Z.to_nat (Z.of_nat (nat_of_ascii c) - 48))%nat with (nat_of_ascii c) by lia.
  apply ascii_nat_embedding.
Qed.

Lemma digit_strip_sign (c : ascii) (t : string) :
  is_digit 10 c = true -> strip_sign (String c t) = (1, String c t).
Proof.
  intros H. destruct c as [[] [] [] [] [] [] [] []]; try reflexivity; discriminate H.
Qed.

Lemma trim_start_digits (s : string) : all_digits 10 s = true -> trim_start s = s.
Proof.
  destruct s as [|c s]; simpl; [reflexivity|]. intros H.
  apply andb_true_iff in H as [Hc _]. now rewrite (digit_not_ws _ Hc).
Qed.

Lemma trim_digits (s : string) : all_digits 10 s = true -> trim s = s.
Proof.
  intros H. unfold trim. rewrite (trim_start_digits _ H).
  rewrite trim_start_digits by (now apply rev_string_all_digits).
  rewrite rev_string_app. simpl. apply append_nil_r.
Qed.

Lemma digit_prefix_all (r : Z) (s : string) : all_digits r s = true -> digit_prefix r s = s.
Proof.
  induction s as [|c s IH]; simpl; [reflexivity|]. intros H.
  apply andb_true_iff in H as [Hc Hs]. now rewrite Hc, IH.
Qed.

(** [Number] and [parseInt] agree on a non-empty run of decimal digits. *)
Lemma Number_digits (g : string) :
  all_digits 10 g = true -> g <> "" -> Number g = Num (digits_val 10 0 g).
Proof.
  intros H Hne. unfold Number. rewrite (trim_digits _ H).
  destruct g as [|c g]; [congruence|]. pose proof H as H'. simpl in H'.
  apply andb_true_iff in H' as [Hc _]. rewrite (digit_strip_sign _ _ Hc), H.
  now rewrite Z.mul_1_l.
Qed.

Lemma parseInt_digits (r : Z) (g : string) :
  all_digits r g = true -> all_digits 10 g = true -> g <> "" ->
  parseInt g r = Num (digits_val r 0 g).
Proof.
  intros H H10 Hne. unfold parseInt. rewrite (trim_start_digits _ H10).
  destruct g as [|c g]; [congruence|]. pose proof H10 as H'. simpl in H'.
  apply andb_true_iff in H' as [Hc _]. rewrite (digit_strip_sign _ _ Hc).
  rewrite (digit_prefix_all _ _ H). now rewrite Z.mul_1_l.
Qed.

Lemma digit_group_inv (g : string) :
  digit_group g = true ->
  all_digits 10 g = true /\ g <> "" /\ (String.length g <= 3)%nat.
Proof.
  unfold digit_group. intros H.
  apply andb_true_iff in H as [H H3]. apply andb_true_iff in H as [H H1].
  apply Nat.leb_le in H1, H3. repeat split; auto. intros ->. simpl in H1. lia.
Qed.

Lemma Number_group (g : string) : digit_group g = true -> Number g = Num (group_value g).
Proof. intros H. apply digit_group_inv in H as (H & Hne & _). now apply Number_digits. Qed.

Lemma parseInt_group (g : string) :
  digit_group g = true -> parseInt g 10 = Num (group_value g).
Proof. intros H. apply digit_group_inv in H as (H & Hne & _). now apply parseInt_digits. Qed.

Lemma group_value_range (g : string) : digit_group g = true -> 0 <= group_value g <= 999.
Proof.
  intros H. apply digit_group_inv in H as (H & Hne & Hl). unfold group_value.
  destruct g as [|c1 [|c2 [|c3 [|c4 g]]]]; simpl in *; try congruence; try lia;
    repeat match goal with
           | H : (_ && _)%bool = true |- _ => apply andb_true_iff in H as [? H]
           | H : is_digit 10 _ = true |- _ => apply digit_val_range in H
           end; lia.
Qed.

(** Checking a decidable property of every integer below a bound. *)
Lemma forall_below (f : Z -> bool) (n : nat) :
  forallb (fun k => f (Z.of_nat k)) (seq 0 n) = true ->
  forall z, 0 <= z < Z.of_nat n -> f z = true.
Proof.
  intros H z Hz. rewrite forallb_forall in H.
  specialize (H (Z.to_nat z)). rewrite Z2Nat.id in H by lia.
  apply H, in_seq. lia.
Qed.

(** Printing an octet gives a group without a leading zero that reads back
    as the octet. *)
Lemma toString_octet (o : Z) :
  0 <= o <= 255 ->
  digit_group (toString (Num o)) = true
  /\ no_leading_zero (toString (Num o)) = true
  /\ group_value (toString (Num o)) = o.
Proof.
  intros H.
  pose (chk := fun o => digit_group (toString (Num o))
                        && no_leading_zero (toString (Num o))
                        && (group_value (toString (Num o)) =? o)).
  assert (E : chk o = true).
  { apply (forall_below chk 256); [vm_compute; reflexivity | lia]. }
  unfold chk in E. apply andb_true_iff in E as [E E3]. apply andb_true_iff in E as [E1 E2].
  apply Z.eqb_eq in E3. auto.
Qed.

End Digits.

(** ** Splitting and joining at dots *)

Section Dots.

Lemma digit_not_dot (r : Z) (c : ascii) : is_digit r c = true -> Ascii.eqb c "." = false.
Proof.
  intros H. apply Ascii.eqb_neq. intros ->. unfold is_digit in H. simpl in H. discriminate.
Qed.

Lemma split_digits (r : Z) (g : string) : all_digits r g = true -> split "." g = [g].
Proof.
  induction g as [|c g IH]; simpl; [reflexivity|]. intros H.
  apply andb_true_iff in H as [Hc Hg]. now rewrite (digit_not_dot _ _ Hc), IH.
Qed.

Lemma split_digits_dot (r : Z) (g t : string) :
  all_digits r g = true -> split "." (g ++ String "." t) = g :: split "." t.
Proof.
  induction g as [|c g IH]; simpl; [reflexivity|]. intros H.
  apply andb_true_iff in H as [Hc Hg]. now rewrite (digit_not_dot _ _ Hc), IH.
Qed.

Lemma split_dotted (r : Z) (g1 g2 g3 g4 : string) :
  all_digits r g1 = true -> all_digits r g2 = true ->
  all_digits r g3 = true -> all_digits r g4 = true ->
  split "." (dotted g1 g2 g3 g4) = [g1; g2; g3; g4].
Proof.
  intros H1 H2 H3 H4. unfold dotted. simpl.
  rewrite !(split_digits_dot r) by assumption. now rewrite (split_digits r).
Qed.

Lemma join_four (a b c d : string) : join "." [a; b; c; d] = dotted a b c d.
Proof. reflexivity. Qed.

Lemma remove_char_digits (r : Z) (g t : string) :
  all_digits r g = true -> remove_char "." (g ++ t) = g ++ remove_char "." t.
Proof.
  induction g as [|c g IH]; simpl; [reflexivity|]. intros H.
  apply andb_true_iff in H as [Hc Hg]. now rewrite (digit_not_dot _ _ Hc), IH.
Qed.

Lemma remove_char_dotted (r : Z) (g1 g2 g3 g4 : string) :
  all_digits r g1 = true -> all_digits r g2 = true ->
  all_digits r g3 = true -> all_digits r g4 = true ->
  remove_char "." (dotted g1 g2 g3 g4) = g1 ++ g2 ++ g3 ++ g4.
Proof.
  intros H1 H2 H3 H4. unfold dotted.
  rewrite (remove_char_digits r) by assumption. simpl.
  rewrite (remove_char_digits r) by assumption. simpl.
  rewrite (remove_char_digits r) by assumption. simpl.
  rewrite <- (append_nil_r g4) at 1.
  rewrite (remove_char_digits r) by assumption. simpl. now rewrite append_nil_r.
Qed.

End Dots.

(** ** The address pattern *)

Section AddressPattern.

Lemma Lang_Chr (c : ascii) (s : string) : Lang (Chr c) s <-> s = String c "".
Proof.
  simpl. split.
  - intros (d & -> & E). apply Ascii.eqb_eq in E. now subst.
  - intros ->. exists c. split; [reflexivity | apply Ascii.eqb_refl].
Qed.

Lemma Lang_group (g : string) : Lang (Rep 1 3 digit) g <-> digit_group g = true.
Proof.
  split.
  - simpl. intros (s1 & s2 & -> & (s3 & s4 & -> & (c1 & -> & H1) & ->) & H).
    unfold digit_group.
    destruct H as [-> | (s5 & s6 & -> & (c2 & -> & H2) & [-> | H])].
    + simpl. now rewrite H1.
    + simpl. now rewrite H1, H2.
    + destruct H as (s7 & s8 & -> & (c3 & -> & H3) & ->). simpl. now rewrite H1, H2, H3.
  - intros H. apply test_Lang. apply digit_group_inv in H as (H & Hne & Hl).
    destruct g as [|c1 [|c2 [|c3 [|c4 g]]]]; simpl in H, Hl; try congruence; try lia;
      repeat match goal with
             | H : (_ && _)%bool = true |- _ => apply andb_true_iff in H as [? H]
             end;
      repeat match goal with
             | H : is_digit 10 _ = true |- _ => simpl; unfold digit; rewrite H; clear H
             end; reflexivity.
Qed.

Lemma Lang_ipRegex (s : string) :
  Lang ipRegex s <->
  exists g1 g2 g3 g4,
    s = dotted g1 g2 g3 g4
    /\ digit_group g1 = true /\ digit_group g2 = true
    /\ digit_group g3 = true /\ digit_group g4 = true.
Proof.
  unfold ipRegex. split.
  - intros (g1 & t1 & -> & G1 & d1 & t2 & -> & D1 & g2 & t3 & -> & G2
            & d2 & t4 & -> & D2 & g3 & t5 & -> & G3 & d3 & g4 & -> & D3 & G4).
    apply Lang_Chr in D1, D2, D3. subst. apply Lang_group in G1, G2, G3, G4.
    now exists g1, g2, g3, g4.
  - intros (g1 & g2 & g3 & g4 & -> & G1 & G2 & G3 & G4).
    apply Lang_group in G1, G2, G3, G4.
    exists g1, ("." ++ g2 ++ "." ++ g3 ++ "." ++ g4). repeat split; auto.
    exists ".", (g2 ++ "." ++ g3 ++ "." ++ g4). split; [reflexivity|].
    split; [now apply Lang_Chr|].
    exists g2, ("." ++ g3 ++ "." ++ g4). repeat split; auto.
    exists ".", (g3 ++ "." ++ g4). split; [reflexivity|].
    split; [now apply Lang_Chr|].
    exists g3, ("." ++ g4). repeat split; auto.
    exists ".", g4. split; [reflexivity|]. split; [now apply Lang_Chr | assumption].
Qed.

(** The captured groups of a match are the pieces between the dots. *)
Lemma ipRegex_groups (s : string) (m : list string) :
  ip_match s = Some m ->
  exists g1 g2 g3 g4,
    m = [s; g1; g2; g3; g4] /\ s = dotted g1 g2 g3 g4
    /\ digit_group g1 = true /\ digit_group g2 = true
    /\ digit_group g3 = true /\ digit_group g4 = true.
Proof.
  unfold ip_match. destruct (test ipRegex s) eqn:T; [|discriminate].
  intros [= <-]. apply test_Lang, Lang_ipRegex in T.
  destruct T as (g1 & g2 & g3 & g4 & -> & G1 & G2 & G3 & G4).
  exists g1, g2, g3, g4. repeat split; auto. f_equal.
  apply (split_dotted 10); now apply digit_group_inv.
Qed.

Lemma ip_match_dotted (g1 g2 g3 g4 : string) :
  digit_group g1 = true -> digit_group g2 = true ->
  digit_group g3 = true -> digit_group g4 = true ->
  ip_match (dotted g1 g2 g3 g4) = Some [dotted g1 g2 g3 g4; g1; g2; g3; g4].
Proof.
  intros G1 G2 G3 G4. unfold ip_match.
  assert (T : test ipRegex (dotted g1 g2 g3 g4) = true).
  { apply test_Lang, Lang_ipRegex. now exists g1, g2, g3, g4. }
  rewrite T. do 2 f_equal. apply (split_dotted 10); now apply digit_group_inv.
Qed.

Lemma octet_test (g : string) :
  digit_group g = true ->
  geb (Number g) (Num 0) && leb (Number g) (Num 255) = (group_value g <=? 255).
Proof.
  intros G. rewrite (Number_group _ G). unfold geb, leb. simpl.
  pose proof (group_value_range _ G) as R.
  replace (group_value g >=? 0) with true; [reflexivity|].
  symmetry. rewrite Z.geb_le. lia.
Qed.

Lemma validateIP_dotted (g1 g2 g3 g4 : string) :
  digit_group g1 = true -> digit_group g2 = true ->
  digit_group g3 = true -> digit_group g4 = true ->
  validateIP (dotted g1 g2 g3 g4)
  = (group_value g1 <=? 255) && (group_value g2 <=? 255)
    && (group_value g3 <=? 255) && (group_value g4 <=? 255).
Proof.
  intros G1 G2 G3 G4. unfold validateIP. rewrite ip_match_dotted by assumption.
  cbn [slice skipn firstn Nat.sub map every forallb].
  rewrite !octet_test by assumption. rewrite andb_true_r, !andb_assoc. reflexivity.
Qed.

Lemma validateIP_dotted_ok (g1 g2 g3 g4 : string) :
  octet_ok g1 -> octet_ok g2 -> octet_ok g3 -> octet_ok g4 ->
  validateIP (dotted g1 g2 g3 g4) = true.
Proof.
  intros [G1 V1] [G2 V2] [G3 V3] [G4 V4]. rewrite validateIP_dotted by assumption.
  rewrite !andb_true_iff, !Z.leb_le. lia.
Qed.

(** What a valid address string looks like. *)
Lemma validateIP_inv (s : string) :
  validateIP s = true ->
  exists g1 g2 g3 g4,
    s = dotted g1 g2 g3 g4
    /\ octet_ok g1 /\ octet_ok g2 /\ octet_ok g3 /\ octet_ok g4.
Proof.
  intros V. assert (M : exists m, ip_match s = Some m).
  { unfold validateIP in V. destruct (ip_match s) as [m|]; [now exists m | discriminate]. }
  destruct M as (m & M). apply ipRegex_groups in M.
  destruct M as (g1 & g2 & g3 & g4 & _ & -> & G1 & G2 & G3 & G4).
  rewrite validateIP_dotted in V by assumption.
  rewrite !andb_true_iff, !Z.leb_le in V.
  pose proof (group_value_range _ G1). pose proof (group_value_range _ G2).
  pose proof (group_value_range _ G3). pose proof (group_value_range _ G4).
  exists g1, g2, g3, g4. unfold octet_ok. repeat split; auto; lia.
Qed.

End AddressPattern.

(** C6: [validateIP] accepts exactly the strings made of four groups of one
    to three decimal digits, joined by dots, each of value 0 to 255; on any
    other string it returns [false]. *)
Theorem validateIP_spec (s : string) :
  validateIP s = true <->
  exists g1 g2 g3 g4,
    s = dotted g1 g2 g3 g4
    /\ octet_ok g1 /\ octet_ok g2 /\ octet_ok g3 /\ octet_ok g4.
Proof.
  split; [apply validateIP_inv|].
  intros (g1 & g2 & g3 & g4 & -> & O1 & O2 & O3 & O4). now apply validateIP_dotted_ok.
Qed.

(** Rejected shapes: too few or too many groups, a trailing dot, the empty
    string, an octet above 255, white space around the address, a sign. *)
Example validateIP_rejects :
  validateIP "192.168.1" = false /\ validateIP "192.168.1.1.1" = false
  /\ validateIP "192.168.1." = false /\ validateIP "" = false
  /\ validateIP "256.168.1.1" = false /\ validateIP " 192.168.1.1" = false
  /\ validateIP "192.168.1.1 " = false /\ validateIP "1.2.3.-4" = false
  /\ validateIP "1.2.3.4a" = false /\ validateIP "1111.2.3.4" = false.
Proof. vm_compute. repeat split. Qed.

(** ** Binary expansion *)

Section Binary.

Lemma length_bits_string (l : list bool) : String.length (bits_string l) = List.length l.
Proof. induction l; simpl; congruence. Qed.

Lemma bits_string_app (a b : list bool) :
  bits_string (a ++ b) = bits_string a ++ bits_string b.
Proof. induction a; simpl; congruence. Qed.

Lemma bits_string_inj (a : list bool) : forall b, bits_string a = bits_string b -> a = b.
Proof.
  induction a as [|x a IH]; intros [|y b] E; simpl in E; try discriminate; [reflexivity|].
  injection E as Ec E. f_equal; [|now apply IH].
  destruct x, y; simpl in Ec; congruence.
Qed.

Lemma bits_string_repeat (b : bool) (n : nat) :
  bits_string (repeat b n) = repeat_char (bit_char b) n.
Proof. induction n; simpl; congruence. Qed.

Lemma all_digits_bits_string (l : list bool) : all_digits 2 (bits_string l) = true.
Proof. induction l as [|[] l IH]; simpl; auto. Qed.

(** [o.toString(2).padStart(8, '0')] writes the eight bits of an octet. *)
Lemma padStart_octet (o : Z) :
  0 <= o <= 255 ->
  padStart 8 "0" (toString_radix 2 (Num o)) = bits_string (octet_bits o).
Proof.
  intros H.
  pose (chk := fun o => String.eqb (padStart 8 "0" (toString_radix 2 (Num o)))
                                   (bits_string (octet_bits o))).
  assert (E : chk o = true).
  { apply (forall_below chk 256); [vm_compute; reflexivity | lia]. }
  now apply String.eqb_eq in E.
Qed.

(** Reading the eight bits of an octet in base 2 gives the octet back. *)
Lemma bits_value_octet (o : Z) :
  0 <= o <= 255 -> bits_value (bits_string (octet_bits o)) = o.
Proof.
  intros H.
  pose (chk := fun o => bits_value (bits_string (octet_bits o)) =? o).
  assert (E : chk o = true).
  { apply (forall_below chk 256); [vm_compute; reflexivity | lia]. }
  now apply Z.eqb_eq in E.
Qed.

Lemma bit_group_octet (o : Z) : bit_group (bits_string (octet_bits o)) = true.
Proof.
  unfold bit_group. rewrite all_digits_bits_string, length_bits_string. reflexivity.
Qed.

Lemma ipToBinary_dotted (g1 g2 g3 g4 : string) :
  octet_ok g1 -> octet_ok g2 -> octet_ok g3 -> octet_ok g4 ->
  ipToBinary (dotted g1 g2 g3 g4)
  = Ok (dotted (bits_string (octet_bits (group_value g1)))
               (bits_string (octet_bits (group_value g2)))
               (bits_string (octet_bits (group_value g3)))
               (bits_string (octet_bits (group_value g4)))).
Proof.
  intros O1 O2 O3 O4. unfold ipToBinary.
  rewrite validateIP_dotted_ok by assumption.
  destruct O1 as [G1 V1], O2 as [G2 V2], O3 as [G3 V3], O4 as [G4 V4].
  rewrite (split_dotted 10) by (now apply digit_group_inv).
  cbn [negb map]. rewrite !parseInt_group, !padStart_octet by assumption.
  now rewrite join_four.
Qed.

Lemma ipToBinary_valid (s : string) :
  validateIP s = true -> exists b, ipToBinary s = Ok b.
Proof. intros V. unfold ipToBinary. rewrite V. simpl. eauto. Qed.

Lemma ip_octets_dotted (g1 g2 g3 g4 : string) :
  octet_ok g1 -> octet_ok g2 -> octet_ok g3 -> octet_ok g4 ->
  ip_octets (dotted g1 g2 g3 g4)
  = [group_value g1; group_value g2; group_value g3; group_value g4].
Proof.
  intros [G1 _] [G2 _] [G3 _] [G4 _]. unfold ip_octets.
  now rewrite (split_dotted 10) by (now apply digit_group_inv).
Qed.

(** The binary string of a valid address, dots removed, spells its 32 bits. *)
Lemma binary_of_valid (s : string) :
  validateIP s = true ->
  exists b, ipToBinary s = Ok b
            /\ remove_char "." b = bits_string (ip_bits s)
            /\ List.length (ip_bits s) = 32%nat.
Proof.
  intros V. apply validateIP_inv in V.
  destruct V as (g1 & g2 & g3 & g4 & -> & O1 & O2 & O3 & O4).
  eexists. split; [now apply ipToBinary_dotted|].
  unfold ip_bits. rewrite ip_octets_dotted by assumption.
  rewrite (remove_char_dotted 2) by apply all_digits_bits_string.
  cbn [flat_map]. rewrite app_nil_r, !bits_string_app. split; [reflexivity|].
  rewrite !length_app. reflexivity.
Qed.

End Binary.

(** ** The mask patterns *)

Section MaskPattern.

Lemma Lang_Star_nil (r : regex) : Lang (Star r) "".
Proof. exists []. auto. Qed.

Lemma Lang_Star_Class_cons (p : ascii -> bool) (c : ascii) (s : string) :
  Lang (Star (Class p)) (String c s) <-> p c = true /\ Lang (Star (Class p)) s.
Proof.
  rewrite Lang_Star_cons. split.
  - intros (s1 & s2 & -> & (d & E & Hd) & H). injection E as <- ->. auto.
  - intros [Hc H]. exists "", s. repeat split; auto. now exists c.
Qed.

Lemma Lang_Star_bit (s : string) : Lang (Star bit) s <-> all_digits 2 s = true.
Proof.
  induction s as [|c s IH].
  - split; [reflexivity | intros _; apply Lang_Star_nil].
  - unfold bit in *. rewrite Lang_Star_Class_cons, IH. simpl.
    now rewrite andb_true_iff.
Qed.

Lemma Lang_Star_Chr (c : ascii) (s : string) :
  Lang (Star (Chr c)) s <-> exists n, s = repeat_char c n.
Proof.
  induction s as [|d s IH].
  - split; [now exists O | intros _; apply Lang_Star_nil].
  - unfold Chr in *. rewrite Lang_Star_Class_cons, IH, Ascii.eqb_eq. split.
    + intros [-> (n & ->)]. now exists (S n).
    + intros ([|n] & E); [discriminate|]. injection E as -> ->. split; eauto.
Qed.

Lemma Lang_leadingOnes (s : string) :
  Lang leadingOnesRegex s <->
  exists n m, s = repeat_char "1" n ++ repeat_char "0" m.
Proof.
  unfold leadingOnesRegex. split.
  - intros (s1 & s2 & -> & H1 & H2).
    apply Lang_Star_Chr in H1 as (n & ->). apply Lang_Star_Chr in H2 as (m & ->).
    now exists n, m.
  - intros (n & m & ->). exists (repeat_char "1" n), (repeat_char "0" m).
    split; [reflexivity|]. split; apply Lang_Star_Chr; eauto.
Qed.

Lemma test_onlyBinary (l : list bool) :
  l <> [] -> test onlyBinaryRegex (bits_string l) = true.
Proof.
  intros H. apply test_Lang. destruct l as [|b l]; [congruence|].
  exists (String (bit_char b) ""), (bits_string l). split; [reflexivity|]. split.
  - exists (bit_char b). split; [reflexivity | now destruct b].
  - apply Lang_Star_bit, all_digits_bits_string.
Qed.

Lemma test_leadingOnes (l : list bool) :
  List.length l = 32%nat ->
  test leadingOnesRegex (bits_string l) = true <->
  exists L, (L <= 32)%nat /\ l = prefix_bits L.
Proof.
  intros Hl. rewrite test_Lang, Lang_leadingOnes. split.
  - intros (n & m & E).
    change "1"%char with (bit_char true) in E. change "0"%char with (bit_char false) in E.
    rewrite <- !bits_string_repeat, <- bits_string_app in E.
    apply bits_string_inj in E. subst l.
    rewrite length_app, !repeat_length in Hl.
    exists n. split; [lia|]. unfold prefix_bits. f_equal. f_equal. lia.
  - intros (L & _ & ->). exists L, (32 - L)%nat. unfold prefix_bits.
    now rewrite bits_string_app, !bits_string_repeat.
Qed.

Lemma valid_not_slash (s : string) : validateIP s = true -> startsWith "/" s = false.
Proof.
  intros V. apply validateIP_inv in V.
  destruct V as (g1 & g2 & g3 & g4 & -> & [G1 _] & _).
  apply digit_group_inv in G1 as (D & Hne & _).
  destruct g1 as [|c g1]; [congruence|]. simpl in D.
  apply andb_true_iff in D as [Dc _]. unfold startsWith, dotted.
  cbn [append String.prefix].
  destruct (ascii_dec "/" c) as [<-|]; [discriminate Dc | reflexivity].
Qed.

(** The dotted form: the mask is valid when its bits are a run of ones
    followed by zeros. *)
Lemma validateSubnetMask_dotted (s : string) :
  validateIP s = true ->
  validateSubnetMask s = true <-> exists L, (L <= 32)%nat /\ ip_bits s = prefix_bits L.
Proof.
  intros V. unfold validateSubnetMask. rewrite (valid_not_slash _ V), V.
  destruct (binary_of_valid _ V) as (b & -> & -> & Hl).
  rewrite length_bits_string, Hl, test_onlyBinary by (intros E; rewrite E in Hl; discriminate).
  cbn [andb Nat.eqb]. rewrite andb_true_r. now apply test_leadingOnes.
Qed.

(** The CIDR form: what follows the slash is read by [parseInt]. *)
Lemma validateSubnetMask_cidr (s : string) :
  startsWith "/" s = true ->
  validateSubnetMask s = true <->
  exists n, parseInt (substring_from 1 s) 10 = Num n /\ 0 <= n <= 32.
Proof.
  intros P. unfold validateSubnetMask. rewrite P.
  destruct (parseInt (substring_from 1 s) 10) as [|n]; simpl.
  - split; [discriminate | intros (n & E & _); discriminate].
  - rewrite andb_true_iff, Z.geb_le, Z.leb_le. split.
    + intros H. exists n. split; [reflexivity | lia].
    + intros (m & [= <-] & H). lia.
Qed.

End MaskPattern.

(** The two forms together, the CIDR form still in terms of what [parseInt]
    returns ([parseInt_reads] below says which texts those are). *)
Lemma validateSubnetMask_by_parseInt :
  (forall s : string,
     validateSubnetMask s = true <->
     (startsWith "/" s = true
      /\ exists n, parseInt (substring_from 1 s) 10 = Num n /\ 0 <= n <= 32)
     \/ (validateIP s = true
         /\ exists L, (L <= 32)%nat /\ ip_bits s = prefix_bits L))
  /\ validateSubnetMask "255.255.254.0" = true
  /\ validateSubnetMask "255.255.255.1" = false.
Proof.
  split; [|split; reflexivity].
  intros s. destruct (startsWith "/" s) eqn:P.
  - rewrite (validateSubnetMask_cidr _ P). split; [auto|].
    intros [[_ H] | [V _]]; [assumption|].
    apply valid_not_slash in V. congruence.
  - split.
    + intros H. right. destruct (validateIP s) eqn:V.
      * split; [reflexivity|]. now apply validateSubnetMask_dotted.
      * unfold validateSubnetMask in H. rewrite P, V in H. discriminate.
    + intros [[H _] | [V H]]; [discriminate|]. now apply validateSubnetMask_dotted.
Qed.

(** How [parseInt] reads the text after the slash: leading white space, a
    sign and trailing text are accepted. *)
Example validateSubnetMask_cidr_cases :
  validateSubnetMask "/24" = true /\ validateSubnetMask "/0" = true
  /\ validateSubnetMask "/32" = true /\ validateSubnetMask "/33" = false
  /\ validateSubnetMask "/-1" = false /\ validateSubnetMask "/abc" = false
  /\ validateSubnetMask "/" = false /\ validateSubnetMask "/24abc" = true
  /\ validateSubnetMask "/ 24" = true /\ validateSubnetMask "/+24" = true.
Proof. vm_compute. repeat split. Qed.

(** ** CIDR to mask and back *)

Section Cidr.

Lemma cidrToMask_in_range (n : Z) :
  0 <= n <= 32 ->
  exists m, cidrToMask (Num n) = Ok m
            /\ validateIP m = true
            /\ validateSubnetMask m = true
            /\ ip_bits m = prefix_bits (Z.to_nat n)
            /\ maskToCidr m = Ok n.
Proof.
  intros H.
  pose (chk := fun n =>
    match cidrToMask (Num n) with
    | Ok m =>
        validateIP m && validateSubnetMask m
        && String.eqb (bits_string (ip_bits m)) (bits_string (prefix_bits (Z.to_nat n)))
        && match maskToCidr m with Ok c => c =? n | Err _ => false end
    | Err _ => false
    end).
  assert (E : chk n = true).
  { apply (forall_below chk 33); [vm_compute; reflexivity | lia]. }
  unfold chk in E. destruct (cidrToMask (Num n)) as [m|]; [|discriminate].
  exists m. split; [reflexivity|].
  apply andb_true_iff in E as [E E4]. apply andb_true_iff in E as [E E3].
  apply andb_true_iff in E as [E1 E2].
  apply String.eqb_eq, bits_string_inj in E3.
  destruct (maskToCidr m) as [c|]; [|discriminate]. apply Z.eqb_eq in E4. subst c. auto.
Qed.

Lemma cidrToMask_out_of_range (n : Z) :
  n < 0 \/ 32 < n -> cidrToMask (Num n) = Err OutOfRange.
Proof.
  intros H. unfold cidrToMask, ltb, gtb. simpl.
  destruct (n <? 0) eqn:L; [reflexivity|]. destruct (n >? 32) eqn:G; [reflexivity|].
  apply Z.ltb_ge in L. rewrite Z.gtb_ltb in G. apply Z.ltb_ge in G. lia.
Qed.

End Cidr.

(** C7: for an integer [n] from 0 to 32, [cidrToMask] returns the dotted mask
    whose first [n] bits are set, and [maskToCidr] gives [n] back; outside
    that range, and on [NaN], [cidrToMask] fails with OutOfRange. *)
Theorem cidrToMask_spec :
  (forall n : Z, 0 <= n <= 32 ->
     exists m, cidrToMask (Num n) = Ok m
               /\ validateIP m = true
               /\ ip_bits m = prefix_bits (Z.to_nat n)
               /\ maskToCidr m = Ok n)
  /\ (forall n : Z, n < 0 \/ 32 < n -> cidrToMask (Num n) = Err OutOfRange)
  /\ cidrToMask NaN = Err OutOfRange.
Proof.
  split; [|split; [exact cidrToMask_out_of_range | reflexivity]].
  intros n H. destruct (cidrToMask_in_range n H) as (m & E & V & _ & B & C).
  now exists m.
Qed.

Lemma cidrToMask_spec_witness :
  (exists m, cidrToMask (Num 23) = Ok m
             /\ validateIP m = true
             /\ ip_bits m = prefix_bits (Z.to_nat 23)
             /\ maskToCidr m = Ok 23)
  /\ cidrToMask (Num 33) = Err OutOfRange.
Proof.
  split.
  - apply (proj1 cidrToMask_spec 23). lia.
  - apply (proj1 (proj2 cidrToMask_spec) 33). lia.
Defined.

(** ** Groups without leading zeros *)

Section Canonical.

Lemma forall_below3 (f : Z -> Z -> Z -> bool) (n : nat) :
  forallb (fun a => forallb (fun b => forallb (fun c =>
    f (Z.of_nat a) (Z.of_nat b) (Z.of_nat c)) (seq 0 n)) (seq 0 n)) (seq 0 n) = true ->
  forall a b c, 0 <= a < Z.of_nat n -> 0 <= b < Z.of_nat n -> 0 <= c < Z.of_nat n ->
                f a b c = true.
Proof.
  intros H a b c Ha Hb Hc.
  pose proof (forall_below
    (fun a => forallb (fun b => forallb (fun c =>
       f a (Z.of_nat b) (Z.of_nat c)) (seq 0 n)) (seq 0 n)) n H a Ha) as H1.
  pose proof (forall_below
    (fun b => forallb (fun c => f a b (Z.of_nat c)) (seq 0 n)) n H1 b Hb) as H2.
  exact (forall_below (fun c => f a b c) n H2 c Hc).
Qed.

Lemma prints_back_digits (a b c : Z) :
  0 <= a < 10 -> 0 <= b < 10 -> 0 <= c < 10 ->
  prints_back (String (digit_char c) "") = true
  /\ prints_back (String (digit_char b) (String (digit_char c) "")) = true
  /\ prints_back (String (digit_char a) (String (digit_char b) (String (digit_char c) ""))) = true.
Proof.
  intros Ha Hb Hc.
  pose (chk := fun a b c =>
    prints_back (String (digit_char c) "")
    && prints_back (String (digit_char b) (String (digit_char c) ""))
    && prints_back (String (digit_char a) (String (digit_char b) (String (digit_char c) "")))).
  assert (E : chk a b c = true).
  { apply (forall_below3 chk 10); [vm_compute; reflexivity | lia | lia | lia]. }
  unfold chk in E. apply andb_true_iff in E as [E E3]. apply andb_true_iff in E as [E1 E2].
  auto.
Qed.

Lemma digit_cases (c : ascii) :
  is_digit 10 c = true -> exists d, 0 <= d < 10 /\ c = digit_char d.
Proof.
  intros H. exists (digit_val c). split; [now apply digit_val_range|].
  symmetry. now apply digit_char_val.
Qed.

(** A group without a leading zero is what [toString] prints for its value. *)
Lemma canonical_group (g : string) :
  digit_group g = true -> no_leading_zero g = true ->
  toString (Num (group_value g)) = g.
Proof.
  intros G N. apply digit_group_inv in G as (D & Hne & Hl).
  assert (P : prints_back g = true).
  { destruct g as [|c1 [|c2 [|c3 [|c4 g]]]]; simpl in D, Hl; try congruence; try lia.
    - apply andb_true_iff in D as [D1 _].
      apply digit_cases in D1 as (d1 & R1 & ->).
      apply (prints_back_digits 0 0 d1); lia.
    - apply andb_true_iff in D as [D1 D]. apply andb_true_iff in D as [D2 _].
      apply digit_cases in D1 as (d1 & R1 & ->). apply digit_cases in D2 as (d2 & R2 & ->).
      apply (prints_back_digits 0 d1 d2); lia.
    - apply andb_true_iff in D as [D1 D]. apply andb_true_iff in D as [D2 D].
      apply andb_true_iff in D as [D3 _].
      apply digit_cases in D1 as (d1 & R1 & ->). apply digit_cases in D2 as (d2 & R2 & ->).
      apply digit_cases in D3 as (d3 & R3 & ->).
      apply (prints_back_digits d1 d2 d3); lia. }
  unfold prints_back in P. rewrite N in P. simpl in P. now apply String.eqb_eq.
Qed.

Lemma leading_zero_small (g : string) :
  digit_group g = true -> no_leading_zero g = false -> group_value g <= 99.
Proof.
  intros G N. apply digit_group_inv in G as (D & Hne & Hl). unfold group_value.
  destruct g as [|c1 [|c2 [|c3 [|c4 g]]]]; simpl in D, Hl; try congruence; try lia;
    try discriminate N;
    repeat match goal with
           | H : (_ && _)%bool = true |- _ => apply andb_true_iff in H as [? H]
           end;
    assert (c1 = "0"%char)
      by (destruct c1 as [[] [] [] [] [] [] [] []]; try discriminate N; reflexivity);
    subst c1; simpl;
    repeat match goal with
           | H : is_digit 10 _ = true |- _ => apply digit_val_range in H
           end; lia.
Qed.

Lemma group_value_255 (g : string) :
  digit_group g = true -> group_value g = 255 -> g = "255".
Proof.
  intros G V. destruct (no_leading_zero g) eqn:N.
  - rewrite <- (canonical_group g G N), V. reflexivity.
  - pose proof (leading_zero_small g G N). lia.
Qed.

Lemma octets_string_dotted (w x y z : Z) :
  octets_string w x y z
  = dotted (toString (Num w)) (toString (Num x)) (toString (Num y)) (toString (Num z)).
Proof. reflexivity. Qed.

Lemma octet_ok_toString (o : Z) : 0 <= o <= 255 -> octet_ok (toString (Num o)).
Proof.
  intros H. destruct (toString_octet o H) as (G & _ & V). split; [assumption | lia].
Qed.

Lemma octets_string_valid (w x y z : Z) :
  0 <= w <= 255 -> 0 <= x <= 255 -> 0 <= y <= 255 -> 0 <= z <= 255 ->
  validateIP (octets_string w x y z) = true.
Proof.
  intros. rewrite octets_string_dotted.
  apply validateIP_dotted_ok; now apply octet_ok_toString.
Qed.

Lemma octets_string_octets (w x y z : Z) :
  0 <= w <= 255 -> 0 <= x <= 255 -> 0 <= y <= 255 -> 0 <= z <= 255 ->
  ip_octets (octets_string w x y z) = [w; x; y; z].
Proof.
  intros Hw Hx Hy Hz. rewrite octets_string_dotted.
  rewrite ip_octets_dotted by now apply octet_ok_toString.
  destruct (toString_octet w Hw) as (_ & _ & ->). destruct (toString_octet x Hx) as (_ & _ & ->).
  destruct (toString_octet y Hy) as (_ & _ & ->). destruct (toString_octet z Hz) as (_ & _ & ->).
  reflexivity.
Qed.

Lemma octets_string_value (w x y z : Z) :
  0 <= w <= 255 -> 0 <= x <= 255 -> 0 <= y <= 255 -> 0 <= z <= 255 ->
  ip_value (octets_string w x y z) = ((w * 256 + x) * 256 + y) * 256 + z.
Proof.
  intros. unfold ip_value. rewrite octets_string_octets by assumption. simpl. lia.
Qed.

Lemma octets_string_canonical (w x y z : Z) :
  0 <= w <= 255 -> 0 <= x <= 255 -> 0 <= y <= 255 -> 0 <= z <= 255 ->
  canonical_ip (octets_string w x y z) = true.
Proof.
  intros Hw Hx Hy Hz. unfold canonical_ip. rewrite octets_string_valid by assumption.
  rewrite octets_string_dotted.
  destruct (toString_octet w Hw) as (Gw & Nw & _). destruct (toString_octet x Hx) as (Gx & Nx & _).
  destruct (toString_octet y Hy) as (Gy & Ny & _). destruct (toString_octet z Hz) as (Gz & Nz & _).
  rewrite (split_dotted 10) by now apply digit_group_inv.
  cbn [forallb andb]. now rewrite Nw, Nx, Ny, Nz.
Qed.

Lemma ip_value_dotted (g1 g2 g3 g4 : string) :
  octet_ok g1 -> octet_ok g2 -> octet_ok g3 -> octet_ok g4 ->
  ip_value (dotted g1 g2 g3 g4)
  = ((group_value g1 * 256 + group_value g2) * 256 + group_value g3) * 256 + group_value g4.
Proof.
  intros. unfold ip_value. rewrite ip_octets_dotted by assumption. simpl. lia.
Qed.

Lemma map_Number_dotted (g1 g2 g3 g4 : string) :
  octet_ok g1 -> octet_ok g2 -> octet_ok g3 -> octet_ok g4 ->
  map Number (split "." (dotted g1 g2 g3 g4))
  = [Num (group_value g1); Num (group_value g2); Num (group_value g3); Num (group_value g4)].
Proof.
  intros [G1 _] [G2 _] [G3 _] [G4 _].
  rewrite (split_dotted 10) by now apply digit_group_inv.
  cbn [map]. now rewrite !Number_group.
Qed.

(** The canonical form of a valid address. *)
Lemma canonical_form_dotted (g1 g2 g3 g4 : string) :
  octet_ok g1 -> octet_ok g2 -> octet_ok g3 -> octet_ok g4 ->
  canonical_form (dotted g1 g2 g3 g4)
  = octets_string (group_value g1) (group_value g2) (group_value g3) (group_value g4).
Proof.
  intros [G1 _] [G2 _] [G3 _] [G4 _]. unfold canonical_form.
  now rewrite (split_dotted 10) by now apply digit_group_inv.
Qed.

Lemma canonical_form_fixed (s : string) : canonical_ip s = true -> canonical_form s = s.
Proof.
  unfold canonical_ip. intros H. apply andb_true_iff in H as [V N].
  apply validateIP_inv in V. destruct V as (g1 & g2 & g3 & g4 & -> & O1 & O2 & O3 & O4).
  rewrite canonical_form_dotted, octets_string_dotted by assumption.
  destruct O1 as [G1 _], O2 as [G2 _], O3 as [G3 _], O4 as [G4 _].
  rewrite (split_dotted 10) in N by now apply digit_group_inv.
  cbn [forallb] in N. rewrite andb_true_r in N.
  apply andb_true_iff in N as [N1 N]. apply andb_true_iff in N as [N2 N].
  apply andb_true_iff in N as [N3 N4].
  now rewrite !canonical_group.
Qed.

End Canonical.

(** ** The binary pattern *)

Section BinaryPattern.

Ltac split_digits H :=
  repeat match type of H with
         | (_ && _)%bool = true =>
             let Hc := fresh "Hc" in apply andb_true_iff in H as [Hc H]
         end.

Lemma Lang_bit_group (g : string) : Lang (Times 8 bit) g <-> bit_group g = true.
Proof.
  split.
  - simpl.
    intros (s1 & t1 & -> & (c1 & -> & H1) & s2 & t2 & -> & (c2 & -> & H2)
            & s3 & t3 & -> & (c3 & -> & H3) & s4 & t4 & -> & (c4 & -> & H4)
            & s5 & t5 & -> & (c5 & -> & H5) & s6 & t6 & -> & (c6 & -> & H6)
            & s7 & t7 & -> & (c7 & -> & H7) & s8 & t8 & -> & (c8 & -> & H8) & ->).
    unfold bit_group. simpl. now rewrite H1, H2, H3, H4, H5, H6, H7, H8.
  - unfold bit_group. intros H. apply andb_true_iff in H as [D L].
    apply Nat.eqb_eq in L.
    destruct g as [|c1 [|c2 [|c3 [|c4 [|c5 [|c6 [|c7 [|c8 [|c9 g]]]]]]]]];
      try discriminate L.
    simpl in D. split_digits D.
    apply test_Lang. simpl. unfold bit.
    repeat match goal with
           | H : is_digit 2 _ = true |- _ => rewrite H; clear H; simpl
           end.
    reflexivity.
Qed.

Lemma Lang_octet_dot (s : string) :
  Lang (Cat (Times 8 bit) (Opt (Chr "."))) s <->
  exists g d, s = g ++ d /\ bit_group g = true /\ dot_or_none d.
Proof.
  split.
  - intros (g & d & -> & G & D). apply Lang_bit_group in G.
    exists g, d. repeat split; auto.
    destruct D as [D | D]; [left; exact D | right; now apply Lang_Chr].
  - intros (g & d & -> & G & D). exists g, d. split; [reflexivity|].
    split; [now apply Lang_bit_group|].
    destruct D as [-> | ->]; [left; reflexivity | right; now apply Lang_Chr].
Qed.

(** The strings the pattern of [binaryToIp] accepts: four groups of eight
    binary digits, each followed by a dot or by nothing. *)
Lemma Lang_binaryRegex (s : string) :
  Lang binaryRegex s <->
  exists g1 d1 g2 d2 g3 d3 g4 d4,
    s = (g1 ++ d1) ++ (g2 ++ d2) ++ (g3 ++ d3) ++ (g4 ++ d4)
    /\ (bit_group g1 = true /\ dot_or_none d1) /\ (bit_group g2 = true /\ dot_or_none d2)
    /\ (bit_group g3 = true /\ dot_or_none d3) /\ (bit_group g4 = true /\ dot_or_none d4).
Proof.
  unfold binaryRegex.
  change (Times 4 ?r) with (Cat r (Cat r (Cat r (Cat r Eps)))). split.
  - intros (s1 & t1 & -> & H1 & s2 & t2 & -> & H2 & s3 & t3 & -> & H3
            & s4 & t4 & -> & H4 & E).
    simpl in E. subst t4.
    apply Lang_octet_dot in H1 as (g1 & d1 & -> & G1 & D1).
    apply Lang_octet_dot in H2 as (g2 & d2 & -> & G2 & D2).
    apply Lang_octet_dot in H3 as (g3 & d3 & -> & G3 & D3).
    apply Lang_octet_dot in H4 as (g4 & d4 & -> & G4 & D4).
    exists g1, d1, g2, d2, g3, d3, g4, d4. rewrite append_nil_r. auto 10.
  - intros (g1 & d1 & g2 & d2 & g3 & d3 & g4 & d4 & -> & [G1 D1] & [G2 D2] & [G3 D3] & [G4 D4]).
    exists (g1 ++ d1), ((g2 ++ d2) ++ (g3 ++ d3) ++ (g4 ++ d4)).
    split; [reflexivity|]. split; [apply Lang_octet_dot; eauto|].
    exists (g2 ++ d2), ((g3 ++ d3) ++ (g4 ++ d4)).
    split; [reflexivity|]. split; [apply Lang_octet_dot; eauto|].
    exists (g3 ++ d3), (g4 ++ d4).
    split; [reflexivity|]. split; [apply Lang_octet_dot; eauto|].
    exists (g4 ++ d4), "". split; [now rewrite append_nil_r|].
    split; [apply Lang_octet_dot; eauto | reflexivity].
Qed.

Lemma test_binaryRegex_dotted (g1 g2 g3 g4 : string) :
  bit_group g1 = true -> bit_group g2 = true ->
  bit_group g3 = true -> bit_group g4 = true ->
  test binaryRegex (dotted g1 g2 g3 g4) = true.
Proof.
  intros G1 G2 G3 G4. apply test_Lang, Lang_binaryRegex.
  exists g1, ".", g2, ".", g3, ".", g4, "". unfold dot_or_none. split; [|auto 10].
  unfold dotted. now rewrite !append_assoc, append_nil_r.
Qed.

Lemma bit_group_inv (g : string) :
  bit_group g = true -> all_digits 2 g = true /\ g <> "".
Proof.
  unfold bit_group. intros H. apply andb_true_iff in H as [D L]. split; [assumption|].
  intros ->. discriminate L.
Qed.

Lemma parseInt_bit_group (g : string) :
  bit_group g = true -> parseInt g 2 = Num (bits_value g).
Proof.
  intros H. apply bit_group_inv in H as [D Hne].
  apply parseInt_digits; auto using all_digits_weaken.
Qed.

(** On four dotted groups of eight binary digits [binaryToIp] succeeds and
    prints the value of each group. *)
Lemma binaryToIp_dotted (g1 g2 g3 g4 : string) :
  bit_group g1 = true -> bit_group g2 = true ->
  bit_group g3 = true -> bit_group g4 = true ->
  binaryToIp (dotted g1 g2 g3 g4)
  = Ok (octets_string (bits_value g1) (bits_value g2) (bits_value g3) (bits_value g4)).
Proof.
  intros G1 G2 G3 G4. unfold binaryToIp.
  rewrite test_binaryRegex_dotted by assumption.
  rewrite (split_dotted 2) by now apply bit_group_inv.
  cbn [negb map try_rethrow]. now rewrite !parseInt_bit_group.
Qed.

Lemma binaryToIp_error (b : string) (e : error) :
  binaryToIp b = Err e -> e = InvalidFormat /\ ~ Lang binaryRegex b.
Proof.
  unfold binaryToIp. destruct (test binaryRegex b) eqn:T; cbn [negb try_rethrow];
    [discriminate|].
  intros [= <-]. split; [reflexivity|]. rewrite <- test_Lang. congruence.
Qed.

Lemma round_trip_canonical_form (s : string) :
  validateIP s = true ->
  (b <- ipToBinary s ;; binaryToIp b) = Ok (canonical_form s).
Proof.
  intros V. apply validateIP_inv in V.
  destruct V as (g1 & g2 & g3 & g4 & -> & O1 & O2 & O3 & O4).
  rewrite ipToBinary_dotted, canonical_form_dotted by assumption. cbn [bind].
  rewrite binaryToIp_dotted by apply bit_group_octet.
  destruct O1 as [_ V1], O2 as [_ V2], O3 as [_ V3], O4 as [_ V4].
  now rewrite !bits_value_octet.
Qed.

End BinaryPattern.

(** C3, as the code has it: for a valid address string, converting to binary
    and back gives the string that spells the same octets without leading
    zeros; that is the string itself when none of its groups has a leading
    zero. *)
Theorem binary_round_trip (s : string) :
  validateIP s = true ->
  (b <- ipToBinary s ;; binaryToIp b) = Ok (canonical_form s)
  /\ (canonical_ip s = true -> (b <- ipToBinary s ;; binaryToIp b) = Ok s).
Proof.
  intros V. split; [now apply round_trip_canonical_form|].
  intros C. rewrite round_trip_canonical_form by assumption.
  now rewrite canonical_form_fixed.
Qed.

Lemma binary_round_trip_witness :
  (b <- ipToBinary "192.168.1.1" ;; binaryToIp b) = Ok (canonical_form "192.168.1.1")
  /\ (canonical_ip "192.168.1.1" = true ->
      (b <- ipToBinary "192.168.1.1" ;; binaryToIp b) = Ok "192.168.1.1").
Proof. apply (binary_round_trip "192.168.1.1"). reflexivity. Defined.

(** C3 as stated fails on a valid string with a leading zero. *)
Lemma binary_round_trip_leading_zero :
  validateIP "192.168.001.001" = true
  /\ (b <- ipToBinary "192.168.001.001" ;; binaryToIp b) = Ok "192.168.1.1"
  /\ ~ (forall s : string,
          validateIP s = true -> (b <- ipToBinary s ;; binaryToIp b) = Ok s).
Proof.
  split; [reflexivity|]. split; [reflexivity|].
  intros H. specialize (H "192.168.001.001" eq_refl). vm_compute in H. discriminate H.
Qed.

(** C4: the pattern of [binaryToIp] lets every dot be left out and accepts a
    dot after the last group; such strings are converted, not rejected. *)
Theorem binaryToIp_accepts_other_shapes :
  binaryToIp "11000000101010000000000100000001" = Ok "3232235777"
  /\ binaryToIp "11000000.10101000.00000001.00000001." = Ok "192.168.1.1.NaN"
  /\ binaryToIp "1100000010101000.00000001.00000001" = Ok "49320.1.1".
Proof. vm_compute. repeat split. Qed.

(** ** One address up, one address down *)

Section Stepping.

Lemma incrementIp_invalid (s : string) :
  validateIP s = false -> incrementIp s = Err InvalidAddress.
Proof. intros V. unfold incrementIp. now rewrite V. Qed.

Lemma decrementIp_invalid (s : string) :
  validateIP s = false -> decrementIp s = Err InvalidAddress.
Proof. intros V. unfold decrementIp. now rewrite V. Qed.

Lemma incrementIp_dotted (g1 g2 g3 g4 : string) :
  octet_ok g1 -> octet_ok g2 -> octet_ok g3 -> octet_ok g4 ->
  incrementIp (dotted g1 g2 g3 g4)
  = if group_value g4 <? 255
    then Ok (octets_string (group_value g1) (group_value g2) (group_value g3)
                           (group_value g4 + 1))
    else if group_value g3 <? 255
    then Ok (octets_string (group_value g1) (group_value g2) (group_value g3 + 1) 0)
    else if group_value g2 <? 255
    then Ok (octets_string (group_value g1) (group_value g2 + 1) 0 0)
    else if group_value g1 <? 255
    then Ok (octets_string (group_value g1 + 1) 0 0 0)
    else Err AddressSpaceExhausted.
Proof.
  intros O1 O2 O3 O4. unfold incrementIp.
  rewrite validateIP_dotted_ok, map_Number_dotted by assumption.
  cbn [negb incrementIp_loop index nth store ltb cmp num_add arith Nat.eqb].
  destruct (group_value g4 <? 255); [reflexivity|].
  destruct (group_value g3 <? 255); [reflexivity|].
  destruct (group_value g2 <? 255); [reflexivity|].
  destruct (group_value g1 <? 255); reflexivity.
Qed.

Lemma decrementIp_dotted (g1 g2 g3 g4 : string) :
  octet_ok g1 -> octet_ok g2 -> octet_ok g3 -> octet_ok g4 ->
  decrementIp (dotted g1 g2 g3 g4)
  = if (group_value g1 =? 0) && ((group_value g2 =? 0)
        && ((group_value g3 =? 0) && ((group_value g4 =? 0) && true)))
    then Err AddressSpaceExhausted
    else if group_value g4 >? 0
    then Ok (octets_string (group_value g1) (group_value g2) (group_value g3)
                           (group_value g4 - 1))
    else if group_value g3 >? 0
    then Ok (octets_string (group_value g1) (group_value g2) (group_value g3 - 1) 255)
    else if group_value g2 >? 0
    then Ok (octets_string (group_value g1) (group_value g2 - 1) 255 255)
    else if group_value g1 >? 0
    then Ok (octets_string (group_value g1 - 1) 255 255 255)
    else Ok (octets_string 255 255 255 255).
Proof.
  intros O1 O2 O3 O4. unfold decrementIp.
  rewrite validateIP_dotted_ok, map_Number_dotted by assumption.
  cbn [negb every forallb strict_eq cmp].
  destruct ((group_value g1 =? 0) && ((group_value g2 =? 0)
            && ((group_value g3 =? 0) && ((group_value g4 =? 0) && true))));
    [reflexivity|].
  cbn [decrementIp_loop index nth store gtb cmp num_sub arith].
  destruct (group_value g4 >? 0); [reflexivity|].
  destruct (group_value g3 >? 0); [reflexivity|].
  destruct (group_value g2 >? 0); [reflexivity|].
  destruct (group_value g1 >? 0); reflexivity.
Qed.

Ltac octet_result :=
  eexists; split; [reflexivity|];
  split; [apply octets_string_canonical; lia | rewrite octets_string_value by lia; lia].

(** On a valid string [incrementIp] either overflows, at the last address,
    or returns the next address, without leading zeros. *)
Lemma incrementIp_valid (s : string) :
  validateIP s = true ->
  (ip_value s = 2 ^ 32 - 1 /\ incrementIp s = Err AddressSpaceExhausted)
  \/ (ip_value s < 2 ^ 32 - 1
      /\ exists r, incrementIp s = Ok r /\ canonical_ip r = true
                   /\ ip_value r = ip_value s + 1).
Proof.
  intros V. apply validateIP_inv in V.
  destruct V as (g1 & g2 & g3 & g4 & -> & O1 & O2 & O3 & O4).
  rewrite incrementIp_dotted, ip_value_dotted by assumption.
  destruct O1 as [_ V1], O2 as [_ V2], O3 as [_ V3], O4 as [_ V4].
  change (2 ^ 32 - 1) with 4294967295.
  destruct (group_value g4 <? 255) eqn:E4;
    [apply Z.ltb_lt in E4; right; split; [lia | octet_result] | apply Z.ltb_ge in E4].
  destruct (group_value g3 <? 255) eqn:E3;
    [apply Z.ltb_lt in E3; right; split; [lia | octet_result] | apply Z.ltb_ge in E3].
  destruct (group_value g2 <? 255) eqn:E2;
    [apply Z.ltb_lt in E2; right; split; [lia | octet_result] | apply Z.ltb_ge in E2].
  destruct (group_value g1 <? 255) eqn:E1;
    [apply Z.ltb_lt in E1; right; split; [lia | octet_result] | apply Z.ltb_ge in E1].
  left. split; [lia | reflexivity].
Qed.

(** On a valid string [decrementIp] either underflows, at the address zero,
    or returns the previous address, without leading zeros. *)
Lemma decrementIp_valid (s : string) :
  validateIP s = true ->
  (ip_value s = 0 /\ decrementIp s = Err AddressSpaceExhausted)
  \/ (0 < ip_value s
      /\ exists r, decrementIp s = Ok r /\ canonical_ip r = true
                   /\ ip_value r = ip_value s - 1).
Proof.
  intros V. apply validateIP_inv in V.
  destruct V as (g1 & g2 & g3 & g4 & -> & O1 & O2 & O3 & O4).
  rewrite decrementIp_dotted, ip_value_dotted by assumption.
  destruct O1 as [_ V1], O2 as [_ V2], O3 as [_ V3], O4 as [_ V4].
  destruct ((group_value g1 =? 0) && ((group_value g2 =? 0)
            && ((group_value g3 =? 0) && ((group_value g4 =? 0) && true)))) eqn:Z0.
  - left. rewrite !andb_true_iff, !Z.eqb_eq in Z0. split; [lia | reflexivity].
  - right. rewrite andb_true_r, !andb_false_iff, !Z.eqb_neq in Z0. split; [lia|].
    destruct (group_value g4 >? 0) eqn:E4; rewrite Z.gtb_ltb in E4;
      [apply Z.ltb_lt in E4; octet_result | apply Z.ltb_ge in E4].
    destruct (group_value g3 >? 0) eqn:E3; rewrite Z.gtb_ltb in E3;
      [apply Z.ltb_lt in E3; octet_result | apply Z.ltb_ge in E3].
    destruct (group_value g2 >? 0) eqn:E2; rewrite Z.gtb_ltb in E2;
      [apply Z.ltb_lt in E2; octet_result | apply Z.ltb_ge in E2].
    destruct (group_value g1 >? 0) eqn:E1; rewrite Z.gtb_ltb in E1;
      [apply Z.ltb_lt in E1; octet_result | apply Z.ltb_ge in E1].
    lia.
Qed.

(** The last address has one spelling. *)
Lemma last_address_string (s : string) :
  validateIP s = true -> ip_value s = 2 ^ 32 - 1 -> s = "255.255.255.255".
Proof.
  intros V E. apply validateIP_inv in V.
  destruct V as (g1 & g2 & g3 & g4 & -> & O1 & O2 & O3 & O4).
  rewrite ip_value_dotted in E by assumption. change (2 ^ 32 - 1) with 4294967295 in E.
  destruct O1 as [G1 V1], O2 as [G2 V2], O3 as [G3 V3], O4 as [G4 V4].
  rewrite (group_value_255 g1), (group_value_255 g2),
          (group_value_255 g3), (group_value_255 g4); auto; lia.
Qed.

Lemma ip_value_range (s : string) : validateIP s = true -> 0 <= ip_value s < 2 ^ 32.
Proof.
  intros V. apply validateIP_inv in V.
  destruct V as (g1 & g2 & g3 & g4 & -> & O1 & O2 & O3 & O4).
  rewrite ip_value_dotted by assumption.
  destruct O1 as [_ V1], O2 as [_ V2], O3 as [_ V3], O4 as [_ V4].
  change (2 ^ 32) with 4294967296. lia.
Qed.

End Stepping.

(** C8, as the code has it: both functions fail with InvalidAddress on a
    string [validateIP] rejects; [incrementIp] fails with
    AddressSpaceExhausted exactly on ["255.255.255.255"]; [decrementIp] fails
    with AddressSpaceExhausted exactly on the valid strings whose four octets
    are zero, whatever their spelling; on every other valid string they
    return the address one above, or one below, written without leading
    zeros. *)
Theorem increment_decrement_spec :
  (forall s, validateIP s = false ->
     incrementIp s = Err InvalidAddress /\ decrementIp s = Err InvalidAddress)
  /\ (forall s, incrementIp s = Err AddressSpaceExhausted <-> s = "255.255.255.255")
  /\ (forall s, decrementIp s = Err AddressSpaceExhausted <->
                validateIP s = true /\ ip_octets s = [0; 0; 0; 0])
  /\ (forall s, validateIP s = true -> s <> "255.255.255.255" ->
        exists r, incrementIp s = Ok r /\ canonical_ip r = true
                  /\ ip_value r = ip_value s + 1)
  /\ (forall s, validateIP s = true -> ip_octets s <> [0; 0; 0; 0] ->
        exists r, decrementIp s = Ok r /\ canonical_ip r = true
                  /\ ip_value r = ip_value s - 1).
Proof.
  assert (Z0 : forall s, validateIP s = true -> ip_value s = 0 <-> ip_octets s = [0; 0; 0; 0]).
  { intros s V. apply validateIP_inv in V.
    destruct V as (g1 & g2 & g3 & g4 & -> & O1 & O2 & O3 & O4).
    rewrite ip_value_dotted, ip_octets_dotted by assumption.
    destruct O1 as [_ V1], O2 as [_ V2], O3 as [_ V3], O4 as [_ V4].
    split; [intros E | intros [= -> -> -> ->]; reflexivity].
    repeat f_equal; lia. }
  repeat split.
  - now apply incrementIp_invalid.
  - now apply decrementIp_invalid.
  - intros E. destruct (validateIP s) eqn:V.
    + destruct (incrementIp_valid s V) as [[Hv _] | [_ (r & Hr & _)]]; [|congruence].
      now apply last_address_string.
    + rewrite (incrementIp_invalid s V) in E. discriminate E.
  - intros ->. reflexivity.
  - destruct (validateIP s) eqn:V; [reflexivity|].
    rewrite (decrementIp_invalid s V) in H. discriminate H.
  - destruct (validateIP s) eqn:V.
    + destruct (decrementIp_valid s V) as [[Hv _] | [_ (r & Hr & _)]]; [|congruence].
      now apply Z0.
    + rewrite (decrementIp_invalid s V) in H. discriminate H.
  - intros [V E]. apply (Z0 s V) in E.
    destruct (decrementIp_valid s V) as [[_ Hd] | [Hp _]]; [assumption | lia].
  - intros s V N.
    destruct (incrementIp_valid s V) as [[Hv _] | [_ H]]; [|assumption].
    contradiction N. now apply last_address_string.
  - intros s V N.
    destruct (decrementIp_valid s V) as [[Hv _] | [_ H]]; [|assumption].
    contradiction N. now apply Z0.
Qed.

Lemma increment_decrement_spec_witness :
  (incrementIp "1.2.3" = Err InvalidAddress /\ decrementIp "1.2.3" = Err InvalidAddress)
  /\ (exists r, incrementIp "1.2.255.255" = Ok r /\ canonical_ip r = true
                /\ ip_value r = ip_value "1.2.255.255" + 1)
  /\ (exists r, decrementIp "1.2.0.0" = Ok r /\ canonical_ip r = true
                /\ ip_value r = ip_value "1.2.0.0" - 1).
Proof.
  destruct increment_decrement_spec as (H1 & _ & _ & H4 & H5).
  split; [apply (H1 "1.2.3"); reflexivity|].
  split; [apply (H4 "1.2.255.255"); [reflexivity | discriminate]|].
  apply (H5 "1.2.0.0"); [reflexivity | vm_compute; discriminate].
Defined.

(** C8 as stated fails: a spelling of the address zero with a leading zero
    underflows too. *)
Lemma decrementIp_zero_spellings :
  decrementIp "00.0.0.0" = Err AddressSpaceExhausted
  /\ ~ (forall s : string, decrementIp s = Err AddressSpaceExhausted <-> s = "0.0.0.0").
Proof.
  split; [reflexivity|]. intros H.
  assert (E : "00.0.0.0" = "0.0.0.0") by (apply H; reflexivity).
  discriminate E.
Qed.

(** ** Octet arithmetic *)

Section Octets.

Lemma ToInt32_octet (v : Z) : 0 <= v <= 255 -> ToInt32 (Num v) = v.
Proof.
  intros H. unfold ToInt32. change (2 ^ 31) with 2147483648.
  change (2 ^ 32) with 4294967296. rewrite Z.mod_small; lia.
Qed.

Lemma octet_small (a : Z) : 0 <= a -> (a / 256 = 0 <-> a <= 255).
Proof.
  intros H. rewrite Z.div_small_iff by lia. lia.
Qed.

Lemma land_octet (a b : Z) : 0 <= a <= 255 -> 0 <= b <= 255 -> 0 <= Z.land a b <= 255.
Proof.
  intros Ha Hb. assert (N : 0 <= Z.land a b) by (apply Z.land_nonneg; lia).
  split; [assumption|]. apply octet_small; [assumption|].
  change 256 with (2 ^ 8). rewrite <- Z.shiftr_div_pow2, Z.shiftr_land by lia.
  rewrite (Z.shiftr_div_pow2 a) by lia. change (2 ^ 8) with 256.
  now rewrite (proj2 (octet_small a (proj1 Ha)) (proj2 Ha)).
Qed.

Lemma lor_octet (a b : Z) : 0 <= a <= 255 -> 0 <= b <= 255 -> 0 <= Z.lor a b <= 255.
Proof.
  intros Ha Hb. assert (N : 0 <= Z.lor a b) by (apply Z.lor_nonneg; lia).
  split; [assumption|]. apply octet_small; [assumption|].
  change 256 with (2 ^ 8). rewrite <- Z.shiftr_div_pow2, Z.shiftr_lor by lia.
  rewrite !Z.shiftr_div_pow2 by lia. change (2 ^ 8) with 256.
  rewrite (proj2 (octet_small a (proj1 Ha)) (proj2 Ha)).
  now rewrite (proj2 (octet_small b (proj1 Hb)) (proj2 Hb)).
Qed.

Lemma try_rethrow_id {A : Type} (body : result A) : try_rethrow body = body.
Proof. now destruct body. Qed.

Lemma bitwiseAnd_dotted (g1 g2 g3 g4 h1 h2 h3 h4 : string) :
  octet_ok g1 -> octet_ok g2 -> octet_ok g3 -> octet_ok g4 ->
  octet_ok h1 -> octet_ok h2 -> octet_ok h3 -> octet_ok h4 ->
  bitwiseAnd (dotted g1 g2 g3 g4) (dotted h1 h2 h3 h4)
  = octets_string (Z.land (group_value g1) (group_value h1))
                  (Z.land (group_value g2) (group_value h2))
                  (Z.land (group_value g3) (group_value h3))
                  (Z.land (group_value g4) (group_value h4)).
Proof.
  intros G1 G2 G3 G4 H1 H2 H3 H4. unfold bitwiseAnd.
  rewrite !map_Number_dotted by assumption.
  cbn [map_indexed index nth bitand].
  destruct G1 as [_ G1], G2 as [_ G2], G3 as [_ G3], G4 as [_ G4].
  destruct H1 as [_ H1], H2 as [_ H2], H3 as [_ H3], H4 as [_ H4].
  unfold bitand. now rewrite !ToInt32_octet by assumption.
Qed.

Lemma map_Number_octets (w x y z : Z) :
  0 <= w <= 255 -> 0 <= x <= 255 -> 0 <= y <= 255 -> 0 <= z <= 255 ->
  map Number (split "." (octets_string w x y z)) = [Num w; Num x; Num y; Num z].
Proof.
  intros Hw Hx Hy Hz. rewrite octets_string_dotted.
  rewrite map_Number_dotted by now apply octet_ok_toString.
  destruct (toString_octet w Hw) as (_ & _ & ->). destruct (toString_octet x Hx) as (_ & _ & ->).
  destruct (toString_octet y Hy) as (_ & _ & ->). destruct (toString_octet z Hz) as (_ & _ & ->).
  reflexivity.
Qed.

Lemma bitwiseOr_octets (a b c d e f g h : Z) :
  0 <= a <= 255 -> 0 <= b <= 255 -> 0 <= c <= 255 -> 0 <= d <= 255 ->
  0 <= e <= 255 -> 0 <= f <= 255 -> 0 <= g <= 255 -> 0 <= h <= 255 ->
  bitwiseOr (octets_string a b c d) (octets_string e f g h)
  = Ok (octets_string (Z.lor a e) (Z.lor b f) (Z.lor c g) (Z.lor d h)).
Proof.
  intros. unfold bitwiseOr. rewrite !octets_string_valid by assumption.
  rewrite !map_Number_octets by assumption.
  cbn [negb orb try_rethrow map_indexed index nth]. unfold bitor.
  now rewrite !ToInt32_octet by assumption.
Qed.

Lemma getWildcardMask_dotted (h1 h2 h3 h4 : string) :
  octet_ok h1 -> octet_ok h2 -> octet_ok h3 -> octet_ok h4 ->
  validateSubnetMask (dotted h1 h2 h3 h4) = true ->
  getWildcardMask (dotted h1 h2 h3 h4)
  = Ok (octets_string (255 - group_value h1) (255 - group_value h2)
                      (255 - group_value h3) (255 - group_value h4)).
Proof.
  intros [H1 _] [H2 _] [H3 _] [H4 _] M. unfold getWildcardMask. rewrite M.
  rewrite (split_dotted 10) by now apply digit_group_inv.
  cbn [negb map try_rethrow]. now rewrite !parseInt_group by assumption.
Qed.

Lemma count_ones_prefix (n m : nat) :
  count_char "1" (bits_string (repeat true n ++ repeat false m)) = Z.of_nat n.
Proof.
  induction n as [|n IH].
  - simpl. induction m as [|m IH]; simpl; [reflexivity | exact IH].
  - cbn [repeat app bits_string count_char bit_char]. rewrite IH.
    rewrite Ascii.eqb_refl. lia.
Qed.

(** A valid dotted mask has a prefix length, and [maskToCidr] returns it. *)
Lemma maskToCidr_valid (mask : string) :
  validateIP mask = true -> validateSubnetMask mask = true ->
  exists L, (L <= 32)%nat /\ ip_bits mask = prefix_bits L
            /\ maskToCidr mask = Ok (Z.of_nat L).
Proof.
  intros V M. destruct (proj1 (validateSubnetMask_dotted mask V) M) as (L & HL & B).
  exists L. repeat split; auto. unfold maskToCidr. rewrite M.
  destruct (binary_of_valid mask V) as (b & Eb & Er & _). rewrite Eb.
  cbn [negb bind try_rethrow]. rewrite Er, B. unfold prefix_bits.
  now rewrite count_ones_prefix.
Qed.

End Octets.

(** ** The calculator *)

Section Calculator.

(** With a valid address and a valid dotted mask every validation passes and
    the derived addresses are octet-wise; what is left to run are the two
    steps from the network and the broadcast address. *)
Lemma calculateSubnet_dotted (g1 g2 g3 g4 h1 h2 h3 h4 : string) (cidr : Z) :
  octet_ok g1 -> octet_ok g2 -> octet_ok g3 -> octet_ok g4 ->
  octet_ok h1 -> octet_ok h2 -> octet_ok h3 -> octet_ok h4 ->
  validateSubnetMask (dotted h1 h2 h3 h4) = true ->
  maskToCidr (dotted h1 h2 h3 h4) = Ok cidr ->
  let network :=
    octets_string (Z.land (group_value g1) (group_value h1))
                  (Z.land (group_value g2) (group_value h2))
                  (Z.land (group_value g3) (group_value h3))
                  (Z.land (group_value g4) (group_value h4)) in
  let wildcard :=
    octets_string (255 - group_value h1) (255 - group_value h2)
                  (255 - group_value h3) (255 - group_value h4) in
  let broadcast :=
    octets_string (Z.lor (Z.land (group_value g1) (group_value h1)) (255 - group_value h1))
                  (Z.lor (Z.land (group_value g2) (group_value h2)) (255 - group_value h2))
                  (Z.lor (Z.land (group_value g3) (group_value h3)) (255 - group_value h3))
                  (Z.lor (Z.land (group_value g4) (group_value h4)) (255 - group_value h4)) in
  calculateSubnet (dotted g1 g2 g3 g4) (dotted h1 h2 h3 h4)
  = (first <- incrementIp network ;;
     last <- decrementIp broadcast ;;
     Ok {| networkAddress := network;
           broadcastAddress := broadcast;
           firstHost := if cidr >=? 31 then network else first;
           lastHost := if cidr >=? 31 then broadcast else last;
           totalHosts := 2 ^ (32 - cidr);
           usableHosts := if cidr >=? 31 then 2 ^ (32 - cidr)
                          else Z.max 0 (2 ^ (32 - cidr) - 2);
           subnetMask := dotted h1 h2 h3 h4;
           wildcardMask := wildcard;
           binaryIP := dotted (bits_string (octet_bits (group_value g1)))
                              (bits_string (octet_bits (group_value g2)))
                              (bits_string (octet_bits (group_value g3)))
                              (bits_string (octet_bits (group_value g4)));
           binaryMask := dotted (bits_string (octet_bits (group_value h1)))
                                (bits_string (octet_bits (group_value h2)))
                                (bits_string (octet_bits (group_value h3)))
                                (bits_string (octet_bits (group_value h4))) |}).
Proof.
  intros G1 G2 G3 G4 H1 H2 H3 H4 M C network wildcard broadcast.
  assert (VM : validateIP (dotted h1 h2 h3 h4) = true) by now apply validateIP_dotted_ok.
  unfold calculateSubnet.
  rewrite validateIP_dotted_ok, (valid_not_slash _ VM) by assumption.
  cbn [negb bind].
  rewrite bitwiseAnd_dotted, getWildcardMask_dotted by assumption.
  fold network. fold wildcard. cbn [bind].
  destruct G1 as [G1 V1], G2 as [G2 V2], G3 as [G3 V3], G4 as [G4 V4].
  destruct H1 as [H1 U1], H2 as [H2 U2], H3 as [H3 U3], H4 as [H4 U4].
  unfold network, wildcard.
  rewrite bitwiseOr_octets by (try apply land_octet; lia).
  fold network. fold wildcard. fold broadcast. cbn [bind]. rewrite M. cbn [negb].
  rewrite !ipToBinary_dotted by (split; assumption). rewrite C.
  rewrite try_rethrow_id. cbn [bind].
  destruct (incrementIp network); [|reflexivity]. cbn [bind].
  destruct (decrementIp broadcast); [|reflexivity]. cbn [bind].
  destruct (cidr >=? 31); reflexivity.
Qed.

(** A successful run went through a valid address and a valid dotted mask:
    the mask given, or the one [cidrToMask] made of the CIDR suffix. *)
Lemma calculateSubnet_resolved (ip sm : string) (r : SubnetInfo) :
  calculateSubnet ip sm = Ok r ->
  exists mask,
    validateIP ip = true /\ validateIP mask = true /\ validateSubnetMask mask = true
    /\ calculateSubnet ip mask = Ok r.
Proof.
  intros E. pose proof E as E0. unfold calculateSubnet in E.
  destruct (validateIP ip) eqn:V; [|discriminate E]. cbn [negb] in E.
  destruct (startsWith "/" sm) eqn:P.
  - destruct (parseInt (substring_from 1 sm) 10) as [|n]; [discriminate E|].
    cbn [isNaN orb ltb gtb cmp] in E.
    destruct ((n <? 0) || (n >? 32)) eqn:R; [discriminate E|].
    apply orb_false_iff in R as [R1 R2]. apply Z.ltb_ge in R1.
    rewrite Z.gtb_ltb in R2. apply Z.ltb_ge in R2.
    destruct (cidrToMask_in_range n (conj R1 R2)) as (mask & Em & Vm & Mm & _).
    rewrite Em in E. cbn [try_rethrow bind] in E.
    exists mask. repeat split; auto.
    unfold calculateSubnet. rewrite V, (valid_not_slash _ Vm). cbn [negb bind]. exact E.
  - cbn [bind] in E. exists sm.
    destruct (getWildcardMask sm) as [w|] eqn:W; [|discriminate E].
    unfold getWildcardMask in W.
    destruct (validateSubnetMask sm) eqn:M; [|discriminate W].
    repeat split; auto.
    unfold validateSubnetMask in M. rewrite P in M.
    destruct (validateIP sm); [reflexivity | discriminate M].
Qed.

(** The shape of every successful result. *)
Lemma calculateSubnet_result (ip sm : string) (r : SubnetInfo) :
  calculateSubnet ip sm = Ok r ->
  exists (L : nat) (a b c d e f g h : Z) (first last : string),
    (L <= 32)%nat
    /\ validateIP (subnetMask r) = true
    /\ ip_bits (subnetMask r) = prefix_bits L
    /\ maskToCidr (subnetMask r) = Ok (Z.of_nat L)
    /\ (0 <= a <= 255 /\ 0 <= b <= 255 /\ 0 <= c <= 255 /\ 0 <= d <= 255)
    /\ (0 <= e <= 255 /\ 0 <= f <= 255 /\ 0 <= g <= 255 /\ 0 <= h <= 255)
    /\ ip_octets ip = [a; b; c; d]
    /\ ip_octets (subnetMask r) = [e; f; g; h]
    /\ networkAddress r = octets_string (Z.land a e) (Z.land b f) (Z.land c g) (Z.land d h)
    /\ wildcardMask r = octets_string (255 - e) (255 - f) (255 - g) (255 - h)
    /\ broadcastAddress r
       = octets_string (Z.lor (Z.land a e) (255 - e)) (Z.lor (Z.land b f) (255 - f))
                       (Z.lor (Z.land c g) (255 - g)) (Z.lor (Z.land d h) (255 - h))
    /\ incrementIp (networkAddress r) = Ok first
    /\ decrementIp (broadcastAddress r) = Ok last
    /\ firstHost r = (if Z.of_nat L >=? 31 then networkAddress r else first)
    /\ lastHost r = (if Z.of_nat L >=? 31 then broadcastAddress r else last)
    /\ totalHosts r = 2 ^ (32 - Z.of_nat L)
    /\ usableHosts r = (if Z.of_nat L >=? 31 then 2 ^ (32 - Z.of_nat L)
                        else Z.max 0 (2 ^ (32 - Z.of_nat L) - 2)).
Proof.
  intros E. apply calculateSubnet_resolved in E.
  destruct E as (mask & V & Vm & M & E).
  destruct (maskToCidr_valid mask Vm M) as (L & HL & B & C).
  apply validateIP_inv in V. destruct V as (g1 & g2 & g3 & g4 & -> & G1 & G2 & G3 & G4).
  pose proof Vm as Vm'.
  apply validateIP_inv in Vm. destruct Vm as (h1 & h2 & h3 & h4 & -> & H1 & H2 & H3 & H4).
  rewrite (calculateSubnet_dotted g1 g2 g3 g4 h1 h2 h3 h4 (Z.of_nat L)) in E by assumption.
  cbv zeta in E.
  match type of E with
  | bind (incrementIp ?n) _ = _ => destruct (incrementIp n) as [first|] eqn:I; [|discriminate E]
  end.
  cbn [bind] in E.
  match type of E with
  | bind (decrementIp ?n) _ = _ => destruct (decrementIp n) as [last|] eqn:D; [|discriminate E]
  end.
  cbn [bind] in E. injection E as <-.
  cbn [networkAddress broadcastAddress firstHost lastHost totalHosts usableHosts
       subnetMask wildcardMask].
  exists L, (group_value g1), (group_value g2), (group_value g3), (group_value g4),
         (group_value h1), (group_value h2), (group_value h3), (group_value h4), first, last.
  rewrite !ip_octets_dotted by assumption.
  destruct G1 as [_ V1], G2 as [_ V2], G3 as [_ V3], G4 as [_ V4].
  destruct H1 as [_ U1], H2 as [_ U2], H3 as [_ U3], H4 as [_ U4].
  repeat split; auto; lia.
Qed.

End Calculator.

(** The counts of a successful result, from the prefix length of the mask it
    carries. *)
Lemma result_host_counts (ip sm : string) (r : SubnetInfo) :
  calculateSubnet ip sm = Ok r ->
  exists cidr : Z,
    0 <= cidr <= 32
    /\ ip_bits (subnetMask r) = prefix_bits (Z.to_nat cidr)
    /\ maskToCidr (subnetMask r) = Ok cidr
    /\ totalHosts r = 2 ^ (32 - cidr)
    /\ (cidr <= 30 -> usableHosts r = 2 ^ (32 - cidr) - 2)
    /\ (31 <= cidr -> usableHosts r = totalHosts r).
Proof.
  intros E. apply calculateSubnet_result in E.
  destruct E as (L & a & b & c & d & e & f & g & h & first & last & HL & _ & B & C
                 & _ & _ & _ & _ & _ & _ & _ & _ & _ & _ & _ & T & U).
  exists (Z.of_nat L). rewrite Nat2Z.id. repeat split; auto; try lia.
  - intros H. rewrite U. destruct (Z.of_nat L >=? 31) eqn:G.
    + rewrite Z.geb_le in G. lia.
    + assert (P : 2 ^ 2 <= 2 ^ (32 - Z.of_nat L)) by (apply Z.pow_le_mono_r; lia).
      change (2 ^ 2) with 4 in P. lia.
  - intros H. rewrite U, T. destruct (Z.of_nat L >=? 31) eqn:G; [reflexivity|].
    rewrite Z.geb_leb in G. apply Z.leb_gt in G. lia.
Qed.

(** ** Leading zeros *)

Section LeadingZeros.

Lemma canonical_form_valid (s : string) :
  validateIP s = true ->
  canonical_ip (canonical_form s) = true
  /\ ip_octets (canonical_form s) = ip_octets s
  /\ ipToBinary (canonical_form s) = ipToBinary s.
Proof.
  intros V. apply validateIP_inv in V.
  destruct V as (g1 & g2 & g3 & g4 & -> & O1 & O2 & O3 & O4).
  rewrite canonical_form_dotted by assumption.
  pose proof O1 as [_ V1]. pose proof O2 as [_ V2].
  pose proof O3 as [_ V3]. pose proof O4 as [_ V4].
  split; [now apply octets_string_canonical|].
  split; [now rewrite octets_string_octets, ip_octets_dotted|].
  rewrite octets_string_dotted, !ipToBinary_dotted
    by (assumption || now apply octet_ok_toString).
  destruct (toString_octet _ V1) as (_ & _ & ->). destruct (toString_octet _ V2) as (_ & _ & ->).
  destruct (toString_octet _ V3) as (_ & _ & ->). destruct (toString_octet _ V4) as (_ & _ & ->).
  reflexivity.
Qed.

Lemma canonical_ip_valid (s : string) : canonical_ip s = true -> validateIP s = true.
Proof. unfold canonical_ip. intros H. now apply andb_true_iff in H as [V _]. Qed.

Lemma derived_fields_canonical (ip sm : string) (r : SubnetInfo) :
  calculateSubnet ip sm = Ok r ->
  canonical_ip (networkAddress r) = true /\ canonical_ip (broadcastAddress r) = true
  /\ canonical_ip (firstHost r) = true /\ canonical_ip (lastHost r) = true
  /\ canonical_ip (wildcardMask r) = true.
Proof.
  intros E. apply calculateSubnet_result in E.
  destruct E as (L & a & b & c & d & e & f & g & h & first & last & HL & _ & _ & _
                 & (Ha & Hb & Hc & Hd) & (He & Hf & Hg & Hh) & _ & _
                 & N & W & B & I & D & F & La & _ & _).
  pose proof (land_octet a e Ha He) as Na. pose proof (land_octet b f Hb Hf) as Nb.
  pose proof (land_octet c g Hc Hg) as Nc. pose proof (land_octet d h Hd Hh) as Nd.
  assert (CN : canonical_ip (networkAddress r) = true)
    by (rewrite N; now apply octets_string_canonical).
  assert (CB : canonical_ip (broadcastAddress r) = true)
    by (rewrite B; apply octets_string_canonical; apply lor_octet; lia).
  assert (CW : canonical_ip (wildcardMask r) = true)
    by (rewrite W; apply octets_string_canonical; lia).
  repeat split; auto.
  - rewrite F. destruct (Z.of_nat L >=? 31); [assumption|].
    destruct (incrementIp_valid _ (canonical_ip_valid _ CN)) as [[_ X] | [_ (x & X & C & _)]];
      congruence.
  - rewrite La. destruct (Z.of_nat L >=? 31); [assumption|].
    destruct (decrementIp_valid _ (canonical_ip_valid _ CB)) as [[_ X] | [_ (x & X & C & _)]];
      congruence.
Qed.

End LeadingZeros.



(** C1: the run steps from the network and the broadcast address before it
    looks at the prefix length, so a /32 at either end of the address space
    fails instead of returning the address as its own first and last host. *)
Theorem slash32_at_the_ends :
  validateIP "0.0.0.0" = true /\ validateIP "255.255.255.255" = true
  /\ maskToCidr "255.255.255.255" = Ok 32
  /\ calculateSubnet "0.0.0.0" "255.255.255.255" = Err AddressSpaceExhausted
  /\ calculateSubnet "255.255.255.255" "255.255.255.255" = Err AddressSpaceExhausted
  /\ calculateSubnet "0.0.0.0" "/32" = Err AddressSpaceExhausted.
Proof. vm_compute. repeat split. Qed.

(** C2: on a valid address and an in-range CIDR the run can fail with
    AddressSpaceExhausted. *)
Theorem valid_input_exhausted :
  validateIP "255.255.255.255" = true /\ validateSubnetMask "/32" = true
  /\ calculateSubnet "255.255.255.255" "/32" = Err AddressSpaceExhausted.
Proof. vm_compute. repeat split. Qed.

(** ** When the calculator fails *)

Section Failures.

Lemma land_255 (a : Z) : 0 <= a <= 255 -> Z.land a 255 = a.
Proof.
  intros H. change 255 with (Z.ones 8). rewrite Z.land_ones by lia.
  change (2 ^ 8) with 256. apply Z.mod_small. lia.
Qed.

Lemma land_eq_255 (a b : Z) :
  0 <= a <= 255 -> 0 <= b <= 255 -> Z.land a b = 255 -> a = 255 /\ b = 255.
Proof.
  intros Ha Hb E.
  assert (X : Z.land a (Z.land a b) = Z.land a b)
    by now rewrite Z.land_assoc, Z.land_diag.
  assert (Y : Z.land b (Z.land a b) = Z.land a b)
    by now rewrite (Z.land_comm a b), Z.land_assoc, Z.land_diag.
  rewrite E in X, Y. rewrite land_255 in X, Y by assumption. auto.
Qed.

(** A valid CIDR suffix or dotted mask stands for a valid dotted mask. *)
Lemma calculateSubnet_resolve (ip sm : string) :
  validateIP ip = true -> validateSubnetMask sm = true ->
  exists mask,
    validateIP mask = true /\ validateSubnetMask mask = true
    /\ calculateSubnet ip sm = calculateSubnet ip mask.
Proof.
  intros V M. destruct (startsWith "/" sm) eqn:P.
  - destruct (proj1 (validateSubnetMask_cidr sm P) M) as (n & En & Hn).
    destruct (cidrToMask_in_range n Hn) as (mask & Em & Vm & Mm & _).
    exists mask. repeat split; auto. unfold calculateSubnet.
    rewrite V, P, En, (valid_not_slash _ Vm). cbn [negb isNaN orb ltb gtb cmp].
    replace (n <? 0) with false by (symmetry; apply Z.ltb_ge; lia).
    replace (n >? 32) with false by (symmetry; rewrite Z.gtb_ltb; apply Z.ltb_ge; lia).
    cbn [orb]. rewrite Em. reflexivity.
  - exists sm. repeat split; auto. unfold validateSubnetMask in M. rewrite P in M.
    destruct (validateIP sm); [reflexivity | discriminate M].
Qed.

(** The failures of [calculateSubnet], by cause. *)
Lemma calculateSubnet_errors (ip sm : string) (e : error) :
  calculateSubnet ip sm = Err e ->
  (validateIP ip = false /\ e = InvalidAddress)
  \/ (validateIP ip = true /\ validateSubnetMask sm = false
      /\ ((startsWith "/" sm = true /\ e = InvalidCidr)
          \/ (startsWith "/" sm = false /\ e = InvalidMask)))
  \/ (validateIP ip = true /\ validateSubnetMask sm = true /\ e = AddressSpaceExhausted).
Proof.
  intros E. destruct (validateIP ip) eqn:V.
  2:{ left. unfold calculateSubnet in E. rewrite V in E. now injection E as <-. }
  right. destruct (validateSubnetMask sm) eqn:M.
  - right. repeat split.
    destruct (calculateSubnet_resolve ip sm V M) as (mask & Vm & Mm & R). rewrite R in E.
    destruct (maskToCidr_valid mask Vm Mm) as (L & _ & _ & C).
    apply validateIP_inv in V. destruct V as (g1 & g2 & g3 & g4 & -> & G1 & G2 & G3 & G4).
    apply validateIP_inv in Vm. destruct Vm as (h1 & h2 & h3 & h4 & -> & H1 & H2 & H3 & H4).
    rewrite (calculateSubnet_dotted g1 g2 g3 g4 h1 h2 h3 h4 (Z.of_nat L)) in E by assumption.
    cbv zeta in E.
    destruct G1 as [_ V1], G2 as [_ V2], G3 as [_ V3], G4 as [_ V4].
    destruct H1 as [_ U1], H2 as [_ U2], H3 as [_ U3], H4 as [_ U4].
    match type of E with
    | bind (incrementIp ?n) _ = _ =>
        assert (Vn : validateIP n = true)
          by (apply octets_string_valid; apply land_octet; lia);
        destruct (incrementIp_valid n Vn) as [[_ I] | [_ (x & I & _)]]; rewrite I in E
    end; [now injection E as <-|].
    cbn [bind] in E.
    match type of E with
    | bind (decrementIp ?n) _ = _ =>
        assert (Vb : validateIP n = true)
          by (apply octets_string_valid; apply lor_octet; try apply land_octet; lia);
        destruct (decrementIp_valid n Vb) as [[_ D] | [_ (y & D & _)]]; rewrite D in E
    end; [now injection E as <- | discriminate E].
  - left. repeat split. unfold calculateSubnet in E. rewrite V in E. cbn [negb] in E.
    unfold validateSubnetMask in M. destruct (startsWith "/" sm) eqn:P.
    + left. split; [reflexivity|].
      destruct (parseInt (substring_from 1 sm) 10) as [|n]; [now injection E as <-|].
      cbn [isNaN negb andb orb ltb gtb geb leb cmp] in E, M.
      replace ((n <? 0) || (n >? 32)) with true in E; [now injection E as <-|].
      symmetry. apply andb_false_iff in M as [M | M].
      * rewrite Z.geb_leb in M. apply Z.leb_gt in M. apply orb_true_iff. left.
        now apply Z.ltb_lt.
      * apply Z.leb_gt in M. apply orb_true_iff. right. rewrite Z.gtb_ltb.
        now apply Z.ltb_lt.
    + right. split; [reflexivity|]. cbn [bind] in E.
      assert (W : getWildcardMask sm = Err InvalidMask).
      { unfold getWildcardMask, validateSubnetMask. rewrite P.
        destruct (validateIP sm); [|reflexivity]. now rewrite M. }
      rewrite W in E. now injection E as <-.
Qed.

(** With a valid address and a valid dotted mask the calculator fails only
    for the mask of 32 ones on the first or the last address. *)
Lemma calculateSubnet_valid_failure (ip mask : string) (e : error) :
  validateIP ip = true -> validateIP mask = true -> validateSubnetMask mask = true ->
  calculateSubnet ip mask = Err e ->
  ip_octets mask = [255; 255; 255; 255]
  /\ (ip_octets ip = [255; 255; 255; 255] \/ ip_octets ip = [0; 0; 0; 0]).
Proof.
  intros V Vm Mm E.
  destruct (maskToCidr_valid mask Vm Mm) as (L & _ & _ & C).
  apply validateIP_inv in V. destruct V as (g1 & g2 & g3 & g4 & -> & G1 & G2 & G3 & G4).
  apply validateIP_inv in Vm. destruct Vm as (h1 & h2 & h3 & h4 & -> & H1 & H2 & H3 & H4).
  rewrite (calculateSubnet_dotted g1 g2 g3 g4 h1 h2 h3 h4 (Z.of_nat L)) in E by assumption.
  cbv zeta in E. rewrite !ip_octets_dotted by assumption.
  destruct G1 as [_ V1], G2 as [_ V2], G3 as [_ V3], G4 as [_ V4].
  destruct H1 as [_ U1], H2 as [_ U2], H3 as [_ U3], H4 as [_ U4].
  pose proof (land_octet _ _ V1 U1) as N1. pose proof (land_octet _ _ V2 U2) as N2.
  pose proof (land_octet _ _ V3 U3) as N3. pose proof (land_octet _ _ V4 U4) as N4.
  match type of E with
  | bind (incrementIp ?n) _ = _ =>
      assert (Vn : validateIP n = true) by (now apply octets_string_valid);
      destruct (incrementIp_valid n Vn) as [[Hv _] | [_ (x & I & _)]]
  end.
  - rewrite octets_string_value in Hv by assumption. change (2 ^ 32 - 1) with 4294967295 in Hv.
    destruct (land_eq_255 _ _ V1 U1) as [-> ->]; [lia|].
    destruct (land_eq_255 _ _ V2 U2) as [-> ->]; [lia|].
    destruct (land_eq_255 _ _ V3 U3) as [-> ->]; [lia|].
    destruct (land_eq_255 _ _ V4 U4) as [-> ->]; [lia|]. auto.
  - rewrite I in E. cbn [bind] in E.
    assert (B1 := lor_octet _ (255 - group_value h1) N1 ltac:(lia)).
    assert (B2 := lor_octet _ (255 - group_value h2) N2 ltac:(lia)).
    assert (B3 := lor_octet _ (255 - group_value h3) N3 ltac:(lia)).
    assert (B4 := lor_octet _ (255 - group_value h4) N4 ltac:(lia)).
    match type of E with
    | bind (decrementIp ?n) _ = _ =>
        assert (Vb : validateIP n = true) by (now apply octets_string_valid);
        destruct (decrementIp_valid n Vb) as [[Hv _] | [_ (y & D & _)]]
    end.
    + rewrite octets_string_value in Hv by assumption.
      assert (Z1 : Z.lor (Z.land (group_value g1) (group_value h1)) (255 - group_value h1) = 0) by lia.
      assert (Z2 : Z.lor (Z.land (group_value g2) (group_value h2)) (255 - group_value h2) = 0) by lia.
      assert (Z3 : Z.lor (Z.land (group_value g3) (group_value h3)) (255 - group_value h3) = 0) by lia.
      assert (Z4 : Z.lor (Z.land (group_value g4) (group_value h4)) (255 - group_value h4) = 0) by lia.
      apply Z.lor_eq_0_iff in Z1 as [A1 W1], Z2 as [A2 W2], Z3 as [A3 W3], Z4 as [A4 W4].
      replace (group_value h1) with 255 in * by lia.
      replace (group_value h2) with 255 in * by lia.
      replace (group_value h3) with 255 in * by lia.
      replace (group_value h4) with 255 in * by lia.
      rewrite land_255 in A1, A2, A3, A4 by assumption.
      rewrite A1, A2, A3, A4. auto.
    + rewrite D in E. discriminate E.
Qed.

(** For a mask of prefix length 31 or 32, whenever the calculator returns,
    the first host is the network address and the last host the broadcast
    address; it returns for every valid address except the first and the
    last of the address space under the mask of 32 ones. *)
Lemma calculateSubnet_point_to_point (ip sm : string) (cidr : Z) :
  validateIP ip = true -> validateSubnetMask sm = true ->
  (forall r, calculateSubnet ip sm = Ok r ->
             maskToCidr (subnetMask r) = Ok cidr -> 31 <= cidr ->
             firstHost r = networkAddress r /\ lastHost r = broadcastAddress r)
  /\ (ip_octets ip <> [255; 255; 255; 255] -> ip_octets ip <> [0; 0; 0; 0] ->
      exists r, calculateSubnet ip sm = Ok r).
Proof.
  intros V M. split.
  - intros r E C H. apply calculateSubnet_result in E.
    destruct E as (L & a & b & c & d & e & f & g & h & first & last & _ & _ & _ & C'
                   & _ & _ & _ & _ & _ & _ & _ & _ & _ & F & La & _ & _).
    rewrite C in C'. injection C' as ->. rewrite F, La.
    replace (Z.of_nat L >=? 31) with true by (symmetry; rewrite Z.geb_leb; now apply Z.leb_le).
    auto.
  - intros N1 N0. destruct (calculateSubnet_resolve ip sm V M) as (mask & Vm & Mm & R).
    rewrite R. destruct (calculateSubnet ip mask) as [r|e] eqn:E; [now exists r|].
    destruct (calculateSubnet_valid_failure ip mask e V Vm Mm E) as [_ [X | X]]; contradiction.
Qed.

End Failures.

(** ** The test suite of the repository

    The expectations of [src/lib/__tests__/subnet-utils.test.ts], run on the
    embedding. *)

Section Tests.

Example test_validateIP :
  validateIP "192.168.1.1" = true /\ validateIP "10.0.0.1" = true
  /\ validateIP "172.16.0.1" = true /\ validateIP "255.255.255.255" = true
  /\ validateIP "0.0.0.0" = true /\ validateIP "256.168.1.1" = false
  /\ validateIP "192.168.1.256" = false.
Proof. vm_compute. repeat split. Qed.

Example test_validateSubnetMask :
  validateSubnetMask "255.255.255.0" = true /\ validateSubnetMask "255.255.0.0" = true
  /\ validateSubnetMask "255.0.0.0" = true /\ validateSubnetMask "255.255.255.252" = true
  /\ validateSubnetMask "256.255.255.0" = false /\ validateSubnetMask "255.255.255" = false.
Proof. vm_compute. repeat split. Qed.

Example test_ipToBinary :
  ipToBinary "192.168.1.1" = Ok "11000000.10101000.00000001.00000001"
  /\ ipToBinary "0.0.0.0" = Ok "00000000.00000000.00000000.00000000"
  /\ ipToBinary "255.255.255.255" = Ok "11111111.11111111.11111111.11111111".
Proof. vm_compute. repeat split. Qed.

Example test_binaryToIp :
  binaryToIp "11000000.10101000.00000001.00000001" = Ok "192.168.1.1"
  /\ binaryToIp "00000000.00000000.00000000.00000000" = Ok "0.0.0.0"
  /\ binaryToIp "11111111.11111111.11111111.11111111" = Ok "255.255.255.255".
Proof. vm_compute. repeat split. Qed.

Example test_cidrToMask :
  cidrToMask (Num 24) = Ok "255.255.255.0" /\ cidrToMask (Num 16) = Ok "255.255.0.0"
  /\ cidrToMask (Num 8) = Ok "255.0.0.0" /\ cidrToMask (Num 0) = Ok "0.0.0.0"
  /\ cidrToMask (Num 32) = Ok "255.255.255.255" /\ cidrToMask (Num 30) = Ok "255.255.255.252".
Proof. vm_compute. repeat split. Qed.

Example test_maskToCidr :
  maskToCidr "255.255.255.0" = Ok 24 /\ maskToCidr "255.255.0.0" = Ok 16
  /\ maskToCidr "255.0.0.0" = Ok 8 /\ maskToCidr "0.0.0.0" = Ok 0
  /\ maskToCidr "255.255.255.255" = Ok 32 /\ maskToCidr "255.255.255.252" = Ok 30.
Proof. vm_compute. repeat split. Qed.

Example test_getWildcardMask :
  getWildcardMask "255.255.255.0" = Ok "0.0.0.255"
  /\ getWildcardMask "255.255.0.0" = Ok "0.0.255.255"
  /\ getWildcardMask "255.0.0.0" = Ok "0.255.255.255"
  /\ getWildcardMask "255.255.255.252" = Ok "0.0.0.3"
  /\ getWildcardMask "invalid" = Err InvalidMask.
Proof. vm_compute. repeat split. Qed.

Example test_calculateSubnet :
  calculateSubnet "192.168.1.1" "255.255.255.0"
  = Ok {| networkAddress := "192.168.1.0"; broadcastAddress := "192.168.1.255";
          firstHost := "192.168.1.1"; lastHost := "192.168.1.254";
          totalHosts := 256; usableHosts := 254;
          subnetMask := "255.255.255.0"; wildcardMask := "0.0.0.255";
          binaryIP := "11000000.10101000.00000001.00000001";
          binaryMask := "11111111.11111111.11111111.00000000" |}.
Proof. vm_compute. reflexivity. Qed.

Example test_calculateSubnet_31 :
  calculateSubnet "192.168.1.0" "255.255.255.254"
  = Ok {| networkAddress := "192.168.1.0"; broadcastAddress := "192.168.1.1";
          firstHost := "192.168.1.0"; lastHost := "192.168.1.1";
          totalHosts := 2; usableHosts := 2;
          subnetMask := "255.255.255.254"; wildcardMask := "0.0.0.1";
          binaryIP := "11000000.10101000.00000001.00000000";
          binaryMask := "11111111.11111111.11111111.11111110" |}.
Proof. vm_compute. reflexivity. Qed.

Example test_calculateSubnet_32 :
  calculateSubnet "192.168.1.1" "255.255.255.255"
  = Ok {| networkAddress := "192.168.1.1"; broadcastAddress := "192.168.1.1";
          firstHost := "192.168.1.1"; lastHost := "192.168.1.1";
          totalHosts := 1; usableHosts := 1;
          subnetMask := "255.255.255.255"; wildcardMask := "0.0.0.0";
          binaryIP := "11000000.10101000.00000001.00000001";
          binaryMask := "11111111.11111111.11111111.11111111" |}.
Proof. vm_compute. reflexivity. Qed.

Example test_calculateSubnet_errors :
  calculateSubnet "invalid" "255.255.255.0" = Err InvalidAddress
  /\ calculateSubnet "192.168.1.1" "invalid" = Err InvalidMask
  /\ calculateSubnet "192.168.1.1" "/33" = Err InvalidCidr.
Proof. vm_compute. repeat split. Qed.

(** The mask field echoes a dotted mask as it was given. *)
Example subnetMask_echoed :
  exists r, calculateSubnet "10.0.0.1" "255.255.255.000" = Ok r
            /\ subnetMask r = "255.255.255.000".
Proof. eexists. split; [vm_compute; reflexivity | reflexivity]. Qed.

End Tests.

(** * Further properties of the code *)

(** ** Octets of a valid address *)

Section ValidOctets.

(** A valid address string has four octets from 0 to 255; they give its
    value and its spelling without leading zeros. *)
Lemma valid_octets (s : string) :
  validateIP s = true ->
  exists a b c d,
    (0 <= a <= 255 /\ 0 <= b <= 255 /\ 0 <= c <= 255 /\ 0 <= d <= 255)
    /\ ip_octets s = [a; b; c; d]
    /\ ip_value s = ((a * 256 + b) * 256 + c) * 256 + d
    /\ canonical_form s = octets_string a b c d.
Proof.
  intros V. apply validateIP_inv in V.
  destruct V as (g1 & g2 & g3 & g4 & -> & O1 & O2 & O3 & O4).
  exists (group_value g1), (group_value g2), (group_value g3), (group_value g4).
  rewrite ip_octets_dotted, ip_value_dotted, canonical_form_dotted by assumption.
  destruct O1 as [_ V1], O2 as [_ V2], O3 as [_ V3], O4 as [_ V4]. auto 10.
Qed.

Lemma canonical_ip_octets (s : string) :
  canonical_ip s = true ->
  exists a b c d,
    (0 <= a <= 255 /\ 0 <= b <= 255 /\ 0 <= c <= 255 /\ 0 <= d <= 255)
    /\ s = octets_string a b c d.
Proof.
  intros C. destruct (valid_octets s (canonical_ip_valid s C))
    as (a & b & c & d & R & _ & _ & F).
  exists a, b, c, d. split; [assumption|]. now rewrite <- F, canonical_form_fixed.
Qed.

(** Two addresses without leading zeros that denote the same number are the
    same string. *)
Lemma canonical_ip_value_inj (s t : string) :
  canonical_ip s = true -> canonical_ip t = true -> ip_value s = ip_value t -> s = t.
Proof.
  intros Cs Ct E.
  destruct (canonical_ip_octets s Cs) as (a & b & c & d & (Ha & Hb & Hc & Hd) & ->).
  destruct (canonical_ip_octets t Ct) as (e & f & g & h & (He & Hf & Hg & Hh) & ->).
  rewrite !octets_string_value in E by assumption.
  assert (a = e) by lia. assert (b = f) by lia. assert (c = g) by lia. assert (d = h) by lia.
  now subst.
Qed.

Lemma canonical_form_value (s : string) :
  validateIP s = true ->
  canonical_ip (canonical_form s) = true /\ ip_value (canonical_form s) = ip_value s.
Proof.
  intros V. destruct (canonical_form_valid s V) as (C & O & _).
  split; [assumption|]. unfold ip_value. now rewrite O.
Qed.

End ValidOctets.

Lemma step_back (s r : string) :
  validateIP s = true ->
  (incrementIp s = Ok r -> decrementIp r = Ok (canonical_form s))
  /\ (decrementIp s = Ok r -> incrementIp r = Ok (canonical_form s)).
Proof.
  intros V. destruct (canonical_form_value s V) as [Cs Vs].
  pose proof (ip_value_range s V) as Rs. split; intros E.
  - destruct (incrementIp_valid s V) as [[_ X] | [_ (x & X & Cx & Hx)]]; [congruence|].
    rewrite E in X. injection X as <-.
    destruct (decrementIp_valid r (canonical_ip_valid r Cx))
      as [[Z0 _] | [_ (y & Y & Cy & Hy)]]; [lia|].
    rewrite Y. f_equal. apply canonical_ip_value_inj; auto. lia.
  - destruct (decrementIp_valid s V) as [[_ X] | [_ (x & X & Cx & Hx)]]; [congruence|].
    rewrite E in X. injection X as <-.
    destruct (incrementIp_valid r (canonical_ip_valid r Cx))
      as [[Z0 _] | [_ (y & Y & Cy & Hy)]]; [lia|].
    rewrite Y. f_equal. apply canonical_ip_value_inj; auto. lia.
Qed.

(** X1: a valid address below the last one can be stepped up and back down,
    and a valid address above the first one down and back up; both ways end
    on the address, spelled without leading zeros. *)
Theorem increment_decrement_inverse (s : string) :
  validateIP s = true ->
  (ip_value s < 2 ^ 32 - 1 ->
   exists r, incrementIp s = Ok r /\ decrementIp r = Ok (canonical_form s))
  /\ (0 < ip_value s ->
      exists r, decrementIp s = Ok r /\ incrementIp r = Ok (canonical_form s)).
Proof.
  intros V. split; intros H.
  - destruct (incrementIp_valid s V) as [[X _] | [_ (r & E & _)]]; [lia|].
    exists r. split; [assumption|]. now apply (step_back s r V).
  - destruct (decrementIp_valid s V) as [[X _] | [_ (r & E & _)]]; [lia|].
    exists r. split; [assumption|]. now apply (step_back s r V).
Qed.

Lemma increment_decrement_inverse_witness :
  (exists r, incrementIp "010.0.0.255" = Ok r
             /\ decrementIp r = Ok (canonical_form "010.0.0.255"))
  /\ (exists r, decrementIp "010.0.0.255" = Ok r
                /\ incrementIp r = Ok (canonical_form "010.0.0.255")).
Proof.
  destruct (increment_decrement_inverse "010.0.0.255" eq_refl) as [H1 H2].
  split; [apply H1 | apply H2]; vm_compute; reflexivity.
Defined.

(** ** Octet-wise and word-wise bit operations *)

Section WordLevel.

Lemma testbit_concat (p q n : Z) :
  0 <= q <= 255 -> 0 <= n ->
  Z.testbit (p * 256 + q) n = if n <? 8 then Z.testbit q n else Z.testbit p (n - 8).
Proof.
  intros Hq Hn. destruct (n <? 8) eqn:E.
  - apply Z.ltb_lt in E. rewrite <- (Z.mod_pow2_bits_low (p * 256 + q) 8 n) by lia.
    change (2 ^ 8) with 256. f_equal.
    rewrite Z.add_comm, Z_mod_plus_full. apply Z.mod_small. lia.
  - apply Z.ltb_ge in E. replace n with ((n - 8) + 8) at 1 by lia.
    rewrite <- Z.div_pow2_bits by lia. change (2 ^ 8) with 256. f_equal.
    rewrite Z.add_comm, Z.div_add by lia. rewrite Z.div_small by lia. lia.
Qed.

(** A bitwise operation that keeps octets in range acts on a number octet by
    octet. *)
Lemma bitop_concat (f : bool -> bool -> bool) (op : Z -> Z -> Z) :
  (forall a b n, Z.testbit (op a b) n = f (Z.testbit a n) (Z.testbit b n)) ->
  (forall a b, 0 <= a <= 255 -> 0 <= b <= 255 -> 0 <= op a b <= 255) ->
  forall p q r s, 0 <= q <= 255 -> 0 <= s <= 255 ->
                  op (p * 256 + q) (r * 256 + s) = op p r * 256 + op q s.
Proof.
  intros Hf Hr p q r s Hq Hs. apply Z.bits_inj'. intros n Hn.
  rewrite Hf, !testbit_concat by (try apply Hr; lia).
  destruct (n <? 8); now rewrite Hf.
Qed.

Lemma bitop_word (f : bool -> bool -> bool) (op : Z -> Z -> Z) :
  (forall a b n, Z.testbit (op a b) n = f (Z.testbit a n) (Z.testbit b n)) ->
  (forall a b, 0 <= a <= 255 -> 0 <= b <= 255 -> 0 <= op a b <= 255) ->
  forall a b c d e f' g h,
    0 <= b <= 255 -> 0 <= c <= 255 -> 0 <= d <= 255 ->
    0 <= f' <= 255 -> 0 <= g <= 255 -> 0 <= h <= 255 ->
    op (((a * 256 + b) * 256 + c) * 256 + d) (((e * 256 + f') * 256 + g) * 256 + h)
    = ((op a e * 256 + op b f') * 256 + op c g) * 256 + op d h.
Proof.
  intros Hf Hr a b c d e f' g h Hb Hc Hd Hf' Hg Hh.
  now rewrite !(bitop_concat f op Hf Hr) by assumption.
Qed.

Lemma land_word (a b c d e f g h : Z) :
  0 <= b <= 255 -> 0 <= c <= 255 -> 0 <= d <= 255 ->
  0 <= f <= 255 -> 0 <= g <= 255 -> 0 <= h <= 255 ->
  Z.land (((a * 256 + b) * 256 + c) * 256 + d) (((e * 256 + f) * 256 + g) * 256 + h)
  = ((Z.land a e * 256 + Z.land b f) * 256 + Z.land c g) * 256 + Z.land d h.
Proof. apply (bitop_word andb Z.land Z.land_spec land_octet). Qed.

Lemma lor_word (a b c d e f g h : Z) :
  0 <= b <= 255 -> 0 <= c <= 255 -> 0 <= d <= 255 ->
  0 <= f <= 255 -> 0 <= g <= 255 -> 0 <= h <= 255 ->
  Z.lor (((a * 256 + b) * 256 + c) * 256 + d) (((e * 256 + f) * 256 + g) * 256 + h)
  = ((Z.lor a e * 256 + Z.lor b f) * 256 + Z.lor c g) * 256 + Z.lor d h.
Proof. apply (bitop_word orb Z.lor Z.lor_spec lor_octet). Qed.

Lemma bitwiseOr_dotted (g1 g2 g3 g4 h1 h2 h3 h4 : string) :
  octet_ok g1 -> octet_ok g2 -> octet_ok g3 -> octet_ok g4 ->
  octet_ok h1 -> octet_ok h2 -> octet_ok h3 -> octet_ok h4 ->
  bitwiseOr (dotted g1 g2 g3 g4) (dotted h1 h2 h3 h4)
  = Ok (octets_string (Z.lor (group_value g1) (group_value h1))
                      (Z.lor (group_value g2) (group_value h2))
                      (Z.lor (group_value g3) (group_value h3))
                      (Z.lor (group_value g4) (group_value h4))).
Proof.
  intros G1 G2 G3 G4 H1 H2 H3 H4. unfold bitwiseOr.
  rewrite !validateIP_dotted_ok, !map_Number_dotted by assumption.
  cbn [negb orb try_rethrow map_indexed index nth]. unfold bitor.
  destruct G1 as [_ G1], G2 as [_ G2], G3 as [_ G3], G4 as [_ G4].
  destruct H1 as [_ H1], H2 as [_ H2], H3 as [_ H3], H4 as [_ H4].
  now rewrite !ToInt32_octet by assumption.
Qed.

End WordLevel.

(** X2: on two valid address strings [bitwiseAnd] returns a valid address
    without leading zeros whose 32-bit value is the bitwise AND of the values
    of the operands. *)
Theorem bitwiseAnd_word (ip1 ip2 : string) :
  validateIP ip1 = true -> validateIP ip2 = true ->
  canonical_ip (bitwiseAnd ip1 ip2) = true
  /\ ip_value (bitwiseAnd ip1 ip2) = Z.land (ip_value ip1) (ip_value ip2).
Proof.
  intros V1 V2. apply validateIP_inv in V1, V2.
  destruct V1 as (g1 & g2 & g3 & g4 & -> & G1 & G2 & G3 & G4).
  destruct V2 as (h1 & h2 & h3 & h4 & -> & H1 & H2 & H3 & H4).
  rewrite bitwiseAnd_dotted, !ip_value_dotted by assumption.
  destruct G1 as [_ G1], G2 as [_ G2], G3 as [_ G3], G4 as [_ G4].
  destruct H1 as [_ H1], H2 as [_ H2], H3 as [_ H3], H4 as [_ H4].
  split; [apply octets_string_canonical; now apply land_octet|].
  rewrite octets_string_value by now apply land_octet.
  now rewrite land_word.
Qed.

Lemma bitwiseAnd_word_witness :
  canonical_ip (bitwiseAnd "192.168.001.77" "255.255.255.0") = true
  /\ ip_value (bitwiseAnd "192.168.001.77" "255.255.255.0")
     = Z.land (ip_value "192.168.001.77") (ip_value "255.255.255.0").
Proof. apply bitwiseAnd_word; reflexivity. Defined.

(** X3: [bitwiseOr] fails with InvalidAddress when one of its operands is not
    a valid address string; on two valid ones it returns a valid address
    without leading zeros whose 32-bit value is the bitwise OR of the values
    of the operands. *)
Theorem bitwiseOr_word (ip1 ip2 : string) :
  (validateIP ip1 = false \/ validateIP ip2 = false ->
   bitwiseOr ip1 ip2 = Err InvalidAddress)
  /\ (validateIP ip1 = true -> validateIP ip2 = true ->
      exists r, bitwiseOr ip1 ip2 = Ok r /\ canonical_ip r = true
                /\ ip_value r = Z.lor (ip_value ip1) (ip_value ip2)).
Proof.
  split.
  - intros [V | V]; unfold bitwiseOr; rewrite V; [reflexivity|].
    now rewrite orb_true_r.
  - intros V1 V2. apply validateIP_inv in V1, V2.
    destruct V1 as (g1 & g2 & g3 & g4 & -> & G1 & G2 & G3 & G4).
    destruct V2 as (h1 & h2 & h3 & h4 & -> & H1 & H2 & H3 & H4).
    rewrite bitwiseOr_dotted, !ip_value_dotted by assumption.
    destruct G1 as [_ G1], G2 as [_ G2], G3 as [_ G3], G4 as [_ G4].
    destruct H1 as [_ H1], H2 as [_ H2], H3 as [_ H3], H4 as [_ H4].
    eexists. split; [reflexivity|].
    split; [apply octets_string_canonical; now apply lor_octet|].
    rewrite octets_string_value by now apply lor_octet.
    now rewrite lor_word.
Qed.

Lemma bitwiseOr_word_witness :
  bitwiseOr "1.2.3" "0.0.0.255" = Err InvalidAddress
  /\ (exists r, bitwiseOr "192.168.1.0" "0.0.0.255" = Ok r /\ canonical_ip r = true
                /\ ip_value r = Z.lor (ip_value "192.168.1.0") (ip_value "0.0.0.255")).
Proof.
  split.
  - apply (proj1 (bitwiseOr_word "1.2.3" "0.0.0.255")). left. reflexivity.
  - apply (proj2 (bitwiseOr_word "192.168.1.0" "0.0.0.255")); reflexivity.
Defined.

(** ** Masks, prefix lengths and wildcards *)

Section Masks.

Lemma octet_bits_inj (a b : Z) :
  0 <= a <= 255 -> 0 <= b <= 255 -> octet_bits a = octet_bits b -> a = b.
Proof.
  intros Ha Hb E. rewrite <- (bits_value_octet a Ha), <- (bits_value_octet b Hb).
  now rewrite E.
Qed.

Lemma app_inj_length {A : Type} (x : list A) : forall x' y y',
  List.length x = List.length x' -> (x ++ y = x' ++ y')%list -> x = x' /\ y = y'.
Proof.
  induction x as [|a x IH]; intros [|a' x'] y y' L E; simpl in *; try discriminate; auto.
  injection E as -> E. injection L as L. destruct (IH x' y y' L E) as [-> ->]. auto.
Qed.

(** The bits of a valid address determine its octets. *)
Lemma ip_bits_inj (s t : string) :
  validateIP s = true -> validateIP t = true -> ip_bits s = ip_bits t ->
  ip_octets s = ip_octets t.
Proof.
  intros Vs Vt E.
  destruct (valid_octets s Vs) as (a & b & c & d & (Ha & Hb & Hc & Hd) & Os & _).
  destruct (valid_octets t Vt) as (e & f & g & h & (He & Hf & Hg & Hh) & Ot & _).
  unfold ip_bits in E. rewrite Os, Ot in *. cbn [flat_map] in E.
  apply app_inj_length in E as [E1 E]; [|reflexivity].
  apply app_inj_length in E as [E2 E]; [|reflexivity].
  apply app_inj_length in E as [E3 E]; [|reflexivity].
  apply app_inj_length in E as [E4 _]; [|reflexivity].
  apply octet_bits_inj in E1, E2, E3, E4; auto. now subst.
Qed.

Lemma canonical_form_octets (s t : string) :
  ip_octets s = ip_octets t -> canonical_form s = canonical_form t.
Proof.
  unfold canonical_form, ip_octets. intros E.
  rewrite <- (map_map group_value (fun v => toString (Num v)) (split "." s)).
  rewrite <- (map_map group_value (fun v => toString (Num v)) (split "." t)).
  now rewrite E.
Qed.

Lemma ip_value_octets (s t : string) : ip_octets s = ip_octets t -> ip_value s = ip_value t.
Proof. unfold ip_value. now intros ->. Qed.

(** The mask [cidrToMask] makes of a prefix length: its spelling and value. *)
Lemma cidrToMask_value (n : Z) :
  0 <= n <= 32 ->
  exists m, cidrToMask (Num n) = Ok m
            /\ canonical_ip m = true
            /\ ip_bits m = prefix_bits (Z.to_nat n)
            /\ ip_value m = 2 ^ 32 - 2 ^ (32 - n).
Proof.
  intros H.
  pose (chk := fun n =>
    match cidrToMask (Num n) with
    | Ok m => canonical_ip m
              && String.eqb (bits_string (ip_bits m)) (bits_string (prefix_bits (Z.to_nat n)))
              && (ip_value m =? 2 ^ 32 - 2 ^ (32 - n))
    | Err _ => false
    end).
  assert (E : chk n = true).
  { apply (forall_below chk 33); [vm_compute; reflexivity | lia]. }
  unfold chk in E. destruct (cidrToMask (Num n)) as [m|]; [|discriminate].
  exists m. split; [reflexivity|].
  apply andb_true_iff in E as [E E3]. apply andb_true_iff in E as [E1 E2].
  apply String.eqb_eq, bits_string_inj in E2. apply Z.eqb_eq in E3. auto.
Qed.

(** A valid dotted mask of prefix length [L] has the octets and the value of
    the mask [cidrToMask] makes of [L]. *)
Lemma valid_mask_value (m : string) (L : nat) :
  validateIP m = true -> (L <= 32)%nat -> ip_bits m = prefix_bits L ->
  cidrToMask (Num (Z.of_nat L)) = Ok (canonical_form m)
  /\ ip_value m = 2 ^ 32 - 2 ^ (32 - Z.of_nat L).
Proof.
  intros V HL B.
  destruct (cidrToMask_value (Z.of_nat L)) as (m' & E & C & B' & Hv); [lia|].
  rewrite Nat2Z.id in B'.
  assert (O : ip_octets m = ip_octets m').
  { apply ip_bits_inj; auto using canonical_ip_valid. congruence. }
  split.
  - rewrite E. f_equal. rewrite (canonical_form_octets m m' O).
    symmetry. now apply canonical_form_fixed.
  - now rewrite (ip_value_octets m m' O).
Qed.

Lemma octet_complement_bits (o : Z) :
  0 <= o <= 255 -> octet_bits (255 - o) = map negb (octet_bits o).
Proof.
  intros H.
  pose (chk := fun o => String.eqb (bits_string (octet_bits (255 - o)))
                                   (bits_string (map negb (octet_bits o)))).
  assert (E : chk o = true).
  { apply (forall_below chk 256); [vm_compute; reflexivity | lia]. }
  now apply String.eqb_eq, bits_string_inj in E.
Qed.

Lemma maskToCidr_ok (m : string) (n : Z) :
  maskToCidr m = Ok n -> validateIP m = true /\ validateSubnetMask m = true.
Proof.
  unfold maskToCidr. destruct (validateSubnetMask m) eqn:M; [|discriminate].
  cbn [negb]. unfold ipToBinary. destruct (validateIP m); [auto | discriminate].
Qed.

End Masks.

(** X4: on a valid dotted mask [getWildcardMask] returns the address, without
    leading zeros, whose octets are 255 minus the octets of the mask: every
    bit is flipped and the two values add up to [2^32 - 1]. *)
Theorem getWildcardMask_complement (m : string) :
  validateIP m = true -> validateSubnetMask m = true ->
  exists w, getWildcardMask m = Ok w
            /\ canonical_ip w = true
            /\ ip_octets w = map (fun o => 255 - o) (ip_octets m)
            /\ ip_bits w = map negb (ip_bits m)
            /\ ip_value w + ip_value m = 2 ^ 32 - 1.
Proof.
  intros V M. pose proof V as V'. apply validateIP_inv in V.
  destruct V as (h1 & h2 & h3 & h4 & -> & H1 & H2 & H3 & H4).
  rewrite getWildcardMask_dotted by assumption. eexists. split; [reflexivity|].
  rewrite ip_value_dotted by assumption. unfold ip_bits.
  rewrite ip_octets_dotted by assumption.
  destruct H1 as [_ U1], H2 as [_ U2], H3 as [_ U3], H4 as [_ U4].
  rewrite octets_string_octets, octets_string_value by lia.
  split; [apply octets_string_canonical; lia|]. split; [reflexivity|].
  split; [|change (2 ^ 32 - 1) with 4294967295; lia].
  cbn [flat_map map]. rewrite !map_app, !octet_complement_bits by assumption. reflexivity.
Qed.

Lemma getWildcardMask_complement_witness :
  exists w, getWildcardMask "255.255.240.000" = Ok w
            /\ canonical_ip w = true
            /\ ip_octets w = map (fun o => 255 - o) (ip_octets "255.255.240.000")
            /\ ip_bits w = map negb (ip_bits "255.255.240.000")
            /\ ip_value w + ip_value "255.255.240.000" = 2 ^ 32 - 1.
Proof. apply getWildcardMask_complement; reflexivity. Defined.

Section CidrForm.

Lemma slash_first (s : string) :
  startsWith "/" s = true -> exists t, s = String "/" t.
Proof.
  unfold startsWith. destruct s as [|c t]; cbn [String.prefix]; [discriminate|].
  destruct (ascii_dec "/" c) as [<-|]; [eauto | discriminate].
Qed.

Lemma valid_first_digit (c : ascii) (t : string) :
  validateIP (String c t) = true -> is_digit 10 c = true.
Proof.
  intros V. apply validateIP_inv in V.
  destruct V as (g1 & g2 & g3 & g4 & E & [G1 _] & _).
  apply digit_group_inv in G1 as (D & Hne & _).
  destruct g1 as [|c1 g1]; [congruence|]. unfold dotted in E. cbn [append] in E.
  injection E as -> _. simpl in D. now apply andb_true_iff in D as [D _].
Qed.

Lemma prefix_same (c : ascii) (p s : string) :
  String.prefix (String c p) (String c s) = String.prefix p s.
Proof. cbn [String.prefix]. destruct (ascii_dec c c); [reflexivity | congruence]. Qed.

Lemma parseInt_slash (g : string) : parseInt (String "/" g) 10 = NaN.
Proof. reflexivity. Qed.

Lemma split_slash (t : string) :
  exists g gs, split "." (String "/" t) = String "/" g :: gs.
Proof.
  cbn [split]. change (Ascii.eqb "/" ".") with false. cbn iota.
  destruct (split "." t) as [|g gs]; eauto.
Qed.

Lemma prefix_bits_inj (a b : nat) :
  (a <= 32)%nat -> (b <= 32)%nat -> prefix_bits a = prefix_bits b -> a = b.
Proof.
  intros Ha Hb E. apply Nat2Z.inj. unfold prefix_bits in E.
  rewrite <- (count_ones_prefix a (32 - a)), <- (count_ones_prefix b (32 - b)).
  now rewrite E.
Qed.

End CidrForm.

(** X5: a string in CIDR form that [validateSubnetMask] accepts is not
    rejected by [getWildcardMask]: the text before the first dot does not
    parse as an octet and the result starts with ["NaN"], so it is not an
    address. *)
Theorem getWildcardMask_cidr_form (s : string) :
  startsWith "/" s = true -> validateSubnetMask s = true ->
  exists r, getWildcardMask s = Ok r
            /\ startsWith "NaN" r = true /\ validateIP r = false.
Proof.
  intros P M. destruct (slash_first s P) as (t & ->).
  unfold getWildcardMask. rewrite M. cbn [negb try_rethrow].
  destruct (split_slash t) as (g & gs & ->). cbn [map]. rewrite parseInt_slash.
  change (toString (num_sub (Num 255) NaN)) with "NaN".
  eexists. split; [reflexivity|].
  assert (N : exists rest, join "." ("NaN" :: map (fun octet =>
                toString (num_sub (Num 255) (parseInt octet 10))) gs)
              = String "N" (String "a" (String "N" rest))).
  { destruct (map _ gs); unfold join; cbn [String.concat append]; eauto. }
  destruct N as (rest & ->). split; [unfold startsWith; rewrite !prefix_same; now destruct rest|].
  destruct (validateIP _) eqn:V; [|reflexivity].
  apply valid_first_digit in V. discriminate V.
Qed.

Lemma getWildcardMask_cidr_form_witness :
  exists r, getWildcardMask "/24" = Ok r
            /\ startsWith "NaN" r = true /\ validateIP r = false.
Proof. apply getWildcardMask_cidr_form; reflexivity. Defined.

(** X6: [maskToCidr] returns [n] exactly for the valid address strings whose
    bits are [n] ones followed by zeros.  It fails with InvalidMask on what
    [validateSubnetMask] rejects, and with InvalidAddress, raised by
    [ipToBinary], on the CIDR-form strings [validateSubnetMask] accepts: it
    never succeeds on a string that starts with a slash. *)
Theorem maskToCidr_spec (m : string) :
  (forall n, maskToCidr m = Ok n <->
             validateIP m = true /\ 0 <= n <= 32
             /\ ip_bits m = prefix_bits (Z.to_nat n))
  /\ (forall e, maskToCidr m = Err e ->
                (e = InvalidMask /\ validateSubnetMask m = false)
                \/ (e = InvalidAddress /\ startsWith "/" m = true
                    /\ validateSubnetMask m = true))
  /\ (startsWith "/" m = true -> exists e, maskToCidr m = Err e).
Proof.
  split; [|split].
  - intros n. split.
    + intros E. destruct (maskToCidr_ok m n E) as [V M].
      destruct (maskToCidr_valid m V M) as (L & HL & B & C).
      rewrite E in C. injection C as ->. rewrite Nat2Z.id. repeat split; auto; lia.
    + intros (V & Hn & B).
      assert (M : validateSubnetMask m = true).
      { apply validateSubnetMask_dotted; [assumption|]. exists (Z.to_nat n). split; [lia | auto]. }
      destruct (maskToCidr_valid m V M) as (L & HL & B' & C). rewrite C. f_equal.
      rewrite B in B'. apply prefix_bits_inj in B'; lia.
  - intros e E. unfold maskToCidr in E.
    destruct (validateSubnetMask m) eqn:M; cbn [negb] in E;
      [right | left; now injection E as <-].
    unfold ipToBinary in E. destruct (validateIP m) eqn:V; [discriminate E|].
    cbn [negb bind try_rethrow] in E. injection E as <-. repeat split.
    unfold validateSubnetMask in M. rewrite V in M.
    destruct (startsWith "/" m); [reflexivity | discriminate M].
  - intros P. destruct (maskToCidr m) as [n|e] eqn:E; [|eauto].
    destruct (maskToCidr_ok m n E) as [V _]. apply valid_not_slash in V. congruence.
Qed.

Lemma maskToCidr_spec_witness :
  maskToCidr "255.255.192.0" = Ok 18
  /\ (exists e, maskToCidr "/18" = Err e).
Proof.
  destruct (maskToCidr_spec "255.255.192.0") as (H1 & _).
  destruct (maskToCidr_spec "/18") as (_ & _ & H3).
  split; [apply H1; repeat split; try lia; reflexivity | apply H3; reflexivity].
Defined.

(** X7: a mask that [maskToCidr] turns into a prefix length is given back by
    [cidrToMask], spelled without leading zeros. *)
Theorem mask_cidr_round_trip (m : string) (n : Z) :
  maskToCidr m = Ok n -> cidrToMask (Num n) = Ok (canonical_form m).
Proof.
  intros E. destruct (maskToCidr_ok m n E) as [V M].
  destruct (maskToCidr_valid m V M) as (L & HL & B & C).
  rewrite E in C. injection C as ->. now apply valid_mask_value.
Qed.

Lemma mask_cidr_round_trip_witness :
  cidrToMask (Num 20) = Ok (canonical_form "255.255.240.000").
Proof. apply (mask_cidr_round_trip "255.255.240.000" 20). reflexivity. Defined.

(** ** Binary strings *)

Section BinaryStrings.

Lemma bit_cases (c : ascii) : is_digit 2 c = true -> c = bit_char false \/ c = bit_char true.
Proof.
  intros H. pose proof (digit_val_range 2 c H) as R.
  rewrite <- (digit_char_val c (digit_weaken c H)).
  assert (E : digit_val c = 0 \/ digit_val c = 1) by lia.
  destruct E as [-> | ->]; [left | right]; reflexivity.
Qed.

Lemma all_digits_bits (g : string) :
  all_digits 2 g = true -> exists l, g = bits_string l.
Proof.
  induction g as [|c g IH]; simpl; intros H; [now exists []|].
  apply andb_true_iff in H as [Hc Hg]. destruct (IH Hg) as (l & ->).
  destruct (bit_cases c Hc) as [-> | ->]; [now exists (false :: l) | now exists (true :: l)].
Qed.

(** A group of eight binary digits is the binary spelling of its value. *)
Lemma bit_group_round (g : string) :
  bit_group g = true ->
  0 <= bits_value g <= 255 /\ bits_string (octet_bits (bits_value g)) = g.
Proof.
  unfold bit_group. intros H. apply andb_true_iff in H as [D L].
  destruct (all_digits_bits g D) as (l & ->). rewrite length_bits_string in L.
  apply Nat.eqb_eq in L.
  destruct l as [|b1 [|b2 [|b3 [|b4 [|b5 [|b6 [|b7 [|b8 [|b9 l]]]]]]]]]; try discriminate L.
  destruct b1, b2, b3, b4, b5, b6, b7, b8; vm_compute; (split; [split; discriminate | reflexivity]).
Qed.

Lemma Ok_inj {A : Type} (a b : A) : Ok a = Ok b -> a = b.
Proof. congruence. Qed.

Lemma length_dotted (g1 g2 g3 g4 : string) :
  String.length (dotted g1 g2 g3 g4)
  = (String.length g1 + String.length g2 + String.length g3 + String.length g4 + 3)%nat.
Proof. unfold dotted. rewrite !length_append. simpl. lia. Qed.

End BinaryStrings.

(** X8: [ipToBinary] fails with InvalidAddress on a string [validateIP]
    rejects.  On a valid address it returns 35 characters, four dotted groups
    of eight binary digits that [binaryToIp] accepts, which spell the 32 bits
    of the address once the dots are removed. *)
Theorem ipToBinary_shape (s : string) :
  (validateIP s = false -> ipToBinary s = Err InvalidAddress)
  /\ (validateIP s = true ->
      exists b, ipToBinary s = Ok b
                /\ String.length b = 35%nat
                /\ test binaryRegex b = true
                /\ remove_char "." b = bits_string (ip_bits s)).
Proof.
  split.
  - intros V. unfold ipToBinary. now rewrite V.
  - intros V. destruct (binary_of_valid s V) as (b & E & R & _).
    exists b. split; [assumption|]. split; [|split; [|assumption]].
    + apply validateIP_inv in V.
      destruct V as (g1 & g2 & g3 & g4 & -> & O1 & O2 & O3 & O4).
      rewrite ipToBinary_dotted in E by assumption. apply Ok_inj in E. subst b.
      now rewrite length_dotted, !length_bits_string.
    + apply validateIP_inv in V.
      destruct V as (g1 & g2 & g3 & g4 & -> & O1 & O2 & O3 & O4).
      rewrite ipToBinary_dotted in E by assumption. apply Ok_inj in E. subst b.
      apply test_binaryRegex_dotted; apply bit_group_octet.
Qed.

Lemma ipToBinary_shape_witness :
  ipToBinary "10.0.0" = Err InvalidAddress
  /\ (exists b, ipToBinary "10.000.7.255" = Ok b
                /\ String.length b = 35%nat
                /\ test binaryRegex b = true
                /\ remove_char "." b = bits_string (ip_bits "10.000.7.255")).
Proof.
  split.
  - apply (proj1 (ipToBinary_shape "10.0.0")). reflexivity.
  - apply (proj2 (ipToBinary_shape "10.000.7.255")). reflexivity.
Defined.

(** X9: on four dotted groups of eight binary digits, converting to decimal
    with [binaryToIp] and back with [ipToBinary] gives the string back. *)
Theorem decimal_round_trip (g1 g2 g3 g4 : string) :
  bit_group g1 = true -> bit_group g2 = true ->
  bit_group g3 = true -> bit_group g4 = true ->
  (d <- binaryToIp (dotted g1 g2 g3 g4) ;; ipToBinary d) = Ok (dotted g1 g2 g3 g4).
Proof.
  intros G1 G2 G3 G4. rewrite binaryToIp_dotted by assumption. cbn [bind].
  destruct (bit_group_round g1 G1) as [R1 E1]. destruct (bit_group_round g2 G2) as [R2 E2].
  destruct (bit_group_round g3 G3) as [R3 E3]. destruct (bit_group_round g4 G4) as [R4 E4].
  rewrite octets_string_dotted, ipToBinary_dotted by now apply octet_ok_toString.
  destruct (toString_octet _ R1) as (_ & _ & ->). destruct (toString_octet _ R2) as (_ & _ & ->).
  destruct (toString_octet _ R3) as (_ & _ & ->). destruct (toString_octet _ R4) as (_ & _ & ->).
  now rewrite E1, E2, E3, E4.
Qed.

Lemma decimal_round_trip_witness :
  (d <- binaryToIp (dotted "00001010" "00000000" "11110000" "00000001") ;; ipToBinary d)
  = Ok (dotted "00001010" "00000000" "11110000" "00000001").
Proof. apply decimal_round_trip; reflexivity. Defined.

(** ** The block of addresses of a subnet *)

Section Block.

Lemma testbit_above (v n : Z) : 0 <= v < 2 ^ 32 -> 32 <= n -> Z.testbit v n = false.
Proof.
  intros Hv Hn. replace n with ((n - 32) + 32) by lia.
  rewrite <- Z.div_pow2_bits by lia. rewrite Z.div_small by lia. apply Z.bits_0.
Qed.

(** Masking with [32 - k] ones followed by [k] zeros clears the low [k]
    bits. *)
Lemma land_prefix_mask (v k : Z) :
  0 <= v < 2 ^ 32 -> 0 <= k <= 32 ->
  Z.land v (2 ^ 32 - 2 ^ k) = v - v mod 2 ^ k.
Proof.
  intros Hv Hk.
  assert (P : 0 < 2 ^ k) by (apply Z.pow_pos_nonneg; lia).
  assert (M : 2 ^ 32 - 2 ^ k = Z.ones (32 - k) * 2 ^ k).
  { assert (S : 2 ^ (32 - k) * 2 ^ k = 2 ^ 32)
      by (rewrite <- Z.pow_add_r by lia; f_equal; lia).
    rewrite Z.ones_equiv, <- Z.sub_1_r, Z.mul_sub_distr_r, S. ring. }
  assert (Q : v - v mod 2 ^ k = (v / 2 ^ k) * 2 ^ k).
  { pose proof (Z.div_mod v (2 ^ k) ltac:(lia)) as Q. rewrite Q at 1. ring. }
  rewrite M, Q. apply Z.bits_inj'. intros n Hn.
  rewrite Z.land_spec, !Z.mul_pow2_bits by lia.
  destruct (Z.ltb_spec n k) as [L | L].
  - rewrite (Z.testbit_neg_r (Z.ones (32 - k)) (n - k)),
            (Z.testbit_neg_r (v / 2 ^ k) (n - k)) by lia.
    apply andb_false_r.
  - rewrite Z.testbit_ones_nonneg, Z.div_pow2_bits by lia.
    replace (n - k + k) with n by lia.
    destruct (Z.ltb_spec (n - k) (32 - k)) as [H | H].
    + apply andb_true_r.
    + rewrite andb_false_r. symmetry. apply testbit_above; lia.
Qed.

(** Setting the low [k] bits of a multiple of [2^k] adds [2^k - 1]. *)
Lemma lor_low_ones (x k : Z) :
  0 <= k -> x mod 2 ^ k = 0 -> Z.lor x (2 ^ k - 1) = x + 2 ^ k - 1.
Proof.
  intros Hk Hx. replace (2 ^ k - 1) with (Z.ones k) by (rewrite Z.ones_equiv; lia).
  assert (D : Z.land x (Z.ones k) = 0) by now rewrite Z.land_ones.
  rewrite <- (Z.lxor_lor _ _ D), <- (Z.add_nocarry_lxor _ _ D).
  rewrite Z.ones_equiv. lia.
Qed.

(** The values of the fields of a successful result. *)
Lemma calculateSubnet_values (ip sm : string) (r : SubnetInfo) :
  calculateSubnet ip sm = Ok r ->
  exists (L : nat) (first last : string),
    (L <= 32)%nat
    /\ maskToCidr (subnetMask r) = Ok (Z.of_nat L)
    /\ ip_value (subnetMask r) = 2 ^ 32 - 2 ^ (32 - Z.of_nat L)
    /\ ip_value (wildcardMask r) = 2 ^ (32 - Z.of_nat L) - 1
    /\ ip_value (networkAddress r) = ip_value ip - ip_value ip mod 2 ^ (32 - Z.of_nat L)
    /\ ip_value (broadcastAddress r)
       = ip_value (networkAddress r) + 2 ^ (32 - Z.of_nat L) - 1
    /\ incrementIp (networkAddress r) = Ok first
    /\ decrementIp (broadcastAddress r) = Ok last
    /\ firstHost r = (if Z.of_nat L >=? 31 then networkAddress r else first)
    /\ lastHost r = (if Z.of_nat L >=? 31 then broadcastAddress r else last)
    /\ totalHosts r = 2 ^ (32 - Z.of_nat L)
    /\ usableHosts r = (if Z.of_nat L >=? 31 then 2 ^ (32 - Z.of_nat L)
                        else Z.max 0 (2 ^ (32 - Z.of_nat L) - 2)).
Proof.
  intros E. apply calculateSubnet_result in E.
  destruct E as (L & a & b & c & d & e & f & g & h & first & last & HL & Vm & B & C
                 & (Ha & Hb & Hc & Hd) & (He & Hf & Hg & Hh) & Oi & Om
                 & N & W & Bc & I & D & F & La & T & U).
  exists L, first, last.
  destruct (valid_mask_value (subnetMask r) L Vm HL B) as [_ Mv].
  set (k := 32 - Z.of_nat L) in *.
  assert (Hk : 0 <= k <= 32) by lia.
  assert (P : 0 < 2 ^ k) by (apply Z.pow_pos_nonneg; lia).
  assert (Vi : ip_value ip = ((a * 256 + b) * 256 + c) * 256 + d)
    by (unfold ip_value; rewrite Oi; simpl; lia).
  assert (Vk : ip_value (subnetMask r) = ((e * 256 + f) * 256 + g) * 256 + h)
    by (unfold ip_value; rewrite Om; simpl; lia).
  pose proof (land_octet a e Ha He) as Na. pose proof (land_octet b f Hb Hf) as Nb.
  pose proof (land_octet c g Hc Hg) as Nc. pose proof (land_octet d h Hd Hh) as Nd.
  assert (Vw : ip_value (wildcardMask r) = 2 ^ k - 1).
  { rewrite W, octets_string_value by lia. change (2 ^ 32) with 4294967296 in Mv. lia. }
  assert (Vn : ip_value (networkAddress r) = ip_value ip - ip_value ip mod 2 ^ k).
  { rewrite N, octets_string_value by assumption.
    rewrite <- land_word, <- Vi, <- Vk, Mv by assumption.
    apply land_prefix_mask; [|assumption].
    rewrite Vi. change (2 ^ 32) with 4294967296. lia. }
  assert (Vb : ip_value (broadcastAddress r) = ip_value (networkAddress r) + 2 ^ k - 1).
  { rewrite Bc, octets_string_value by (apply lor_octet; lia).
    rewrite <- lor_word by lia.
    rewrite <- (octets_string_value (Z.land a e) (Z.land b f) (Z.land c g) (Z.land d h))
      by assumption.
    rewrite <- (octets_string_value (255 - e) (255 - f) (255 - g) (255 - h)) by lia.
    rewrite <- N, <- W, Vw. apply lor_low_ones; [lia|].
    rewrite Vn. pose proof (Z.div_mod (ip_value ip) (2 ^ k) ltac:(lia)) as Q.
    replace (ip_value ip - ip_value ip mod 2 ^ k) with ((ip_value ip / 2 ^ k) * 2 ^ k)
      by (rewrite Q at 2; ring).
    apply Z_mod_mult. }
  repeat split; auto.
Qed.

End Block.

(** X10: in a successful result the network address is the address given
    with its host bits cleared, the broadcast address is the network address
    with the host bits set, the wildcard is the block size minus one; the
    address given lies between the two, and the total count is the number of
    addresses from the network to the broadcast address. *)
Theorem subnet_block (ip sm : string) (r : SubnetInfo) :
  calculateSubnet ip sm = Ok r ->
  exists cidr : Z,
    0 <= cidr <= 32
    /\ maskToCidr (subnetMask r) = Ok cidr
    /\ ip_value (networkAddress r) = ip_value ip - ip_value ip mod 2 ^ (32 - cidr)
    /\ ip_value (broadcastAddress r) = ip_value (networkAddress r) + 2 ^ (32 - cidr) - 1
    /\ ip_value (wildcardMask r) = 2 ^ (32 - cidr) - 1
    /\ ip_value (networkAddress r) <= ip_value ip <= ip_value (broadcastAddress r)
    /\ totalHosts r = ip_value (broadcastAddress r) - ip_value (networkAddress r) + 1.
Proof.
  intros E. apply calculateSubnet_values in E.
  destruct E as (L & first & last & HL & C & _ & W & N & B & _ & _ & _ & _ & T & _).
  exists (Z.of_nat L). repeat split; auto; try lia.
  - rewrite N. assert (P : 0 < 2 ^ (32 - Z.of_nat L)) by (apply Z.pow_pos_nonneg; lia).
    pose proof (Z.mod_pos_bound (ip_value ip) _ P). lia.
  - rewrite B, N. assert (P : 0 < 2 ^ (32 - Z.of_nat L)) by (apply Z.pow_pos_nonneg; lia).
    pose proof (Z.mod_pos_bound (ip_value ip) _ P). lia.
Qed.

Lemma subnet_block_witness :
  exists cidr : Z,
    0 <= cidr <= 32
    /\ maskToCidr "255.255.240.0" = Ok cidr
    /\ ip_value "172.16.32.0" = ip_value "172.16.45.9" - ip_value "172.16.45.9" mod 2 ^ (32 - cidr)
    /\ ip_value "172.16.47.255" = ip_value "172.16.32.0" + 2 ^ (32 - cidr) - 1
    /\ ip_value "0.0.15.255" = 2 ^ (32 - cidr) - 1
    /\ ip_value "172.16.32.0" <= ip_value "172.16.45.9" <= ip_value "172.16.47.255"
    /\ 4096 = ip_value "172.16.47.255" - ip_value "172.16.32.0" + 1.
Proof.
  exact (subnet_block "172.16.45.9" "/20"
           {| networkAddress := "172.16.32.0"; broadcastAddress := "172.16.47.255";
              firstHost := "172.16.32.1"; lastHost := "172.16.47.254";
              totalHosts := 4096; usableHosts := 4094;
              subnetMask := "255.255.240.0"; wildcardMask := "0.0.15.255";
              binaryIP := "10101100.00010000.00101101.00001001";
              binaryMask := "11111111.11111111.11110000.00000000" |}
           eq_refl).
Defined.

(** X11: when the prefix length of a successful result is at most 30, the
    first host is the address after the network address, the last host the
    address before the broadcast address, both written without leading
    zeros, and the usable count is the number of addresses from the first to
    the last host. *)
Theorem usable_range (ip sm : string) (r : SubnetInfo) (cidr : Z) :
  calculateSubnet ip sm = Ok r ->
  maskToCidr (subnetMask r) = Ok cidr -> cidr <= 30 ->
  canonical_ip (firstHost r) = true /\ canonical_ip (lastHost r) = true
  /\ ip_value (firstHost r) = ip_value (networkAddress r) + 1
  /\ ip_value (lastHost r) = ip_value (broadcastAddress r) - 1
  /\ ip_value (firstHost r) <= ip_value (lastHost r)
  /\ usableHosts r = ip_value (lastHost r) - ip_value (firstHost r) + 1.
Proof.
  intros E C H. destruct (derived_fields_canonical ip sm r E) as (Cn & Cb & Cf & Cl & _).
  apply calculateSubnet_values in E.
  destruct E as (L & first & last & HL & C' & _ & _ & N & B & I & D & F & La & _ & U).
  rewrite C in C'. injection C' as ->.
  replace (Z.of_nat L >=? 31) with false in *
    by (symmetry; rewrite Z.geb_leb; apply Z.leb_gt; lia).
  assert (P : 2 ^ 2 <= 2 ^ (32 - Z.of_nat L)) by (apply Z.pow_le_mono_r; lia).
  change (2 ^ 2) with 4 in P.
  destruct (incrementIp_valid _ (canonical_ip_valid _ Cn)) as [[_ X] | [_ (x & X & _ & Hx)]];
    [congruence|]. rewrite I in X. injection X as <-.
  destruct (decrementIp_valid _ (canonical_ip_valid _ Cb)) as [[_ Y] | [_ (y & Y & _ & Hy)]];
    [congruence|]. rewrite D in Y. injection Y as <-.
  rewrite F, La in *. repeat split; auto; lia.
Qed.

Lemma usable_range_witness :
  canonical_ip "172.16.32.1" = true /\ canonical_ip "172.16.47.254" = true
  /\ ip_value "172.16.32.1" = ip_value "172.16.32.0" + 1
  /\ ip_value "172.16.47.254" = ip_value "172.16.47.255" - 1
  /\ ip_value "172.16.32.1" <= ip_value "172.16.47.254"
  /\ 4094 = ip_value "172.16.47.254" - ip_value "172.16.32.1" + 1.
Proof.
  refine (usable_range "172.16.45.9" "/20"
           {| networkAddress := "172.16.32.0"; broadcastAddress := "172.16.47.255";
              firstHost := "172.16.32.1"; lastHost := "172.16.47.254";
              totalHosts := 4096; usableHosts := 4094;
              subnetMask := "255.255.240.0"; wildcardMask := "0.0.15.255";
              binaryIP := "10101100.00010000.00101101.00001001";
              binaryMask := "11111111.11111111.11110000.00000000" |}
           20 eq_refl eq_refl _).
  lia.
Defined.

(** ** The calculator and its inputs *)

Section Inputs.

Lemma calculateSubnet_ok_valid (ip sm : string) (r : SubnetInfo) :
  calculateSubnet ip sm = Ok r -> validateIP ip = true /\ validateSubnetMask sm = true.
Proof.
  intros E. unfold calculateSubnet in E.
  destruct (validateIP ip) eqn:V; [|discriminate E]. split; [reflexivity|].
  cbn [negb] in E. unfold validateSubnetMask. destruct (startsWith "/" sm) eqn:P.
  - destruct (parseInt (substring_from 1 sm) 10) as [|n]; [discriminate E|].
    cbn [isNaN orb negb andb ltb gtb geb leb cmp] in *.
    destruct ((n <? 0) || (n >? 32)) eqn:R; [discriminate E|].
    apply orb_false_iff in R as [R1 R2]. apply Z.ltb_ge in R1.
    rewrite Z.gtb_ltb in R2. apply Z.ltb_ge in R2.
    apply andb_true_iff. split; [rewrite Z.geb_leb|]; apply Z.leb_le; lia.
  - cbn [bind] in E. destruct (getWildcardMask sm) as [w|] eqn:W; [|discriminate E].
    unfold getWildcardMask in W.
    destruct (validateSubnetMask sm) eqn:M; [|discriminate W].
    unfold validateSubnetMask in M. now rewrite P in M.
Qed.

(** The mask a valid mask text stands for does not depend on the address. *)
Lemma calculateSubnet_resolve_all (sm : string) :
  validateSubnetMask sm = true ->
  exists mask,
    validateIP mask = true /\ validateSubnetMask mask = true
    /\ forall ip, calculateSubnet ip sm = calculateSubnet ip mask.
Proof.
  intros M. destruct (startsWith "/" sm) eqn:P.
  - destruct (proj1 (validateSubnetMask_cidr sm P) M) as (n & En & Hn).
    destruct (cidrToMask_in_range n Hn) as (mask & Em & Vm & Mm & _).
    exists mask. repeat split; auto. intros ip. unfold calculateSubnet.
    rewrite P, En, (valid_not_slash _ Vm). cbn [negb isNaN orb ltb gtb cmp].
    replace (n <? 0) with false by (symmetry; apply Z.ltb_ge; lia).
    replace (n >? 32) with false by (symmetry; rewrite Z.gtb_ltb; apply Z.ltb_ge; lia).
    cbn [orb]. rewrite Em. reflexivity.
  - exists sm. repeat split; auto. unfold validateSubnetMask in M. rewrite P in M.
    destruct (validateIP sm); [reflexivity | discriminate M].
Qed.

Lemma calculateSubnet_rejected_mask (ip sm : string) :
  validateIP ip = true -> validateSubnetMask sm = false ->
  calculateSubnet ip sm
  = Err (if startsWith "/" sm then InvalidCidr else InvalidMask).
Proof.
  intros V M. destruct (calculateSubnet ip sm) as [r|e] eqn:E.
  - apply calculateSubnet_ok_valid in E as [_ M']. congruence.
  - apply calculateSubnet_errors in E.
    destruct E as [[V' _] | [(_ & _ & [[-> ->] | [-> ->]]) | (_ & M' & _)]];
      congruence.
Qed.

End Inputs.

(** X12: a CIDR suffix gives the same outcome, result or failure, as the
    dotted mask [cidrToMask] makes of the integer [parseInt] reads after the
    slash. *)
Theorem calculateSubnet_cidr_form (ip sm mask : string) (n : Z) :
  startsWith "/" sm = true ->
  parseInt (substring_from 1 sm) 10 = Num n ->
  cidrToMask (Num n) = Ok mask ->
  calculateSubnet ip sm = calculateSubnet ip mask.
Proof.
  intros P En Em.
  assert (Hn : 0 <= n <= 32).
  { destruct (Z.ltb_spec n 0) as [L | L];
      [rewrite cidrToMask_out_of_range in Em by lia; discriminate Em|].
    destruct (Z.ltb_spec 32 n) as [G | G];
      [rewrite cidrToMask_out_of_range in Em by lia; discriminate Em | lia]. }
  destruct (cidrToMask_in_range n Hn) as (mask' & Em' & Vm & _).
  rewrite Em in Em'. apply Ok_inj in Em'. subst mask'.
  unfold calculateSubnet. rewrite P, En, (valid_not_slash _ Vm).
  cbn [isNaN orb ltb gtb cmp].
  replace (n <? 0) with false by (symmetry; apply Z.ltb_ge; lia).
  replace (n >? 32) with false by (symmetry; rewrite Z.gtb_ltb; apply Z.ltb_ge; lia).
  cbn [orb]. rewrite Em. reflexivity.
Qed.

Lemma calculateSubnet_cidr_form_witness :
  calculateSubnet "10.20.30.40" "/20" = calculateSubnet "10.20.30.40" "255.255.240.0".
Proof. apply (calculateSubnet_cidr_form _ _ _ 20); reflexivity. Defined.

(** X13: leading zeros in the address do not change the outcome: the
    calculator gives the same result, or the same failure, for a valid
    address and for its spelling without leading zeros. *)
Theorem calculateSubnet_leading_zeros (ip sm : string) :
  validateIP ip = true ->
  calculateSubnet (canonical_form ip) sm = calculateSubnet ip sm.
Proof.
  intros V. destruct (canonical_form_valid ip V) as (C & _ & _).
  pose proof (canonical_ip_valid _ C) as Vc.
  destruct (validateSubnetMask sm) eqn:M.
  2:{ now rewrite !calculateSubnet_rejected_mask. }
  destruct (calculateSubnet_resolve_all sm M) as (mask & Vm & Mm & R). rewrite !R.
  destruct (maskToCidr_valid mask Vm Mm) as (L & _ & _ & Cm).
  clear Vc C. apply validateIP_inv in V.
  destruct V as (g1 & g2 & g3 & g4 & -> & G1 & G2 & G3 & G4).
  apply validateIP_inv in Vm. destruct Vm as (h1 & h2 & h3 & h4 & -> & H1 & H2 & H3 & H4).
  rewrite canonical_form_dotted, octets_string_dotted by assumption.
  pose proof G1 as [_ V1]. pose proof G2 as [_ V2].
  pose proof G3 as [_ V3]. pose proof G4 as [_ V4].
  rewrite !(calculateSubnet_dotted _ _ _ _ h1 h2 h3 h4 (Z.of_nat L))
    by (assumption || now apply octet_ok_toString).
  destruct (toString_octet _ V1) as (_ & _ & ->). destruct (toString_octet _ V2) as (_ & _ & ->).
  destruct (toString_octet _ V3) as (_ & _ & ->). destruct (toString_octet _ V4) as (_ & _ & ->).
  reflexivity.
Qed.

Lemma calculateSubnet_leading_zeros_witness :
  calculateSubnet (canonical_form "010.020.030.040") "/20"
  = calculateSubnet "010.020.030.040" "/20".
Proof. apply calculateSubnet_leading_zeros. reflexivity. Defined.

(** X14: the calculator returns a result only on inputs both validators
    accept.  On such inputs it returns a result or fails with
    AddressSpaceExhausted, and with a dotted mask that failure happens exactly
    for the mask of 32 ones on the address whose octets are all 0 or all
    255. *)
Theorem calculator_and_validators (ip sm : string) :
  (forall r, calculateSubnet ip sm = Ok r ->
             validateIP ip = true /\ validateSubnetMask sm = true)
  /\ (validateIP ip = true -> validateSubnetMask sm = true ->
      (exists r, calculateSubnet ip sm = Ok r)
      \/ calculateSubnet ip sm = Err AddressSpaceExhausted)
  /\ (validateIP ip = true -> validateIP sm = true -> validateSubnetMask sm = true ->
      (calculateSubnet ip sm = Err AddressSpaceExhausted <->
       ip_octets sm = [255; 255; 255; 255]
       /\ (ip_octets ip = [255; 255; 255; 255] \/ ip_octets ip = [0; 0; 0; 0]))).
Proof.
  split; [|split].
  - intros r. apply calculateSubnet_ok_valid.
  - intros V M. destruct (calculateSubnet ip sm) as [r|e] eqn:E; [left; eauto|].
    right. apply calculateSubnet_errors in E.
    destruct E as [[V' _] | [(_ & M' & _) | (_ & _ & ->)]]; congruence.
  - intros V Vm M. split.
    + intros E. now apply (calculateSubnet_valid_failure ip sm _ V Vm M E).
    + intros [Om Oi]. destruct (maskToCidr_valid sm Vm M) as (L & _ & _ & C).
      apply validateIP_inv in V. destruct V as (g1 & g2 & g3 & g4 & -> & G1 & G2 & G3 & G4).
      apply validateIP_inv in Vm. destruct Vm as (h1 & h2 & h3 & h4 & -> & H1 & H2 & H3 & H4).
      rewrite (calculateSubnet_dotted g1 g2 g3 g4 h1 h2 h3 h4 (Z.of_nat L)) by assumption.
      rewrite ip_octets_dotted in Om, Oi by assumption.
      injection Om as -> -> -> ->.
      destruct Oi as [Oi | Oi]; injection Oi as -> -> -> ->; reflexivity.
Qed.

Lemma calculator_and_validators_witness :
  ((exists r, calculateSubnet "10.0.0.1" "/30" = Ok r)
   \/ calculateSubnet "10.0.0.1" "/30" = Err AddressSpaceExhausted)
  /\ (calculateSubnet "0.0.0.0" "255.255.255.255" = Err AddressSpaceExhausted <->
      ip_octets "255.255.255.255" = [255; 255; 255; 255]
      /\ (ip_octets "0.0.0.0" = [255; 255; 255; 255] \/ ip_octets "0.0.0.0" = [0; 0; 0; 0])).
Proof.
  split.
  - apply (proj1 (proj2 (calculator_and_validators "10.0.0.1" "/30"))); reflexivity.
  - apply (proj2 (proj2 (calculator_and_validators "0.0.0.0" "255.255.255.255")));
      reflexivity.
Defined.

(** ** The history *)

Section HistoryList.

Import History.

Lemma key_test (item : CalculationHistoryItem) (ip mask : string) :
  String.eqb item.(History.ipAddress) ip && String.eqb item.(History.subnetMask) mask = true
  <-> history_key item = (ip, mask).
Proof.
  unfold history_key. rewrite andb_true_iff, !String.eqb_eq. split.
  - intros [-> ->]. reflexivity.
  - intros [= -> ->]. auto.
Qed.

Lemma filter_keys (ip mask : string) (l : list CalculationHistoryItem) (item : CalculationHistoryItem) :
  In item (filter (fun item => negb (String.eqb item.(History.ipAddress) ip
                                     && String.eqb item.(History.subnetMask) mask)) l)
  <-> In item l /\ history_key item <> (ip, mask).
Proof.
  rewrite filter_In, negb_true_iff, <- not_true_iff_false, key_test. tauto.
Qed.

Lemma filtered_keys_NoDup (keep : CalculationHistoryItem -> bool)
    (items : list CalculationHistoryItem) :
  NoDup (map history_key items) -> NoDup (map history_key (filter keep items)).
Proof.
  intros N. induction items as [|a items IH]; cbn [filter map] in *; [constructor|].
  inversion N as [|? ? Hn Hd]; subst. destruct (keep a); cbn [map]; auto.
  constructor; auto. intros X. apply Hn. apply in_map_iff in X as (x & <- & Hx).
  apply filter_In in Hx as [Hx _]. now apply in_map.
Qed.

Lemma In_firstn {A : Type} (n : nat) : forall (l : list A) (x : A),
  In x (firstn n l) -> In x l.
Proof.
  induction n as [|n IH]; intros [|a l] x H; simpl in *; try contradiction.
  destruct H as [-> | H]; auto.
Qed.

Lemma NoDup_firstn {A : Type} (n : nat) : forall l : list A,
  NoDup l -> NoDup (firstn n l).
Proof.
  induction n as [|n IH]; intros [|a l] H; simpl; try constructor.
  - inversion H; subst. intros X. apply In_firstn in X. contradiction.
  - inversion H; subst. auto.
Qed.

Lemma filter_all {A : Type} (p : A -> bool) (l : list A) :
  (forall x, In x l -> p x = true) -> filter p l = l.
Proof.
  induction l as [|a l IH]; simpl; intros H; [reflexivity|].
  rewrite (H a) by auto. f_equal. apply IH. auto.
Qed.

Lemma addToHistory_unfold (uuid : string) (now : Z) (ip mask : string) (r : SubnetInfo)
    (prev : list CalculationHistoryItem) :
  addToHistory uuid now ip mask r prev
  = {| id := uuid; timestamp := now; ipAddress := ip; subnetMask := mask; result := r |}
    :: firstn 4 (filter (fun item => negb (String.eqb item.(History.ipAddress) ip
                                           && String.eqb item.(History.subnetMask) mask))
                        prev).
Proof. reflexivity. Qed.

End HistoryList.

(** X15: whatever the previous list, the history after [addToHistory] holds
    at most five items, starts with the new item, and no other item in it
    has the address and mask of the new one; the items behind the new one
    come from the previous list.  If the previous list had no two items with
    the same address and mask, neither has the new list. *)
Theorem addToHistory_invariant (uuid : string) (now : Z) (ip mask : string)
    (r : SubnetInfo) (prev : list History.CalculationHistoryItem) :
  let h := History.addToHistory uuid now ip mask r prev in
  (1 <= List.length h <= 5)%nat
  /\ hd_error h = Some {| History.id := uuid; History.timestamp := now;
                          History.ipAddress := ip; History.subnetMask := mask;
                          History.result := r |}
  /\ (forall item, In item (tl h) -> In item prev /\ history_key item <> (ip, mask))
  /\ (NoDup (map history_key prev) -> NoDup (map history_key h)).
Proof.
  intros h. unfold h. rewrite addToHistory_unfold. cbn [List.length hd_error tl].
  split; [|split; [reflexivity | split]].
  - pose proof (firstn_le_length 4
      (filter (fun item => negb (String.eqb item.(History.ipAddress) ip
                                 && String.eqb item.(History.subnetMask) mask)) prev)).
    lia.
  - intros item H. apply In_firstn in H. now apply filter_keys in H.
  - intros N. cbn [map]. constructor.
    + intros X. apply in_map_iff in X as (x & Kx & Hx).
      apply In_firstn, filter_keys in Hx as [_ Hx]. apply Hx. exact Kx.
    + rewrite <- firstn_map. apply NoDup_firstn. now apply filtered_keys_NoDup.
Qed.

Lemma addToHistory_invariant_witness :
  NoDup (map history_key
           (History.addToHistory "id-2" 2 "10.0.0.1" "/8" example_result
              [example_item "id-1" 1])).
Proof.
  refine (proj2 (proj2 (proj2 (addToHistory_invariant "id-2" 2 "10.0.0.1" "/8"
                                 example_result [example_item "id-1" 1]))) _).
  cbn. constructor; [intros [] | constructor].
Defined.

(** X16: when no item of the previous list has the address and mask of the
    new one, the new item is put in front of the first four previous items
    (the fifth, if any, is dropped); when one item of a duplicate-free list
    of at most five has them, the list does not grow. *)
Theorem addToHistory_cases (uuid : string) (now : Z) (ip mask : string)
    (r : SubnetInfo) (prev : list History.CalculationHistoryItem) :
  ((forall item, In item prev -> history_key item <> (ip, mask)) ->
   History.addToHistory uuid now ip mask r prev
   = {| History.id := uuid; History.timestamp := now; History.ipAddress := ip;
        History.subnetMask := mask; History.result := r |} :: firstn 4 prev)
  /\ ((exists item, In item prev /\ history_key item = (ip, mask)) ->
      NoDup (map history_key prev) -> (List.length prev <= 5)%nat ->
      List.length (History.addToHistory uuid now ip mask r prev) = List.length prev).
Proof.
  rewrite addToHistory_unfold. split.
  - intros H. rewrite filter_all; [reflexivity|].
    intros x Hx. apply negb_true_iff, not_true_iff_false. rewrite key_test. now apply H.
  - intros (item & Hi & Hk) N L. cbn [List.length].
    assert (F : S (List.length (filter (fun item => negb
                  (String.eqb item.(History.ipAddress) ip
                   && String.eqb item.(History.subnetMask) mask)) prev))
                = List.length prev).
    { clear L. induction prev as [|a l IH]; [contradiction|].
      cbn [map] in N. inversion N as [|? ? Hn Hd]; subst. cbn [filter List.length].
      destruct (String.eqb a.(History.ipAddress) ip
                && String.eqb a.(History.subnetMask) mask) eqn:K; cbn [negb].
      - f_equal. f_equal. apply filter_all. intros x Hx.
        apply negb_true_iff, not_true_iff_false. rewrite key_test. intros Kx.
        apply key_test in K. apply Hn. rewrite K, <- Kx. now apply in_map.
      - cbn [List.length]. f_equal. apply IH; auto.
        destruct Hi as [-> | Hi]; [|assumption].
        apply key_test in Hk. congruence. }
    rewrite firstn_all2 by lia. exact F.
Qed.

Lemma addToHistory_cases_witness :
  History.addToHistory "id-2" 2 "10.0.0.1" "/8" example_result
    [{| History.id := "id-1"; History.timestamp := 1; History.ipAddress := "10.0.0.1";
        History.subnetMask := "255.0.0.0"; History.result := example_result |}]
  = [example_item "id-2" 2;
     {| History.id := "id-1"; History.timestamp := 1; History.ipAddress := "10.0.0.1";
        History.subnetMask := "255.0.0.0"; History.result := example_result |}]
  /\ List.length (History.addToHistory "id-2" 2 "10.0.0.1" "/8" example_result
                    [example_item "id-1" 1])
     = List.length [example_item "id-1" 1].
Proof.
  split.
  - refine (proj1 (addToHistory_cases "id-2" 2 "10.0.0.1" "/8" example_result _) _).
    intros item [<- | []]. discriminate.
  - refine (proj2 (addToHistory_cases "id-2" 2 "10.0.0.1" "/8" example_result
                     [example_item "id-1" 1]) _ _ _).
    + exists (example_item "id-1" 1). split; [now left | reflexivity].
    + cbn. constructor; [intros [] | constructor].
    + cbn. lia.
Defined.

(** ** The form *)

Section FormHandler.

Import Form.

Lemma trimmed_not_empty (s : string) :
  String.eqb (trim s) "" = false -> String.eqb s "" = false.
Proof.
  intros H. destruct (String.eqb s "") eqn:E; [|reflexivity].
  apply String.eqb_eq in E. subst s. discriminate H.
Qed.

End FormHandler.

(** X17: [handleCalculate] runs the calculator only on trimmed fields that
    are not empty and that both validators accept.  So the result it shows
    comes from such fields, and the only failure that reaches its error
    message is AddressSpaceExhausted: the other kinds are caught by the
    validation before the call. *)
Theorem handleCalculate_outcomes (ipAddress subnetMask : string) :
  (forall i m r,
     Form.handleCalculate ipAddress subnetMask = Form.Calculated i m r ->
     i = trim ipAddress /\ m = trim subnetMask /\ i <> "" /\ m <> ""
     /\ validateIP i = true /\ validateSubnetMask m = true
     /\ calculateSubnet i m = Ok r)
  /\ (forall e,
        Form.handleCalculate ipAddress subnetMask = Form.Toast (Form.CalculationError e) ->
        e = AddressSpaceExhausted
        /\ validateIP (trim ipAddress) = true /\ validateSubnetMask (trim subnetMask) = true).
Proof.
  unfold Form.handleCalculate, Form.isValidIP, Form.isValidMask.
  destruct (String.eqb (trim ipAddress) "") eqn:E1; [split; intros; discriminate|].
  destruct (String.eqb (trim subnetMask) "") eqn:E2; [split; intros; discriminate|].
  rewrite (trimmed_not_empty _ E1), (trimmed_not_empty _ E2). cbn [orb].
  destruct (validateIP (trim ipAddress)) eqn:V; [|split; intros; discriminate].
  destruct (validateSubnetMask (trim subnetMask)) eqn:M; [|split; intros; discriminate].
  cbn [negb]. apply String.eqb_neq in E1, E2.
  destruct (calculateSubnet (trim ipAddress) (trim subnetMask)) as [r|e] eqn:C; split.
  - intros i m r' [= <- <- <-]. auto 10.
  - intros e H. discriminate H.
  - intros i m r H. discriminate H.
  - intros e' [= <-]. repeat split.
    apply calculateSubnet_errors in C.
    destruct C as [[V' _] | [(_ & M' & _) | (_ & _ & ->)]]; congruence.
Qed.

Lemma handleCalculate_outcomes_witness :
  ("10.0.0.1" = trim " 10.0.0.1 " /\ "/8" = trim "/8 " /\ "10.0.0.1" <> "" /\ "/8" <> ""
   /\ validateIP "10.0.0.1" = true /\ validateSubnetMask "/8" = true
   /\ calculateSubnet "10.0.0.1" "/8" = Ok example_result)
  /\ (AddressSpaceExhausted = AddressSpaceExhausted
      /\ validateIP (trim "255.255.255.255") = true
      /\ validateSubnetMask (trim " /32") = true).
Proof.
  split.
  - apply (proj1 (handleCalculate_outcomes " 10.0.0.1 " "/8 ")). vm_compute. reflexivity.
  - apply (proj2 (handleCalculate_outcomes "255.255.255.255" " /32")). vm_compute. reflexivity.
Defined.

(** ** Addresses of one block *)

Section SameBlock.

Lemma result_mask (ip mask : string) (r : SubnetInfo) :
  validateIP mask = true -> calculateSubnet ip mask = Ok r -> subnetMask r = mask.
Proof.
  intros Vm E. destruct (calculateSubnet_ok_valid ip mask r E) as [V M].
  destruct (maskToCidr_valid mask Vm M) as (L & _ & _ & C).
  apply validateIP_inv in V. destruct V as (g1 & g2 & g3 & g4 & -> & G1 & G2 & G3 & G4).
  apply validateIP_inv in Vm. destruct Vm as (h1 & h2 & h3 & h4 & -> & H1 & H2 & H3 & H4).
  rewrite (calculateSubnet_dotted g1 g2 g3 g4 h1 h2 h3 h4 (Z.of_nat L)) in E by assumption.
  cbv zeta in E.
  match type of E with
  | bind ?a _ = _ => destruct a; [|discriminate E]
  end. cbn [bind] in E.
  match type of E with
  | bind ?a _ = _ => destruct a; [|discriminate E]
  end. cbn [bind] in E. apply Ok_inj in E. now subst r.
Qed.

(** Two results for the same mask text carry the same mask. *)
Lemma same_mask (ip1 ip2 sm : string) (r1 r2 : SubnetInfo) :
  calculateSubnet ip1 sm = Ok r1 -> calculateSubnet ip2 sm = Ok r2 ->
  subnetMask r1 = subnetMask r2.
Proof.
  intros E1 E2. destruct (calculateSubnet_ok_valid ip1 sm r1 E1) as [_ M].
  destruct (calculateSubnet_resolve_all sm M) as (mask & Vm & _ & R).
  rewrite R in E1, E2.
  now rewrite (result_mask ip1 mask r1 Vm E1), (result_mask ip2 mask r2 Vm E2).
Qed.

Lemma block_start (v n s : Z) :
  0 < s -> n mod s = 0 -> n <= v < n + s -> v - v mod s = n.
Proof.
  intros Hs Hn Hv.
  assert (Q : n = s * (n / s)) by (pose proof (Z.div_mod n s ltac:(lia)); lia).
  assert (E : v mod s = v - n).
  { symmetry. apply (Z.mod_unique_pos v s (n / s)); lia. }
  lia.
Qed.

End SameBlock.

(** X18: two addresses calculated with the same mask get the same network
    address exactly when the second lies between the network and the
    broadcast address of the first; they then get the same broadcast
    address too. *)
Theorem same_block (ip1 ip2 sm : string) (r1 r2 : SubnetInfo) :
  calculateSubnet ip1 sm = Ok r1 -> calculateSubnet ip2 sm = Ok r2 ->
  (networkAddress r2 = networkAddress r1 <->
   ip_value (networkAddress r1) <= ip_value ip2 <= ip_value (broadcastAddress r1))
  /\ (networkAddress r2 = networkAddress r1 -> broadcastAddress r2 = broadcastAddress r1).
Proof.
  intros E1 E2. pose proof (same_mask ip1 ip2 sm r1 r2 E1 E2) as Sm.
  destruct (derived_fields_canonical ip1 sm r1 E1) as (Cn1 & Cb1 & _).
  destruct (derived_fields_canonical ip2 sm r2 E2) as (Cn2 & Cb2 & _).
  destruct (calculateSubnet_values ip1 sm r1 E1)
    as (L1 & f1 & l1 & HL1 & M1 & _ & _ & N1 & B1 & _).
  destruct (calculateSubnet_values ip2 sm r2 E2)
    as (L2 & f2 & l2 & HL2 & M2 & _ & _ & N2 & B2 & _).
  rewrite Sm, M2 in M1. apply Ok_inj in M1. rewrite M1 in *. clear M1.
  set (size := 2 ^ (32 - Z.of_nat L1)) in *.
  assert (P : 0 < size) by (apply Z.pow_pos_nonneg; lia).
  pose proof (Z.mod_pos_bound (ip_value ip2) size P) as R2.
  assert (W : networkAddress r2 = networkAddress r1 <->
              ip_value (networkAddress r1) <= ip_value ip2 <= ip_value (broadcastAddress r1)).
  { split.
    - intros E. rewrite B1, <- E, N2. lia.
    - intros H. apply canonical_ip_value_inj; auto.
      rewrite N2. apply block_start; [assumption| |lia].
      rewrite N1. pose proof (Z.div_mod (ip_value ip1) size ltac:(lia)) as Q.
      replace (ip_value ip1 - ip_value ip1 mod size)
        with ((ip_value ip1 / size) * size) by (rewrite Q at 2; ring).
      apply Z_mod_mult. }
  split; [exact W|].
  intros E. apply canonical_ip_value_inj; auto. rewrite B2, B1, E. reflexivity.
Qed.

Lemma same_block_witness :
  (networkAddress
     {| networkAddress := "10.0.0.0"; broadcastAddress := "10.255.255.255";
        firstHost := "10.0.0.1"; lastHost := "10.255.255.254";
        totalHosts := 16777216; usableHosts := 16777214;
        subnetMask := "255.0.0.0"; wildcardMask := "0.255.255.255";
        binaryIP := "00001010.11001000.00000011.00000100";
        binaryMask := "11111111.00000000.00000000.00000000" |}
   = networkAddress example_result <->
   ip_value (networkAddress example_result) <= ip_value "10.200.3.4"
   <= ip_value (broadcastAddress example_result))
  /\ (networkAddress
        {| networkAddress := "10.0.0.0"; broadcastAddress := "10.255.255.255";
           firstHost := "10.0.0.1"; lastHost := "10.255.255.254";
           totalHosts := 16777216; usableHosts := 16777214;
           subnetMask := "255.0.0.0"; wildcardMask := "0.255.255.255";
           binaryIP := "00001010.11001000.00000011.00000100";
           binaryMask := "11111111.00000000.00000000.00000000" |}
      = networkAddress example_result ->
      broadcastAddress
        {| networkAddress := "10.0.0.0"; broadcastAddress := "10.255.255.255";
           firstHost := "10.0.0.1"; lastHost := "10.255.255.254";
           totalHosts := 16777216; usableHosts := 16777214;
           subnetMask := "255.0.0.0"; wildcardMask := "0.255.255.255";
           binaryIP := "00001010.11001000.00000011.00000100";
           binaryMask := "11111111.00000000.00000000.00000000" |}
      = broadcastAddress example_result).
Proof.
  apply (same_block "10.0.0.1" "10.200.3.4" "/8"); vm_compute; reflexivity.
Defined.

(** ** What [parseInt] reads *)

Section Reading.

Lemma trim_start_split (t : string) :
  exists ws, t = ws ++ trim_start t /\ all_ws ws = true.
Proof.
  induction t as [|c t IH]; [now exists ""|]. cbn [trim_start].
  destruct (is_ws c) eqn:W; [|now exists ""].
  destruct IH as (ws & E & A). exists (String c ws). cbn [append all_ws].
  rewrite W, A. split; [now rewrite <- E | reflexivity].
Qed.

Lemma trim_start_skips (ws u : string) :
  all_ws ws = true -> trim_start u = u -> trim_start (ws ++ u) = u.
Proof.
  intros A U. induction ws as [|c ws IH]; [exact U|].
  cbn [all_ws] in A. apply andb_true_iff in A as [W A].
  cbn [append trim_start]. rewrite W. now apply IH.
Qed.

Lemma strip_sign_split (u body : string) (sg : Z) :
  strip_sign u = (sg, body) ->
  exists sign, u = sign ++ body /\ (sign = "" \/ sign = "+" \/ sign = "-")
               /\ sg = sign_value sign.
Proof.
  destruct u as [|c u]; [intros [= <- <-]; exists ""; auto|].
  destruct c as [[] [] [] [] [] [] [] []]; intros [= <- <-];
    first [ exists ""; split; [reflexivity | split; [auto | reflexivity]]
          | exists "+"; split; [reflexivity | split; [auto | reflexivity]]
          | exists "-"; split; [reflexivity | split; [auto | reflexivity]] ].
Qed.

Lemma digit_prefix_split (body : string) :
  exists rest, body = digit_prefix 10 body ++ rest
               /\ all_digits 10 (digit_prefix 10 body) = true
               /\ starts_with_digit rest = false.
Proof.
  induction body as [|c body IH]; [now exists ""|]. cbn [digit_prefix].
  destruct (is_digit 10 c) eqn:D.
  - destruct IH as (rest & E & A & R). exists rest. cbn [append all_digits].
    rewrite D, A. split; [now rewrite <- E | auto].
  - exists (String c body). cbn [starts_with_digit]. auto.
Qed.

Lemma digit_prefix_run (ds rest : string) :
  all_digits 10 ds = true -> starts_with_digit rest = false ->
  digit_prefix 10 (ds ++ rest) = ds.
Proof.
  intros A R. induction ds as [|c ds IH].
  - destruct rest as [|c rest]; [reflexivity|]. cbn [append digit_prefix].
    cbn [starts_with_digit] in R. now rewrite R.
  - cbn [all_digits] in A. apply andb_true_iff in A as [D A].
    cbn [append digit_prefix]. rewrite D. now rewrite IH.
Qed.

(** [parseInt(t, 10)] is the integer [n] exactly for the texts that read as
    [n]: white space, sign, digits, then anything. *)
Lemma parseInt_reads (t : string) (n : Z) :
  parseInt t 10 = Num n <-> reads_integer t n.
Proof.
  split.
  - unfold parseInt. destruct (strip_sign (trim_start t)) as [sg body] eqn:S.
    destruct (digit_prefix 10 body) as [|c ds] eqn:D; [discriminate|].
    intros [= <-]. destruct (trim_start_split t) as (ws & Et & A).
    destruct (strip_sign_split _ _ _ S) as (sign & Eu & Hs & ->).
    destruct (digit_prefix_split body) as (rest & Eb & Ad & R). rewrite D in Eb, Ad.
    exists ws, sign, (String c ds), rest. repeat split; auto.
    + rewrite Et at 1. rewrite Eu. rewrite Eb at 1. reflexivity.
    + discriminate.
  - intros (ws & sign & ds & rest & -> & A & Hs & Hne & Ad & R & ->).
    destruct ds as [|c ds]; [congruence|]. pose proof Ad as Ad'.
    cbn [all_digits] in Ad'. apply andb_true_iff in Ad' as [Dc _].
    unfold parseInt.
    assert (T : trim_start (sign ++ String c ds ++ rest) = sign ++ String c ds ++ rest).
    { destruct Hs as [-> | [-> | ->]]; cbn [append trim_start];
        [now rewrite (digit_not_ws c Dc) | reflexivity | reflexivity]. }
    rewrite (trim_start_skips ws _ A T).
    assert (S : strip_sign (sign ++ String c ds ++ rest)
                = (sign_value sign, String c ds ++ rest)).
    { destruct Hs as [-> | [-> | ->]]; [|reflexivity | reflexivity].
      cbn [append]. now rewrite (digit_strip_sign c _ Dc). }
    rewrite S, (digit_prefix_run _ _ Ad R). reflexivity.
Qed.

Lemma slash_text (s : string) :
  startsWith "/" s = true <-> exists t, s = String "/" t.
Proof.
  split; [apply slash_first|]. intros (t & ->). unfold startsWith.
  cbn [String.prefix]. destruct (ascii_dec "/" "/"); [now destruct t | congruence].
Qed.

(** The mask texts [validateSubnetMask] accepts, by the prefix length they
    ask for. *)
Lemma validateSubnetMask_given (sm : string) :
  validateSubnetMask sm = true <-> exists cidr, 0 <= cidr <= 32 /\ given_prefix sm cidr.
Proof.
  rewrite (proj1 validateSubnetMask_by_parseInt sm). unfold given_prefix. split.
  - intros [[P (n & E & Hn)] | [V (L & HL & B)]].
    + apply slash_text in P as (t & ->). cbn [substring_from] in E.
      exists n. split; [assumption|]. left. exists t. split; [reflexivity|].
      now apply parseInt_reads.
    + exists (Z.of_nat L). split; [lia|]. right. now rewrite Nat2Z.id.
  - intros (cidr & Hc & [(t & -> & R) | [V B]]).
    + left. split; [apply slash_text; eauto|]. exists cidr.
      cbn [substring_from]. split; [now apply parseInt_reads | assumption].
    + right. split; [assumption|]. exists (Z.to_nat cidr). split; [lia | assumption].
Qed.

(** The dotted mask a mask text stands for has the prefix length the text
    asks for. *)
Lemma given_prefix_resolve (sm : string) (cidr : Z) :
  0 <= cidr <= 32 -> given_prefix sm cidr ->
  exists mask,
    validateIP mask = true /\ validateSubnetMask mask = true
    /\ ip_bits mask = prefix_bits (Z.to_nat cidr)
    /\ forall ip, calculateSubnet ip sm = calculateSubnet ip mask.
Proof.
  intros Hc [(t & -> & R) | [V B]].
  - apply parseInt_reads in R.
    destruct (cidrToMask_in_range cidr Hc) as (mask & Em & Vm & Mm & Bm & _).
    exists mask. repeat split; auto. intros ip. unfold calculateSubnet.
    rewrite (proj2 (slash_text (String "/" t))) by eauto.
    cbn [substring_from]. rewrite R, (valid_not_slash _ Vm).
    cbn [negb isNaN orb ltb gtb cmp].
    replace (cidr <? 0) with false by (symmetry; apply Z.ltb_ge; lia).
    replace (cidr >? 32) with false by (symmetry; rewrite Z.gtb_ltb; apply Z.ltb_ge; lia).
    cbn [orb]. rewrite Em. reflexivity.
  - exists sm. repeat split; auto.
    apply validateSubnetMask_dotted; [assumption|].
    exists (Z.to_nat cidr). split; [lia | assumption].
Qed.

Lemma given_prefix_unique (sm : string) (c1 c2 : Z) :
  0 <= c1 <= 32 -> 0 <= c2 <= 32 ->
  given_prefix sm c1 -> given_prefix sm c2 -> c1 = c2.
Proof.
  intros H1 H2 [(t1 & E1 & R1) | [V1 B1]] [(t2 & E2 & R2) | [V2 B2]].
  - rewrite E1 in E2. injection E2 as <-. apply parseInt_reads in R1, R2. congruence.
  - rewrite E1 in V2. apply valid_first_digit in V2. discriminate V2.
  - rewrite E2 in V1. apply valid_first_digit in V1. discriminate V1.
  - rewrite B1 in B2. apply prefix_bits_inj in B2; lia.
Qed.

End Reading.



(** ** Host counts for the mask given *)

Section Counts.

Lemma counts_of_given (ip sm : string) (r : SubnetInfo) :
  calculateSubnet ip sm = Ok r ->
  exists cidr : Z,
    0 <= cidr <= 32
    /\ given_prefix sm cidr
    /\ ip_bits (subnetMask r) = prefix_bits (Z.to_nat cidr)
    /\ maskToCidr (subnetMask r) = Ok cidr
    /\ totalHosts r = 2 ^ (32 - cidr)
    /\ (cidr <= 30 -> usableHosts r = 2 ^ (32 - cidr) - 2)
    /\ (31 <= cidr -> usableHosts r = totalHosts r).
Proof.
  intros E. destruct (calculateSubnet_ok_valid ip sm r E) as [_ M].
  apply validateSubnetMask_given in M as (cidr & Hc & G).
  destruct (given_prefix_resolve sm cidr Hc G) as (mask & Vm & _ & Bm & R).
  rewrite R in E. pose proof (result_mask ip mask r Vm E) as Sm.
  destruct (result_host_counts ip mask r E) as (c & Hc' & B & C & T & U1 & U2).
  assert (c = cidr).
  { rewrite Sm, Bm in B. apply prefix_bits_inj in B; lia. }
  subst c. exists cidr. auto 10.
Qed.

Lemma all_ones_bits (mask : string) :
  ip_octets mask = [255; 255; 255; 255] -> ip_bits mask = prefix_bits 32.
Proof. unfold ip_bits. now intros ->. Qed.

End Counts.

(** C9: a successful result answers the mask it was given.  With [cidr] the
    prefix length that mask asks for (the integer after the slash, or the
    number of leading ones of the dotted mask), which is also the prefix
    length of the mask in the result, the total is [2^(32 - cidr)], the
    usable count is [2^(32 - cidr) - 2] when [cidr] is from 0 to 30 and the
    total when [cidr] is 31 or 32.  For every valid address and every mask
    of prefix length 0 to 31 the calculation succeeds with these counts. *)
Theorem host_counts :
  (forall (ip sm : string) (r : SubnetInfo),
     calculateSubnet ip sm = Ok r ->
     exists cidr : Z,
       0 <= cidr <= 32
       /\ given_prefix sm cidr
       /\ ip_bits (subnetMask r) = prefix_bits (Z.to_nat cidr)
       /\ maskToCidr (subnetMask r) = Ok cidr
       /\ totalHosts r = 2 ^ (32 - cidr)
       /\ (cidr <= 30 -> usableHosts r = 2 ^ (32 - cidr) - 2)
       /\ (31 <= cidr -> usableHosts r = totalHosts r))
  /\ (forall (ip sm : string) (cidr : Z),
        validateIP ip = true -> given_prefix sm cidr -> 0 <= cidr <= 31 ->
        exists r, calculateSubnet ip sm = Ok r
                  /\ totalHosts r = 2 ^ (32 - cidr)
                  /\ (cidr <= 30 -> usableHosts r = 2 ^ (32 - cidr) - 2)
                  /\ (cidr = 31 -> usableHosts r = 2)).
Proof.
  split; [exact counts_of_given|].
  intros ip sm cidr V G Hc.
  destruct (given_prefix_resolve sm cidr ltac:(lia) G) as (mask & Vm & Mm & Bm & R).
  destruct (calculateSubnet ip sm) as [r|e] eqn:E.
  - exists r. split; [reflexivity|].
    destruct (counts_of_given ip sm r E) as (c & Hc' & G' & _ & _ & T & U1 & U2).
    assert (c = cidr) by (apply (given_prefix_unique sm); auto; lia). subst c.
    repeat split; auto. intros ->. rewrite U2, T by lia. reflexivity.
  - exfalso. rewrite R in E.
    destruct (calculateSubnet_valid_failure ip mask e V Vm Mm E) as [O _].
    apply all_ones_bits in O. rewrite Bm in O. apply prefix_bits_inj in O; lia.
Qed.

Lemma host_counts_witness :
  (exists cidr : Z,
     0 <= cidr <= 32
     /\ given_prefix "/24" cidr
     /\ ip_bits "255.255.255.0" = prefix_bits (Z.to_nat cidr)
     /\ maskToCidr "255.255.255.0" = Ok cidr
     /\ 256 = 2 ^ (32 - cidr)
     /\ (cidr <= 30 -> 254 = 2 ^ (32 - cidr) - 2)
     /\ (31 <= cidr -> 254 = 256))
  /\ (exists r, calculateSubnet "10.0.0.1" "255.255.255.252" = Ok r
                /\ totalHosts r = 2 ^ (32 - 30)
                /\ (30 <= 30 -> usableHosts r = 2 ^ (32 - 30) - 2)
                /\ (30 = 31 -> usableHosts r = 2)).
Proof.
  split.
  - exact (proj1 host_counts "192.168.1.1" "/24"
             {| networkAddress := "192.168.1.0"; broadcastAddress := "192.168.1.255";
                firstHost := "192.168.1.1"; lastHost := "192.168.1.254";
                totalHosts := 256; usableHosts := 254;
                subnetMask := "255.255.255.0"; wildcardMask := "0.0.0.255";
                binaryIP := "11000000.10101000.00000001.00000001";
                binaryMask := "11111111.11111111.11111111.00000000" |}
             eq_refl).
  - apply (proj2 host_counts "10.0.0.1" "255.255.255.252" 30).
    + reflexivity.
    + right. split; reflexivity.
    + lia.
Defined.
